(** * Mapbox gateway and chat bridge: a shallow embedding of the two services

    The repository holds two Express applications written in JavaScript:
    - the gateway ([src/unnamed/part_000]), six POST handlers that turn a
      JSON body into Mapbox REST requests;
    - the bridge ([src/http-bridge/src/index.js]), whose [/api/chat] handler
      loops between the model API and the gateway.

    The handlers are untyped JavaScript over parsed JSON, so the embedding
    works on a type of JavaScript values and gives the language operations
    the handlers use (property access, truthiness, string conversion,
    [Array.prototype.join], [Math.min], ...) their ECMAScript meaning.
    Exceptions are explicit ([result]); outbound HTTP calls are answered by
    an oracle and recorded in a trace.

    Two things bound the embedding.  Strings are sequences of code units
    below 256, so a request that holds other characters is outside it.  And
    what the engine decides, the number a string converts to and the number
    of arguments a call can take, is a parameter of the handlers. *)

From Stdlib Require Import ZArith NArith List String Ascii Bool Floats Lia.
From Stdlib Require Import DecimalString.
Import ListNotations.
Open Scope string_scope.
Set Warnings "-register-all,-inexact-float".

(** ** JavaScript values and the fragment of the language the handlers use *)

Module JS.

(** Numbers are IEEE 754 binary64 values (Rocq's primitive floats), strings
    are sequences of code units below 256 (Rocq's 8-bit characters), objects
    are association lists in insertion order, as [JSON.parse] builds them. *)
Inductive value : Type :=
| VUndef
| VNull
| VBool (b : bool)
| VNum (x : float)
| VStr (s : string)
| VArr (items : list value)
| VObj (fields : list (string * value)).

(** Thrown values.  A [TypeError] or a [RangeError] is raised by the
    language itself; an [AxiosError] by a failed HTTP call, and carries
    [error.response] (status and [data]) when the server answered at all.
    Message texts of the language's errors are engine-defined; the ones
    below follow V8's wording.  ([encodeURIComponent] raises a [URIError] on
    a lone surrogate only, which the strings of this development, made of
    code units below 256, do not contain.) *)
Inductive exn : Type :=
| TypeError (message : string)
| RangeError (message : string)
| AxiosError (message : string) (response : option (N * value)).

Definition message (e : exn) : string :=
  match e with
  | TypeError m => m
  | RangeError m => m
  | AxiosError m _ => m
  end.

Inductive result (A : Type) : Type :=
| Ok (a : A)
| Throw (e : exn).
Arguments Ok {A} a.
Arguments Throw {A} e.

Definition rbind {A B} (r : result A) (k : A -> result B) : result B :=
  match r with
  | Ok a => k a
  | Throw e => Throw e
  end.

Fixpoint rmap {A B} (f : A -> result B) (l : list A) : result (list B) :=
  match l with
  | [] => Ok []
  | a :: l' => rbind (f a) (fun b => rbind (rmap f l') (fun bs => Ok (b :: bs)))
  end.

(** *** Strings *)

Definition dquote : string := String (ascii_of_nat 34) EmptyString.

Fixpoint join_strings (sep : string) (l : list string) : string :=
  match l with
  | [] => ""
  | [s] => s
  | s :: l' => s ++ sep ++ join_strings sep l'
  end.

Fixpoint repeat_string (s : string) (n : nat) : string :=
  match n with
  | O => ""
  | S n' => s ++ repeat_string s n'
  end.

Definition substring_from (n : nat) (s : string) : string :=
  substring n (String.length s - n) s.

Definition decimal_of_N (n : N) : string := NilZero.string_of_uint (N.to_uint n).

Definition decimal_of_nat (n : nat) : string := decimal_of_N (N.of_nat n).

Definition hex_digit (upper : bool) (n : nat) : ascii :=
  if Nat.ltb n 10 then ascii_of_nat (48 + n)
  else ascii_of_nat ((if upper then 55 else 87) + n).

Definition hex_byte (upper : bool) (n : nat) : string :=
  String (hex_digit upper (Nat.div n 16)) (String (hex_digit upper (Nat.modulo n 16)) "").

(** *** Number::toString (ECMAScript 6.1.6.1.20, radix 10)

    The shortest decimal digit string [s] (of [k] digits) and exponent [n]
    with [s * 10^(n-k)] rounding to the given double, found with exact
    integer arithmetic, then laid out by the standard's four cases. *)

(** [m * 2^e / 10^p] as a fraction of integers. *)
Definition scaled_num (m e p : Z) : Z := (m * 2 ^ Z.max e 0 * 10 ^ Z.max (- p) 0)%Z.
Definition scaled_den (e p : Z) : Z := (2 ^ Z.max (- e) 0 * 10 ^ Z.max p 0)%Z.

(** The least [n], searched upwards from [n0], with [m * 2^e < 10^n]. *)
Fixpoint decimal_exponent (fuel : nat) (m e n0 : Z) : Z :=
  match fuel with
  | O => n0
  | S fuel' =>
      if (scaled_num m e n0 <? scaled_den e n0)%Z then n0
      else decimal_exponent fuel' m e (n0 + 1)%Z
  end.

(** The digits and exponent of the positive double [m * 2^e]: for growing
    [k], the two [k]-digit neighbours of the value are tried against the
    interval of reals that round to it. *)
Fixpoint shortest_digits (fuel : nat) (m e n k : Z) : Z * Z * Z :=
  let p := (n - k)%Z in
  let den := scaled_den (e - 2) p in
  let x := scaled_num (4 * m) (e - 2) p in
  let below := if ((m =? 2 ^ 52) && (-1074 <? e))%Z then 1%Z else 2%Z in
  let lo := scaled_num (4 * m - below) (e - 2) p in
  let hi := scaled_num (4 * m + 2) (e - 2) p in
  let inside (s : Z) :=
    if Z.even m then ((lo <=? s * den) && (s * den <=? hi))%Z
    else ((lo <? s * den) && (s * den <? hi))%Z in
  let s1 := (x / den)%Z in
  let s2 := (s1 + 1)%Z in
  let d1 := (x - s1 * den)%Z in
  let d2 := (s2 * den - x)%Z in
  let pick (s : Z) := if (s =? 10 ^ k)%Z then (10 ^ (k - 1), k, n + 1)%Z else (s, k, n) in
  match fuel with
  | O => (s1, k, n)
  | S fuel' =>
      match inside s1, inside s2 with
      | true, true =>
          if (d1 <? d2)%Z then pick s1
          else if (d2 <? d1)%Z then pick s2
          else if Z.even s1 then pick s1 else pick s2
      | true, false => pick s1
      | false, true => pick s2
      | false, false => shortest_digits fuel' m e n (k + 1)%Z
      end
  end.

Definition layout_digits (s k n : Z) : string :=
  let ds := decimal_of_N (Z.to_N s) in
  if ((k <=? n) && (n <=? 21))%Z then
    ds ++ repeat_string "0" (Z.to_nat (n - k))
  else if ((0 <? n) && (n <=? 21))%Z then
    substring 0 (Z.to_nat n) ds ++ "." ++ substring_from (Z.to_nat n) ds
  else if ((-6 <? n) && (n <=? 0))%Z then
    "0." ++ repeat_string "0" (Z.to_nat (- n)) ++ ds
  else
    let e := (n - 1)%Z in
    let es := (if (e <? 0)%Z then "-" else "+") ++ decimal_of_N (Z.to_N (Z.abs e)) in
    if (k =? 1)%Z then ds ++ "e" ++ es
    else substring 0 1 ds ++ "." ++ substring_from 1 ds ++ "e" ++ es.

(** The search for the exponent starts two below an estimate made from the
    bit length, [log10 2] being a little more than 0.30102. *)
Definition positive_to_string (m e : Z) : string :=
  let n := decimal_exponent 8 m e ((e + Z.log2 m) * 30102 / 100000 - 1) in
  let '(s, k, n') := shortest_digits 17 m e n 1 in
  layout_digits s k n'.

Definition number_to_string (x : float) : string :=
  match Prim2SF x with
  | S754_nan => "NaN"
  | S754_zero _ => "0"
  | S754_infinity false => "Infinity"
  | S754_infinity true => "-Infinity"
  | S754_finite sign m e =>
      (if sign then "-" else "") ++ positive_to_string (Z.pos m) e
  end.


(** *** Conversions and operators *)

(** ToBoolean. *)
Definition truthy (v : value) : bool :=
  match v with
  | VUndef | VNull => false
  | VBool b => b
  | VNum x => negb (PrimFloat.is_nan x || PrimFloat.is_zero x)
  | VStr s => negb (s =? "")
  | VArr _ | VObj _ => true
  end.

(** [a || b]. *)
Definition or_else (a b : value) : value := if truthy a then a else b.

(** A destructuring default [{ x = d }]: taken only when the property is
    [undefined]. *)
Definition default_to (d v : value) : value :=
  match v with
  | VUndef => d
  | _ => v
  end.

Definition is_nullish (v : value) : bool :=
  match v with
  | VUndef | VNull => true
  | _ => false
  end.

(** [typeof v === 'string']. *)
Definition is_string (v : value) : bool :=
  match v with
  | VStr _ => true
  | _ => false
  end.

(** [v === s] for a string literal [s]. *)
Definition equals_string (v : value) (s : string) : bool :=
  match v with
  | VStr s' => s' =? s
  | _ => false
  end.

Definition type_name (v : value) : string :=
  match v with
  | VUndef => "undefined"
  | VNull => "null"
  | _ => "object"
  end.

Fixpoint assoc (k : string) (fs : list (string * value)) : value :=
  match fs with
  | [] => VUndef
  | (k', v) :: fs' => if k =? k' then v else assoc k fs'
  end.

(** Whether an object has a property of its own named [k]. *)
Definition has_own (k : string) (fs : list (string * value)) : bool :=
  existsb (fun kv => fst kv =? k) fs.

(** ToString.  A value of JSON origin holds no function.  An object
    therefore prints as [Object.prototype.toString] does, unless it has a
    [toString] of its own: that one is not callable, [valueOf] (its own or
    the inherited one) gives no primitive either, and ToPrimitive throws.
    An array prints as [Array.prototype.join] does, converting its elements
    from left to right. *)
Fixpoint to_string (v : value) : result string :=
  match v with
  | VUndef => Ok "undefined"
  | VNull => Ok "null"
  | VBool true => Ok "true"
  | VBool false => Ok "false"
  | VNum x => Ok (number_to_string x)
  | VStr s => Ok s
  | VArr l =>
      rbind ((fix elements (l : list value) : result (list string) :=
                match l with
                | [] => Ok []
                | e :: l' =>
                    rbind (match e with
                           | VUndef | VNull => Ok ""
                           | _ => to_string e
                           end) (fun s =>
                    rbind (elements l') (fun ss => Ok (s :: ss)))
                end) l)
            (fun ss => Ok (join_strings "," ss))
  | VObj fs =>
      if has_own "toString" fs
      then Throw (TypeError "Cannot convert object to primitive value")
      else Ok "[object Object]"
  end.

(** The string an element contributes to [Array.prototype.join]. *)
Definition element_string (e : value) : result string :=
  match e with
  | VUndef | VNull => Ok ""
  | _ => to_string e
  end.

Definition join_values (sep : string) (l : list value) : result string :=
  rbind (rmap element_string l) (fun ss => Ok (join_strings sep ss)).

(** A canonical array index: decimal digits that print back as themselves. *)
Definition array_index (k : string) : option nat :=
  match NilZero.uint_of_string k with
  | Some u =>
      let n := N.of_uint u in
      if decimal_of_N n =? k then Some (N.to_nat n) else None
  | None => None
  end.

Definition float_of_nat (n : nat) : float :=
  PrimFloat.of_uint63 (Uint63.of_Z (Z.of_nat n)).

(** The property [k] of a value that is neither [undefined] nor [null].
    None of the names the handlers read is inherited from a prototype, so a
    primitive or an array answers [undefined] to every name but [length] and
    its indices. *)
Definition member (v : value) (k : string) : value :=
  match v with
  | VObj fs => assoc k fs
  | VArr l =>
      if k =? "length" then VNum (float_of_nat (List.length l))
      else match array_index k with
           | Some i => nth i l VUndef
           | None => VUndef
           end
  | VStr s =>
      if k =? "length" then VNum (float_of_nat (String.length s))
      else match array_index k with
           | Some i =>
               match String.get i s with
               | Some c => VStr (String c "")
               | None => VUndef
               end
           | None => VUndef
           end
  | _ => VUndef
  end.

(** Property access [v.k] and [v[k]]. *)
Definition get (v : value) (k : string) : result value :=
  if is_nullish v
  then Throw (TypeError ("Cannot read properties of " ++ type_name v
                           ++ " (reading '" ++ k ++ "')"))
  else Ok (member v k).

(** Optional chaining [v?.k]. *)
Definition get_opt (v : value) (k : string) : value := member v k.

(** Destructuring [const { ... } = v] first requires [v] to be an object
    (RequireObjectCoercible). *)
Definition destructurable (property expr : string) (v : value) : result unit :=
  if is_nullish v
  then Throw (TypeError ("Cannot destructure property '" ++ property ++ "' of '"
                           ++ expr ++ "' as it is "
                           ++ match v with VNull => "null" | _ => "undefined" end
                           ++ "."))
  else Ok tt.

Definition not_a_function {A} (expr : string) : result A :=
  Throw (TypeError (expr ++ " is not a function")).

(** A method call [recv.name(...)] on a value of JSON origin finds a
    function only on the prototype of the right kind of value. *)
Definition method_missing {A} (recv : value) (expr name : string) : result A :=
  if is_nullish recv
  then Throw (TypeError ("Cannot read properties of " ++ type_name recv
                           ++ " (reading '" ++ name ++ "')"))
  else not_a_function (expr ++ "." ++ name).

(** [recv.join(sep)]. *)
Definition method_join (expr : string) (recv : value) (sep : string) : result string :=
  match recv with
  | VArr l => join_values sep l
  | _ => method_missing recv expr "join"
  end.

(** [recv.map(f)]. *)
Definition method_map (expr : string) (recv : value) (f : value -> result value)
  : result value :=
  match recv with
  | VArr l => rbind (rmap f l) (fun l' => Ok (VArr l'))
  | _ => method_missing recv expr "map"
  end.

(** [recv.some(p)]. *)
Fixpoint some_of (p : value -> result bool) (l : list value) : result bool :=
  match l with
  | [] => Ok false
  | x :: l' => rbind (p x) (fun b => if b then Ok true else some_of p l')
  end.

Definition method_some (expr : string) (recv : value) (p : value -> result bool)
  : result bool :=
  match recv with
  | VArr l => some_of p l
  | _ => method_missing recv expr "some"
  end.

(** [recv.toString()]: the method of the prototype, unless the receiver is
    an object with a [toString] of its own, which is not a function. *)
Definition method_toString (expr : string) (recv : value) : result string :=
  match recv with
  | VUndef | VNull => method_missing recv expr "toString"
  | VObj fs =>
      if has_own "toString" fs then not_a_function (expr ++ ".toString")
      else Ok "[object Object]"
  | _ => to_string recv
  end.

(** The values an iterable yields to a spread or a [for ... of]. *)
Definition iterate (expr : string) (v : value) : result (list value) :=
  match v with
  | VArr l => Ok l
  | VStr s => Ok (map (fun c => VStr (String c "")) (list_ascii_of_string s))
  | _ => Throw (TypeError (expr ++ " is not iterable"))
  end.

Definition set_field (k : string) (v : value) (fs : list (string * value))
  : list (string * value) :=
  if existsb (fun kv => fst kv =? k) fs
  then map (fun kv => if fst kv =? k then (k, v) else kv) fs
  else fs ++ [(k, v)].

Section Numeric.

(** Two things are left to the engine: StringToNumber (ECMAScript
    7.1.4.1.1), reached only when a string stands where the handlers expect
    a number, and the number of arguments a call can take, beyond which V8
    throws a [RangeError]. *)
Variable StringToNumber : string -> float.
Variable max_arguments : N.

(** ToNumber.  An array or an object goes through ToPrimitive, which ends
    with its [toString] as above. *)
Definition to_number (v : value) : result float :=
  match v with
  | VUndef => Ok PrimFloat.nan
  | VNull => Ok 0%float
  | VBool b => Ok (if b then 1%float else 0%float)
  | VNum x => Ok x
  | VStr s => Ok (StringToNumber s)
  | VArr _ | VObj _ => rbind (to_string v) (fun s => Ok (StringToNumber s))
  end.

(** [v.length > 0].  An array's length is an exact integer, so the test is
    made on the list; anything else goes through ToNumber. *)
Definition length_positive (v : value) : result bool :=
  match v with
  | VArr l => Ok (negb (Nat.eqb (List.length l) 0))
  | VStr s => Ok (negb (Nat.eqb (String.length s) 0))
  | _ => rbind (get v "length") (fun n =>
         rbind (to_number n) (fun x => Ok (0 <? x)%float))
  end.

(** [v[v.length - 1]], again exact on arrays. *)
Definition last_element (v : value) : result value :=
  match v with
  | VArr l => Ok (last l VUndef)
  | _ =>
      rbind (get v "length") (fun n =>
      rbind (to_number n) (fun x =>
      get v (number_to_string (x - 1)%float)))
  end.

Definition is_negative_zero (x : float) : bool :=
  match PrimFloat.classify x with
  | NZero => true
  | _ => false
  end.

Definition is_positive_zero (x : float) : bool :=
  match PrimFloat.classify x with
  | PZero => true
  | _ => false
  end.

(** [Math.min] and [Math.max] (ECMAScript 21.3.2.25 and 21.3.2.24) on
    numbers already coerced. *)
Fixpoint min_from (lowest : float) (l : list float) : float :=
  match l with
  | [] => lowest
  | x :: l' =>
      if PrimFloat.is_nan x then PrimFloat.nan
      else if is_negative_zero x && is_positive_zero lowest then min_from x l'
      else if (x <? lowest)%float then min_from x l'
      else min_from lowest l'
  end.

Fixpoint max_from (highest : float) (l : list float) : float :=
  match l with
  | [] => highest
  | x :: l' =>
      if PrimFloat.is_nan x then PrimFloat.nan
      else if is_positive_zero x && is_negative_zero highest then max_from x l'
      else if (highest <? x)%float then max_from x l'
      else max_from highest l'
  end.

(** Both coerce every argument, from left to right, before comparing. *)
Definition Math_min (args : list value) : result float :=
  rbind (rmap to_number args) (fun xs => Ok (min_from PrimFloat.infinity xs)).

Definition Math_max (args : list value) : result float :=
  rbind (rmap to_number args) (fun xs => Ok (max_from PrimFloat.neg_infinity xs)).

(** [f(...args)]: the elements become the arguments of a call, which the
    engine refuses when there are too many of them. *)
Definition spread (args : list value) : result (list value) :=
  if (N.of_nat (List.length args) <=? max_arguments)%N then Ok args
  else Throw (RangeError "Maximum call stack size exceeded").

End Numeric.

(** [a + b]: both sides go through ToPrimitive; then concatenation as soon
    as one side is a string, addition of numbers otherwise. *)
Definition to_primitive (v : value) : result value :=
  match v with
  | VArr _ | VObj _ => rbind (to_string v) (fun s => Ok (VStr s))
  | _ => Ok v
  end.

(** ToNumber of a primitive that is not a string. *)
Definition primitive_number (v : value) : float :=
  match v with
  | VNull => 0%float
  | VBool true => 1%float
  | VBool false => 0%float
  | VNum x => x
  | _ => PrimFloat.nan
  end.

Definition plus (a b : value) : result value :=
  rbind (to_primitive a) (fun pa =>
  rbind (to_primitive b) (fun pb =>
  if is_string pa || is_string pb
  then rbind (to_string pa) (fun sa =>
       rbind (to_string pb) (fun sb => Ok (VStr (sa ++ sb))))
  else Ok (VNum (primitive_number pa + primitive_number pb)%float))).

(** *** URL encoding and JSON text *)

Definition is_alphanumeric (n : nat) : bool :=
  (Nat.leb 48 n && Nat.leb n 57) || (Nat.leb 65 n && Nat.leb n 90)
  || (Nat.leb 97 n && Nat.leb n 122).

Definition one_of (chars : string) (c : ascii) : bool :=
  existsb (Ascii.eqb c) (list_ascii_of_string chars).

(** The UTF-8 bytes of a code unit below 256, percent-encoded. *)
Definition percent_encode (n : nat) : string :=
  if Nat.ltb n 128 then "%" ++ hex_byte true n
  else "%" ++ hex_byte true (192 + Nat.div n 64)
       ++ "%" ++ hex_byte true (128 + Nat.modulo n 64).

Fixpoint encode_with (keep : ascii -> bool) (plus_for_space : bool) (s : string)
  : string :=
  match s with
  | EmptyString => ""
  | String c s' =>
      (if keep c then String c ""
       else if plus_for_space && Ascii.eqb c " "%char then "+"
       else percent_encode (nat_of_ascii c))
      ++ encode_with keep plus_for_space s'
  end.

(** The escaping [encodeURIComponent] applies to a string. *)
Definition uri_component (s : string) : string :=
  encode_with (fun c => is_alphanumeric (nat_of_ascii c) || one_of "-_.!~*'()" c)
    false s.

(** [encodeURIComponent(v)]: ToString, then the escaping. *)
Definition encodeURIComponent (v : value) : result string :=
  rbind (to_string v) (fun s => Ok (uri_component s)).

(** The application/x-www-form-urlencoded serializer behind
    [URLSearchParams.prototype.toString], on names and values that are
    strings already. *)
Definition form_encode (s : string) : string :=
  encode_with (fun c => is_alphanumeric (nat_of_ascii c) || one_of "*-._" c) true s.

Definition URLSearchParams (params : list (string * string)) : string :=
  join_strings "&"
    (map (fun kv => form_encode (fst kv) ++ "=" ++ form_encode (snd kv)) params).

(** QuoteJSONString. *)
Fixpoint json_escape (s : string) : string :=
  match s with
  | EmptyString => ""
  | String c s' =>
      let n := nat_of_ascii c in
      (if Nat.eqb n 8 then "\b"
       else if Nat.eqb n 9 then "\t"
       else if Nat.eqb n 10 then "\n"
       else if Nat.eqb n 12 then "\f"
       else if Nat.eqb n 13 then "\r"
       else if Nat.eqb n 34 then "\" ++ dquote
       else if Nat.eqb n 92 then "\\"
       else if Nat.ltb n 32 then "\u00" ++ hex_byte false n
       else String c "")
      ++ json_escape s'
  end.

Definition json_quote (s : string) : string := dquote ++ json_escape s ++ dquote.

(** SerializeJSONProperty for a value that is not [undefined]; inside an
    array [undefined] prints as [null], inside an object its key is left
    out.  It reads no [toString]; a [toJSON] of JSON origin is not callable
    and is passed over. *)
Fixpoint json_text (v : value) : string :=
  match v with
  | VUndef | VNull => "null"
  | VBool true => "true"
  | VBool false => "false"
  | VNum x => if PrimFloat.is_finite x then number_to_string x else "null"
  | VStr s => json_quote s
  | VArr l => "[" ++ join_strings "," (map json_text l) ++ "]"
  | VObj fs =>
      "{" ++ join_strings ","
               ((fix members (fs : list (string * value)) : list string :=
                   match fs with
                   | [] => []
                   | (_, VUndef) :: fs' => members fs'
                   | (k, x) :: fs' => (json_quote k ++ ":" ++ json_text x) :: members fs'
                   end) fs)
          ++ "}"
  end.

(** [JSON.stringify(v)]. *)
Definition JSON_stringify (v : value) : value :=
  match v with
  | VUndef => VUndef
  | _ => VStr (json_text v)
  end.

(** *** Values that print *)

(** The primitive values, and the text ToString gives each of them. *)
Definition primitive (v : value) : Prop :=
  match v with
  | VArr _ | VObj _ => False
  | _ => True
  end.

Definition text (v : value) : string :=
  match v with
  | VUndef => "undefined"
  | VNull => "null"
  | VBool true => "true"
  | VBool false => "false"
  | VNum x => number_to_string x
  | VStr s => s
  | VArr _ | VObj _ => ""
  end.

(** Induction on values, through the elements of arrays. *)
Section Induction.

Variable P : value -> Prop.
Hypothesis undefined_case : P VUndef.
Hypothesis null_case : P VNull.
Hypothesis boolean_case : forall b, P (VBool b).
Hypothesis number_case : forall x, P (VNum x).
Hypothesis string_case : forall s, P (VStr s).
Hypothesis array_case : forall l, Forall P l -> P (VArr l).
Hypothesis object_case : forall fs, P (VObj fs).

Fixpoint value_elements_ind (v : value) : P v :=
  match v with
  | VUndef => undefined_case
  | VNull => null_case
  | VBool b => boolean_case b
  | VNum x => number_case x
  | VStr s => string_case s
  | VArr l =>
      array_case l
        ((fix all (l : list value) : Forall P l :=
            match l with
            | [] => Forall_nil P
            | x :: l' => Forall_cons x (value_elements_ind x) (all l')
            end) l)
  | VObj fs => object_case fs
  end.

End Induction.

(** *** Facts about the operations *)

Lemma to_string_primitive v : primitive v -> to_string v = Ok (text v).
Proof. destruct v as [| | [|] | x | s | l | fs]; simpl; intros H; try reflexivity; destruct H. Qed.

Lemma method_toString_primitive expr v :
  primitive v -> is_nullish v = false -> method_toString expr v = Ok (text v).
Proof.
  destruct v as [| | [|] | x | s | l | fs]; simpl; intros H N;
    try reflexivity; try discriminate; destruct H.
Qed.

Lemma to_string_array l : to_string (VArr l) = join_values "," l.
Proof.
  unfold join_values; cbn [to_string]; f_equal.
  induction l as [| e l IH]; [reflexivity |].
  cbn [rmap]; rewrite <- IH; destruct e; reflexivity.
Qed.

Lemma join_numbers sep (xs : list float) :
  join_values sep (map VNum xs) = Ok (join_strings sep (map number_to_string xs)).
Proof.
  unfold join_values.
  assert (E : rmap element_string (map VNum xs) = Ok (map number_to_string xs)).
  { induction xs as [| x xs IH]; [reflexivity |]; cbn [map rmap element_string to_string rbind].
    rewrite IH; reflexivity. }
  rewrite E; reflexivity.
Qed.

Lemma join_texts sep (ss : list string) :
  join_values sep (map VStr ss) = Ok (join_strings sep ss).
Proof.
  unfold join_values.
  assert (E : rmap element_string (map VStr ss) = Ok ss).
  { induction ss as [| s ss IH]; [reflexivity |]; cbn [map rmap element_string to_string rbind].
    rewrite IH; reflexivity. }
  rewrite E; reflexivity.
Qed.

Lemma get_object fs k : get (VObj fs) k = Ok (assoc k fs).
Proof. reflexivity. Qed.

Lemma get_first x l : get (VArr (x :: l)) "0" = Ok x.
Proof. reflexivity. Qed.

Lemma get_second x y l : get (VArr (x :: y :: l)) "1" = Ok y.
Proof. reflexivity. Qed.

Lemma rmap_ok {A B} (f : A -> result B) (g : A -> B) l :
  (forall a, In a l -> f a = Ok (g a)) -> rmap f l = Ok (map g l).
Proof.
  induction l as [| a l IH]; intros H; [reflexivity |].
  simpl; rewrite (H a (or_introl eq_refl)); simpl.
  rewrite IH by (intros; apply H; right; assumption); reflexivity.
Qed.

Lemma member_defined v k : member v k <> VUndef -> is_nullish v = false.
Proof. destruct v; simpl; congruence. Qed.

Lemma truthy_not_nullish v : truthy v = true -> is_nullish v = false.
Proof. destruct v; simpl; congruence. Qed.

Lemma append_assoc (a b c : string) : (a ++ b) ++ c = a ++ b ++ c.
Proof. induction a as [| x a IH]; simpl; [reflexivity | rewrite IH; reflexivity]. Qed.

(** Multiplication of doubles commutes. *)
Lemma float_mul_comm (x y : float) : (x * y = y * x)%float.
Proof.
  apply Prim2SF_inj; rewrite !mul_spec; unfold SF64mul, SFmul.
  destruct (Prim2SF x) as [sx | sx | | sx mx ex], (Prim2SF y) as [sy | sy | | sy my ey];
    try reflexivity; rewrite ?(xorb_comm sx sy); try reflexivity.
  rewrite (Pos.mul_comm mx my), (Z.add_comm ex ey); reflexivity.
Qed.

Lemma member_second x y l : member (VArr (x :: y :: l)) "1" = y.
Proof. reflexivity. Qed.

Lemma last_cons {A} (l : list A) (a d : A) : last (a :: l) d = last l a.
Proof.
  revert a d; induction l as [| b l IH]; intros a d; [reflexivity |].
  change (last (b :: l) d = last (b :: l) a); rewrite !IH; reflexivity.
Qed.

Lemma last_map {A B} (f : A -> B) (l : list A) (a : A) (d : B) :
  last (map f (a :: l)) d = f (last l a).
Proof.
  cbn [map]; rewrite last_cons; revert a; induction l as [| b l IH]; intros a;
    [reflexivity |].
  cbn [map]; rewrite last_cons, (last_cons l b a); apply IH.
Qed.

(** *** The order of doubles *)

(** A key of integers ordered, lexicographically, as the doubles are. *)
Definition order_key (f : spec_float) : Z * Z * Z :=
  match f with
  | S754_infinity true => (-2, 0, 0)%Z
  | S754_finite true m e => (-1, - e, Z.neg m)%Z
  | S754_finite false m e => (1, e, Z.pos m)%Z
  | S754_infinity false => (2, 0, 0)%Z
  | _ => (0, 0, 0)%Z
  end.

Definition key_le (a b : Z * Z * Z) : Prop :=
  (fst (fst a) < fst (fst b)
   \/ (fst (fst a) = fst (fst b)
       /\ (snd (fst a) < snd (fst b)
           \/ (snd (fst a) = snd (fst b) /\ snd a <= snd b))))%Z.

Definition number (f : spec_float) : Prop := f <> S754_nan.

Lemma SFleb_key a b :
  number a -> number b -> (SFleb a b = true <-> key_le (order_key a) (order_key b)).
Proof.
  unfold number, SFleb, SFcompare, key_le.
  destruct a as [sa | sa | | sa ma ea], b as [sb | sb | | sb mb eb]; intros Ha Hb;
    try contradiction; try destruct sa; try destruct sb; cbn [order_key fst snd];
    try (split; [intros _; lia | reflexivity]);
    try (split; [discriminate | lia]);
    change (Pos.compare_cont Eq ma mb) with (Pos.compare ma mb);
    destruct (Z.compare_spec ea eb); destruct (Pos.compare_spec ma mb); cbn [CompOpp];
    split; try discriminate; try reflexivity; lia.
Qed.

Lemma SFltb_key a b :
  number a -> number b -> (SFltb a b = true <-> ~ key_le (order_key b) (order_key a)).
Proof.
  unfold number, SFltb, SFcompare, key_le.
  destruct a as [sa | sa | | sa ma ea], b as [sb | sb | | sb mb eb]; intros Ha Hb;
    try contradiction; try destruct sa; try destruct sb; cbn [order_key fst snd];
    try (split; [intros _; lia | reflexivity]);
    try (split; [discriminate | lia]);
    change (Pos.compare_cont Eq ma mb) with (Pos.compare ma mb);
    destruct (Z.compare_spec ea eb); destruct (Pos.compare_spec ma mb); cbn [CompOpp];
    split; try discriminate; try reflexivity; lia.
Qed.

Lemma is_nan_number x : PrimFloat.is_nan x = false <-> number (Prim2SF x).
Proof.
  unfold PrimFloat.is_nan, number; rewrite eqb_spec; unfold SFeqb, SFcompare.
  destruct (Prim2SF x) as [s | s | | s m e]; try destruct s;
    rewrite ?Z.compare_refl, ?Pos.compare_cont_refl; cbn;
    split; congruence.
Qed.

Lemma leb_number x y : (x <=? y)%float = true ->
  PrimFloat.is_nan x = false /\ PrimFloat.is_nan y = false.
Proof.
  rewrite leb_spec, !is_nan_number; unfold SFleb, SFcompare, number.
  destruct (Prim2SF x), (Prim2SF y); split; congruence.
Qed.

Lemma leb_trans x y z :
  (x <=? y)%float = true -> (y <=? z)%float = true -> (x <=? z)%float = true.
Proof.
  intros H1 H2.
  destruct (leb_number _ _ H1) as [Nx Ny]; destruct (leb_number _ _ H2) as [_ Nz].
  apply is_nan_number in Nx, Ny, Nz; rewrite leb_spec in *.
  rewrite SFleb_key in * by assumption; unfold key_le in *; lia.
Qed.

Lemma ltb_leb x y :
  (x <? y)%float = true -> (x <=? y)%float = true.
Proof.
  rewrite ltb_spec, leb_spec; unfold SFltb, SFleb.
  destruct (SFcompare _ _) as [[| |] |]; congruence.
Qed.

Lemma not_ltb_leb x y :
  PrimFloat.is_nan x = false -> PrimFloat.is_nan y = false ->
  (x <? y)%float = false -> (y <=? x)%float = true.
Proof.
  intros Nx Ny; apply is_nan_number in Nx, Ny; rewrite ltb_spec, leb_spec.
  intros H; apply SFleb_key; try assumption.
  destruct (SFltb_key _ _ Nx Ny) as [_ K].
  destruct (SFltb (Prim2SF x) (Prim2SF y)); [discriminate |].
  unfold key_le in *; destruct (order_key (Prim2SF x)) as [[a1 a2] a3],
    (order_key (Prim2SF y)) as [[b1 b2] b3]; cbn [fst snd] in *.
  assert (~ ~ (b1 < a1 \/ b1 = a1 /\ (b2 < a2 \/ b2 = a2 /\ b3 <= a3)))%Z
    by (intros C; specialize (K C); discriminate).
  lia.
Qed.

Lemma leb_refl x : PrimFloat.is_nan x = false -> (x <=? x)%float = true.
Proof.
  intros Nx; apply is_nan_number in Nx; rewrite leb_spec.
  apply SFleb_key; try assumption; unfold key_le; lia.
Qed.

Lemma zeros_leb x y :
  is_negative_zero x = true -> is_positive_zero y = true -> (x <=? y)%float = true.
Proof.
  unfold is_negative_zero, is_positive_zero; rewrite !classify_spec, leb_spec.
  unfold SF64classify, SFclassify.
  destruct (Prim2SF x) as [sx | sx | | sx mx ex], (Prim2SF y) as [sy | sy | | sy my ey];
    repeat match goal with
           | |- context [if ?c then _ else _] => destruct c
           end; try discriminate; reflexivity.
Qed.

(** [Math.min] of numbers: a lower bound that is one of them. *)
Lemma min_from_least l : forall lowest,
  PrimFloat.is_nan lowest = false ->
  Forall (fun x => PrimFloat.is_nan x = false) l ->
  (min_from lowest l <=? lowest)%float = true
  /\ Forall (fun x => (min_from lowest l <=? x)%float = true) l
  /\ (min_from lowest l = lowest \/ In (min_from lowest l) l).
Proof.
  induction l as [| x l IH]; intros lowest Nl Hl; cbn [min_from].
  - repeat split; [apply leb_refl; exact Nl | constructor | left; reflexivity].
  - inversion Hl as [| ? ? Nx Hl']; subst; rewrite Nx.
    destruct (is_negative_zero x && is_positive_zero lowest) eqn:Z;
      [| destruct (x <? lowest)%float eqn:L].
    + apply andb_prop in Z; destruct Z as [Z1 Z2].
      destruct (IH x Nx Hl') as [A [B C]]; repeat split.
      * eapply leb_trans; [exact A | apply zeros_leb; assumption].
      * constructor; assumption.
      * right; destruct C as [-> | C]; [left; reflexivity | right; exact C].
    + destruct (IH x Nx Hl') as [A [B C]]; repeat split.
      * eapply leb_trans; [exact A | apply ltb_leb; exact L].
      * constructor; assumption.
      * right; destruct C as [-> | C]; [left; reflexivity | right; exact C].
    + destruct (IH lowest Nl Hl') as [A [B C]]; repeat split.
      * exact A.
      * constructor; [| exact B].
        eapply leb_trans; [exact A | apply not_ltb_leb; assumption].
      * destruct C as [C | C]; [left; exact C | right; right; exact C].
Qed.

Lemma zeros_leb' x y :
  is_positive_zero x = true -> is_negative_zero y = true -> (y <=? x)%float = true.
Proof. intros Hx Hy; apply zeros_leb; assumption. Qed.

(** [Math.max] of numbers: an upper bound that is one of them. *)
Lemma max_from_greatest l : forall highest,
  PrimFloat.is_nan highest = false ->
  Forall (fun x => PrimFloat.is_nan x = false) l ->
  (highest <=? max_from highest l)%float = true
  /\ Forall (fun x => (x <=? max_from highest l)%float = true) l
  /\ (max_from highest l = highest \/ In (max_from highest l) l).
Proof.
  induction l as [| x l IH]; intros highest Nh Hl; cbn [max_from].
  - repeat split; [apply leb_refl; exact Nh | constructor | left; reflexivity].
  - inversion Hl as [| ? ? Nx Hl']; subst; rewrite Nx.
    destruct (is_positive_zero x && is_negative_zero highest) eqn:Z;
      [| destruct (highest <? x)%float eqn:L].
    + apply andb_prop in Z; destruct Z as [Z1 Z2].
      destruct (IH x Nx Hl') as [A [B C]]; repeat split.
      * apply (leb_trans _ x); [apply zeros_leb; assumption | exact A].
      * constructor; assumption.
      * right; destruct C as [-> | C]; [left; reflexivity | right; exact C].
    + destruct (IH x Nx Hl') as [A [B C]]; repeat split.
      * apply (leb_trans _ x); [apply ltb_leb; exact L | exact A].
      * constructor; assumption.
      * right; destruct C as [-> | C]; [left; reflexivity | right; exact C].
    + destruct (IH highest Nh Hl') as [A [B C]]; repeat split.
      * exact A.
      * constructor; [| exact B].
        apply (leb_trans _ highest); [apply not_ltb_leb; assumption | exact A].
      * destruct C as [C | C]; [left; exact C | right; right; exact C].
Qed.

Lemma above_infinity x : (PrimFloat.infinity <=? x)%float = true -> x = PrimFloat.infinity.
Proof.
  intros H; apply Prim2SF_inj; rewrite leb_spec in H.
  change (Prim2SF PrimFloat.infinity) with (S754_infinity false) in *.
  destruct (Prim2SF x) as [s | s | | s m e]; try destruct s; try discriminate; reflexivity.
Qed.

Lemma below_neg_infinity x :
  (x <=? PrimFloat.neg_infinity)%float = true -> x = PrimFloat.neg_infinity.
Proof.
  intros H; apply Prim2SF_inj; rewrite leb_spec in H.
  change (Prim2SF PrimFloat.neg_infinity) with (S754_infinity true) in *.
  destruct (Prim2SF x) as [s | s | | s m e]; try destruct s; try discriminate; reflexivity.
Qed.

(** The least and the greatest of a list of doubles. *)
Definition is_minimum (m : float) (l : list float) : Prop :=
  In m l /\ Forall (fun x => (m <=? x)%float = true) l.

Definition is_maximum (m : float) (l : list float) : Prop :=
  In m l /\ Forall (fun x => (x <=? m)%float = true) l.

Lemma min_from_infinity x l :
  Forall (fun x => PrimFloat.is_nan x = false) (x :: l) ->
  is_minimum (min_from PrimFloat.infinity (x :: l)) (x :: l).
Proof.
  intros H; destruct (min_from_least (x :: l) PrimFloat.infinity eq_refl H) as [_ [B C]].
  split; [| exact B]; destruct C as [C | C]; [| exact C].
  rewrite C in B |- *; inversion B as [| ? ? Hx _]; subst.
  left; apply above_infinity; exact Hx.
Qed.

Lemma max_from_neg_infinity x l :
  Forall (fun x => PrimFloat.is_nan x = false) (x :: l) ->
  is_maximum (max_from PrimFloat.neg_infinity (x :: l)) (x :: l).
Proof.
  intros H; destruct (max_from_greatest (x :: l) PrimFloat.neg_infinity eq_refl H)
    as [_ [B C]].
  split; [| exact B]; destruct C as [C | C]; [| exact C].
  rewrite C in B |- *; inversion B as [| ? ? Hx _]; subst.
  left; apply below_neg_infinity; exact Hx.
Qed.

End JS.

(** ** Outbound HTTP, the trace of calls and the handler monad *)

Module IO.
Import JS.
Local Open Scope list_scope.

(** An outbound axios call, with the value handed to axios as the body of a
    POST, which axios sends as JSON text.  Headers and timeouts are
    constants of the source and are left out. *)
Inductive request : Type :=
| Get (url : string)
| Post (url : string) (data : value).

(** What the remote end does with it: a 2xx response with its parsed
    [data], or a failure, which axios turns into a rejection carrying
    [error.message] and, when a response arrived, its status and [data]. *)
Inductive answer : Type :=
| Answered (data : value)
| Failed (message : string) (response : option (N * value)).

Definition event : Type := request * answer.
Definition trace : Type := list event.

(** The environment answers each request knowing every earlier exchange. *)
Definition world : Type := trace -> request -> answer.

Definition settle (a : answer) : result value :=
  match a with
  | Answered d => Ok d
  | Failed m r => Throw (AxiosError m r)
  end.

(** Computations that call out: the trace so far goes in, the extended
    trace comes out with a value or a thrown exception. *)
Definition M (A : Type) : Type := trace -> trace * result A.

Definition ret {A} (a : A) : M A := fun tr => (tr, Ok a).

Definition throw {A} (e : exn) : M A := fun tr => (tr, Throw e).

Definition bind {A B} (m : M A) (k : A -> M B) : M B :=
  fun tr =>
    match m tr with
    | (tr', Ok a) => k a tr'
    | (tr', Throw e) => (tr', Throw e)
    end.

Definition lift {A} (r : result A) : M A := fun tr => (tr, r).

(** [try { m } catch (error) { h error }]. *)
Definition try_catch {A} (m : M A) (h : exn -> M A) : M A :=
  fun tr =>
    match m tr with
    | (tr', Ok a) => (tr', Ok a)
    | (tr', Throw e) => h e tr'
    end.

(** [await axios.get(url)] and [await axios.post(url, data)], yielding
    [response.data]. *)
Definition axios (w : world) (r : request) : M value :=
  fun tr => let a := w tr r in (tr ++ [(r, a)], settle a).

(** [await Promise.all([axios.get(u1), axios.get(u2)])]: both calls are
    started before either is awaited; when both fail, the rejection that
    settles first wins, which the flag [second_first] decides. *)
Definition axios_all2 (w : world) (second_first : bool) (r1 r2 : request)
  : M (value * value) :=
  fun tr =>
    let a1 := w tr r1 in
    let tr1 := tr ++ [(r1, a1)] in
    let a2 := w tr1 r2 in
    (tr1 ++ [(r2, a2)],
     match settle a1, settle a2 with
     | Ok d1, Ok d2 => Ok (d1, d2)
     | Throw e1, Ok _ => Throw e1
     | Ok _, Throw e2 => Throw e2
     | Throw e1, Throw e2 => Throw (if second_first then e2 else e1)
     end).

(** What an Express handler sends: [res.status(status).json(body)], [body]
    being the value handed to [res.json], which the client receives as JSON
    text. *)
Record response : Type := { status : N; body : value }.

Definition json (st : N) (b : value) : response := {| status := st; body := b |}.

End IO.

Declare Scope io_scope.
Delimit Scope io_scope with io.
Notation "x <- m ;; k" := (IO.bind m (fun x => k))
  (at level 61, m at next level, right associativity) : io_scope.
Notation "' pat <- m ;; k" := (IO.bind m (fun x => match x with pat => k end))
  (at level 61, pat pattern, m at next level, right associativity) : io_scope.


(** ** The gateway ([src/unnamed/part_000]) *)

Module Gateway.
Import JS IO.
Local Open Scope io_scope.

(** [req.body.arguments || req.body], the object every handler destructures. *)
Definition request_arguments (body : value) : result value :=
  rbind (get body "arguments") (fun arguments => Ok (or_else arguments body)).

(** [error.response?.data?.message]. *)
Definition upstream_message (e : exn) : value :=
  match e with
  | AxiosError _ (Some (_, data)) => get_opt data "message"
  | _ => VUndef
  end.

(** The [catch] branch of the four handlers that call Mapbox. *)
Definition upstream_failure (e : exn) : response :=
  json 500 (VObj [("success", VBool false);
                  ("error", or_else (upstream_message e) (VStr (message e)))]).

(** The [catch] branch of the two handlers that only build a URL. *)
Definition local_failure (e : exn) : response :=
  json 500 (VObj [("success", VBool false); ("error", VStr (message e))]).

(** A handler is its [try] block run from the empty trace, with the
    [catch] branch answering whatever it throws. *)
Definition handle (try_block : M response) (catch : exn -> response)
  : trace * response :=
  match try_block [] with
  | (tr, Ok r) => (tr, r)
  | (tr, Throw e) => (tr, catch e)
  end.

(** [coordinates.map(coord => coord.join(',')).join(';')]. *)
Definition coordinate_string (coordinates : value) : result string :=
  rbind (method_map "coordinates" coordinates
           (fun coord => rbind (method_join "coord" coord ",")
                           (fun s => Ok (VStr s))))
        (fun pairs => method_join "coordinates.map(...)" pairs ";").

(** The object built from each geocoding feature. *)
Definition place_of_feature (feature : value) : result value :=
  rbind (get feature "place_name") (fun place_name =>
  Ok (VObj [("place_name", place_name);
            ("center", member feature "center");
            ("place_type", member feature "place_type");
            ("relevance", member feature "relevance");
            ("properties", member feature "properties");
            ("context", member feature "context")])).

Definition geocoding_results (data : value) : result response :=
  rbind (get data "features") (fun features =>
  rbind (method_map "response.data.features" features place_of_feature) (fun results =>
  Ok (json 200 (VObj [("success", VBool true);
                      ("results", results);
                      ("total", member results "length")])))).

(** [if (country) params.append('country', country)] and the like: the
    parameter a truthy value adds, the value converted by [convert]. *)
Definition optional_parameter (name : string) (v : value)
    (convert : value -> result string) : result (list (string * string)) :=
  if truthy v then rbind (convert v) (fun s => Ok [(name, s)]) else Ok [].

(** The token of one marker: [pin-{size}[-{label}]+{color}({lon},{lat})],
    its parts converted to strings in this order. *)
Definition marker_token (marker : value) : result value :=
  rbind (get marker "size") (fun size =>
  rbind (to_string (or_else size (VStr "small"))) (fun size_text =>
  let markerStr := "pin-" ++ size_text in
  let label := member marker "label" in
  rbind (if truthy label
         then rbind (to_string label) (fun label_text =>
              Ok (markerStr ++ "-" ++ label_text))
         else Ok markerStr) (fun markerStr =>
  rbind (to_string (or_else (member marker "color") (VStr "red"))) (fun color_text =>
  rbind (to_string (member marker "longitude")) (fun longitude_text =>
  rbind (to_string (member marker "latitude")) (fun latitude_text =>
  Ok (VStr (markerStr ++ "+" ++ color_text ++ "(" ++ longitude_text ++ ","
              ++ latitude_text ++ ")")))))))).

(** The path segment the markers add to the static image URL. *)
Definition markers_segment (StringToNumber : string -> float) (markers : value)
  : result string :=
  rbind (length_positive StringToNumber markers) (fun some =>
  if some then
    rbind (method_map "markers" markers marker_token) (fun tokens =>
    rbind (method_join "markers.map(...)" tokens ",") (fun markerString =>
    Ok ("/" ++ markerString)))
  else Ok "").

(** The viewport segment of the static image URL: [bbox], else
    [center] and [zoom], else nothing. *)
Definition viewport_segment (bbox center zoom : value) : result string :=
  if truthy bbox then
    rbind (method_join "bbox" bbox ",") (fun b => Ok ("/[" ++ b ++ "]"))
  else if truthy center && negb (match zoom with VUndef => true | _ => false end) then
    rbind (method_join "center" center ",") (fun c =>
    rbind (to_string zoom) (fun zoom_text =>
    Ok ("/" ++ c ++ "," ++ zoom_text)))
  else Ok "".

(** [pin-s-{label}+{color}({coord[0]},{coord[1]})]. *)
Definition pin (label color : string) (coord : value) : result string :=
  rbind (get coord "0") (fun lon =>
  rbind (to_string lon) (fun lon_text =>
  rbind (to_string (member coord "1")) (fun lat_text =>
  Ok ("pin-s-" ++ label ++ "+" ++ color ++ "(" ++ lon_text ++ "," ++ lat_text ++ ")")))).

(** The overlay of the route map: the two pins, after the path when a
    polyline is given. *)
Definition route_overlay (route_polyline : value) (markers : string) : result string :=
  if truthy route_polyline
  then rbind (encodeURIComponent route_polyline) (fun encoded =>
       Ok ("path-5+0080ff-0.75(" ++ encoded ++ ")" ++ "," ++ markers))
  else Ok markers.

(** [coordinates.map(coord => coord[index])], as the list a spread takes
    from it. *)
Definition component (index : string) (coordinates : value) : result (list value) :=
  rbind (method_map "coordinates" coordinates (fun coord => get coord index))
        (iterate "coordinates.map(...)").

(** [if (sources) params.append('sources', sources.join(';'))]. *)
Definition optional_indices (name : string) (indices : value)
  : result (list (string * string)) :=
  optional_parameter name indices (fun v => method_join name v ";").

Section Handlers.

(** The configured token, the two things left to the engine, the remote
    end, and the order in which two failing parallel calls settle. *)
Variable MAPBOX_ACCESS_TOKEN : string.
Variable StringToNumber : string -> float.
Variable max_arguments : N.
Variable mapbox : world.
Variable second_first : bool.

(** [POST /geocode_forward], lines 295-334. *)
Definition geocode_forward_with (args : value) : M response :=
  _ <- lift (destructurable "query" "req.body.arguments || req.body" args) ;;
  let query := member args "query" in
  let limit := default_to (VNum 5) (member args "limit") in
  let country := member args "country" in
  query_text <- lift (encodeURIComponent query) ;;
  let url := "https://api.mapbox.com/geocoding/v5/mapbox.places/"
             ++ query_text ++ ".json" in
  limit_text <- lift (method_toString "limit" limit) ;;
  country_param <- lift (optional_parameter "country" country to_string) ;;
  let params := ([("access_token", MAPBOX_ACCESS_TOKEN); ("limit", limit_text)]
                 ++ country_param)%list in
  let url := url ++ "?" ++ URLSearchParams params in
  data <- axios mapbox (Get url) ;;
  lift (geocoding_results data).

Definition geocode_forward_try (body : value) : M response :=
  args <- lift (request_arguments body) ;;
  geocode_forward_with args.

Definition geocode_forward (body : value) : trace * response :=
  handle (geocode_forward_try body) upstream_failure.

(** [types && types.length > 0]. *)
Definition some_types (types : value) : result bool :=
  if truthy types then length_positive StringToNumber types else Ok false.

(** [POST /geocode_reverse], lines 337-375. *)
Definition geocode_reverse_with (args : value) : M response :=
  _ <- lift (destructurable "longitude" "req.body.arguments || req.body" args) ;;
  let longitude := member args "longitude" in
  let latitude := member args "latitude" in
  let types := member args "types" in
  longitude_text <- lift (to_string longitude) ;;
  latitude_text <- lift (to_string latitude) ;;
  let url := "https://api.mapbox.com/geocoding/v5/mapbox.places/"
             ++ longitude_text ++ "," ++ latitude_text ++ ".json" in
  given <- lift (some_types types) ;;
  types_param <- lift (if (given : bool)
                       then rbind (method_join "types" types ",")
                              (fun t => Ok [("types", t)])
                       else Ok []) ;;
  let params := ([("access_token", MAPBOX_ACCESS_TOKEN)] ++ types_param)%list in
  let url := url ++ "?" ++ URLSearchParams params in
  data <- axios mapbox (Get url) ;;
  lift (geocoding_results data).

Definition geocode_reverse_try (body : value) : M response :=
  args <- lift (request_arguments body) ;;
  geocode_reverse_with args.

Definition geocode_reverse (body : value) : trace * response :=
  handle (geocode_reverse_try body) upstream_failure.

(** [POST /get_directions], lines 378-426. *)
Definition directions_url (profile coordinateString : string)
    (query : list (string * string)) : string :=
  "https://api.mapbox.com/directions/v5/mapbox/" ++ profile ++ "/"
  ++ coordinateString ++ "?" ++ URLSearchParams query.

Definition directions_result (geojson polyline : value) : result response :=
  rbind (get geojson "routes") (fun routes =>
  let result := [("success", VBool true);
                 ("routes", routes);
                 ("waypoints", member geojson "waypoints");
                 ("code", member geojson "code")] in
  rbind (get polyline "routes") (fun polyline_routes =>
  rbind (if truthy polyline_routes
         then rbind (get polyline_routes "0") (fun first =>
              if truthy first
              then Ok (set_field "polyline" (member first "geometry") result)
              else Ok result)
         else Ok result) (fun result =>
  Ok (json 200 (VObj result))))).

Definition get_directions_with (args : value) : M response :=
  _ <- lift (destructurable "coordinates" "req.body.arguments || req.body" args) ;;
  let coordinates := member args "coordinates" in
  let profile := default_to (VStr "driving") (member args "profile") in
  let geometries := default_to (VStr "geojson") (member args "geometries") in
  let steps := default_to (VBool true) (member args "steps") in
  let overview := default_to (VStr "full") (member args "overview") in
  coordinateString <- lift (coordinate_string coordinates) ;;
  profile_text <- lift (to_string profile) ;;
  steps_text <- lift (method_toString "steps" steps) ;;
  overview_text <- lift (to_string overview) ;;
  let geojsonUrl :=
    directions_url profile_text coordinateString
      [("access_token", MAPBOX_ACCESS_TOKEN);
       ("geometries", "geojson");
       ("steps", steps_text);
       ("overview", overview_text)] in
  let polylineUrl :=
    directions_url profile_text coordinateString
      [("access_token", MAPBOX_ACCESS_TOKEN);
       ("geometries", "polyline");
       ("steps", "false");
       ("overview", "full")] in
  '(geojson, polyline) <- axios_all2 mapbox second_first (Get geojsonUrl) (Get polylineUrl) ;;
  lift (directions_result geojson polyline).

Definition get_directions_try (body : value) : M response :=
  args <- lift (request_arguments body) ;;
  get_directions_with args.

Definition get_directions (body : value) : trace * response :=
  handle (get_directions_try body) upstream_failure.

(** [POST /get_static_image], lines 429-482.  The template literals
    convert [style] first and [width] and [height] last. *)
Definition get_static_image_with (args : value) : M response :=
  _ <- lift (destructurable "style" "req.body.arguments || req.body" args) ;;
  let style := default_to (VStr "mapbox/streets-v12") (member args "style") in
  let width := default_to (VNum 600) (member args "width") in
  let height := default_to (VNum 400) (member args "height") in
  let zoom := member args "zoom" in
  let center := member args "center" in
  let bbox := member args "bbox" in
  let markers := default_to (VArr []) (member args "markers") in
  style_text <- lift (to_string style) ;;
  let url := "https://api.mapbox.com/styles/v1/" ++ style_text ++ "/static" in
  markers_part <- lift (markers_segment StringToNumber markers) ;;
  let url := url ++ markers_part in
  viewport_part <- lift (viewport_segment bbox center zoom) ;;
  let url := url ++ viewport_part in
  width_text <- lift (to_string width) ;;
  height_text <- lift (to_string height) ;;
  let url := url ++ "/" ++ width_text ++ "x" ++ height_text in
  let url := url ++ "?" ++ URLSearchParams [("access_token", MAPBOX_ACCESS_TOKEN)] in
  ret (json 200 (VObj [("success", VBool true);
                       ("image_url", VStr url);
                       ("width", width);
                       ("height", height)])).

Definition get_static_image_try (body : value) : M response :=
  args <- lift (request_arguments body) ;;
  get_static_image_with args.

Definition get_static_image (body : value) : trace * response :=
  handle (get_static_image_try body) local_failure.

(** [POST /get_route_map], lines 485-559. *)

(** The four corners: the extremes of the coordinates moved outwards by a
    tenth of their spread.  Each of the four calls spreads its list. *)
Definition padded_box (lons lats : list value) : result (list float) :=
  rbind (rbind (spread max_arguments lons) (Math_min StringToNumber)) (fun minLon =>
  rbind (rbind (spread max_arguments lons) (Math_max StringToNumber)) (fun maxLon =>
  rbind (rbind (spread max_arguments lats) (Math_min StringToNumber)) (fun minLat =>
  rbind (rbind (spread max_arguments lats) (Math_max StringToNumber)) (fun maxLat =>
  let lonPadding := ((maxLon - minLon) * 0.1)%float in
  let latPadding := ((maxLat - minLat) * 0.1)%float in
  Ok [(minLon - lonPadding)%float;
      (minLat - latPadding)%float;
      (maxLon + lonPadding)%float;
      (maxLat + latPadding)%float])))).

Definition get_route_map_with (args : value) : M response :=
  _ <- lift (destructurable "coordinates" "req.body.arguments || req.body" args) ;;
  let coordinates := member args "coordinates" in
  let style := default_to (VStr "mapbox/streets-v12") (member args "style") in
  let width := default_to (VNum 800) (member args "width") in
  let height := default_to (VNum 600) (member args "height") in
  let route_polyline := member args "route_polyline" in
  style_text <- lift (to_string style) ;;
  let url := "https://api.mapbox.com/styles/v1/" ++ style_text ++ "/static" in
  startCoord <- lift (get coordinates "0") ;;
  endCoord <- lift (last_element StringToNumber coordinates) ;;
  start_pin <- lift (pin "a" "00ff00" startCoord) ;;
  end_pin <- lift (pin "b" "ff0000" endCoord) ;;
  overlay <- lift (route_overlay route_polyline (join_strings "," [start_pin; end_pin])) ;;
  let url := url ++ "/" ++ overlay in
  lons <- lift (component "0" coordinates) ;;
  lats <- lift (component "1" coordinates) ;;
  bbox <- lift (padded_box lons lats) ;;
  bbox_text <- lift (join_values "," (map VNum bbox)) ;;
  let url := url ++ "/[" ++ bbox_text ++ "]" in
  width_text <- lift (to_string width) ;;
  height_text <- lift (to_string height) ;;
  let url := url ++ "/" ++ width_text ++ "x" ++ height_text in
  let url := url ++ "?" ++ URLSearchParams [("access_token", MAPBOX_ACCESS_TOKEN)] in
  ret (json 200 (VObj [("success", VBool true);
                       ("image_url", VStr url);
                       ("width", width);
                       ("height", height);
                       ("start_coordinates", startCoord);
                       ("end_coordinates", endCoord);
                       ("bounding_box", VArr (map VNum bbox))])).

Definition get_route_map_try (body : value) : M response :=
  args <- lift (request_arguments body) ;;
  get_route_map_with args.

Definition get_route_map (body : value) : trace * response :=
  handle (get_route_map_try body) local_failure.

(** [POST /get_matrix], lines 562-607. *)
Definition get_matrix_with (args : value) : M response :=
  _ <- lift (destructurable "coordinates" "req.body.arguments || req.body" args) ;;
  let coordinates := member args "coordinates" in
  let profile := default_to (VStr "driving") (member args "profile") in
  let sources := member args "sources" in
  let destinations := member args "destinations" in
  let annotations :=
    default_to (VArr [VStr "duration"; VStr "distance"]) (member args "annotations") in
  coordinateString <- lift (coordinate_string coordinates) ;;
  profile_text <- lift (to_string profile) ;;
  let url := "https://api.mapbox.com/directions-matrix/v1/mapbox/"
             ++ profile_text ++ "/" ++ coordinateString in
  annotations_text <- lift (method_join "annotations" annotations ",") ;;
  sources_param <- lift (optional_indices "sources" sources) ;;
  destinations_param <- lift (optional_indices "destinations" destinations) ;;
  let params := ([("access_token", MAPBOX_ACCESS_TOKEN);
                  ("annotations", annotations_text)]
                 ++ sources_param ++ destinations_param)%list in
  let url := url ++ "?" ++ URLSearchParams params in
  data <- axios mapbox (Get url) ;;
  durations <- lift (get data "durations") ;;
  ret (json 200 (VObj [("success", VBool true);
                       ("durations", durations);
                       ("distances", member data "distances");
                       ("sources", member data "sources");
                       ("destinations", member data "destinations");
                       ("code", member data "code")])).

Definition get_matrix_try (body : value) : M response :=
  args <- lift (request_arguments body) ;;
  get_matrix_with args.

Definition get_matrix (body : value) : trace * response :=
  handle (get_matrix_try body) upstream_failure.

(** The six POST routes of the gateway. *)
Inductive endpoint : Type :=
| GeocodeForward
| GeocodeReverse
| GetDirections
| GetStaticImage
| GetRouteMap
| GetMatrix.

Definition route_name (ep : endpoint) : string :=
  match ep with
  | GeocodeForward => "geocode_forward"
  | GeocodeReverse => "geocode_reverse"
  | GetDirections => "get_directions"
  | GetStaticImage => "get_static_image"
  | GetRouteMap => "get_route_map"
  | GetMatrix => "get_matrix"
  end.

(** The body of the handler's [try] once the arguments object is chosen. *)
Definition try_with (ep : endpoint) : value -> M response :=
  match ep with
  | GeocodeForward => geocode_forward_with
  | GeocodeReverse => geocode_reverse_with
  | GetDirections => get_directions_with
  | GetStaticImage => get_static_image_with
  | GetRouteMap => get_route_map_with
  | GetMatrix => get_matrix_with
  end.

Definition try_block (ep : endpoint) : value -> M response :=
  match ep with
  | GeocodeForward => geocode_forward_try
  | GeocodeReverse => geocode_reverse_try
  | GetDirections => get_directions_try
  | GetStaticImage => get_static_image_try
  | GetRouteMap => get_route_map_try
  | GetMatrix => get_matrix_try
  end.

Definition catch_block (ep : endpoint) : exn -> response :=
  match ep with
  | GetStaticImage | GetRouteMap => local_failure
  | _ => upstream_failure
  end.

Definition handler (ep : endpoint) : value -> trace * response :=
  match ep with
  | GeocodeForward => geocode_forward
  | GeocodeReverse => geocode_reverse
  | GetDirections => get_directions
  | GetStaticImage => get_static_image
  | GetRouteMap => get_route_map
  | GetMatrix => get_matrix
  end.

End Handlers.

(** *** Where exceptions come from

    The language operations throw [TypeError]s, and a spread that is too
    long a [RangeError]; an [AxiosError] reaches a [catch] only through an
    outbound call. *)

(** A result that throws nothing but what [allowed] lets through. *)
Definition throws_only {A} (allowed : exn -> Prop) (r : result A) : Prop :=
  match r with
  | Throw e => allowed e
  | Ok _ => True
  end.

Definition type_error (e : exn) : Prop := exists m, e = TypeError m.

Definition language_error (e : exn) : Prop :=
  exists m, e = TypeError m \/ e = RangeError m.

(** A computation that makes no outbound call. *)
Definition pure {A} (allowed : exn -> Prop) (m : M A) : Prop :=
  forall tr, exists r, m tr = (tr, r) /\ throws_only allowed r.

Section Locality.

Variable allowed : exn -> Prop.
Hypothesis type_errors : forall m, allowed (TypeError m).

Definition local {A} (r : result A) : Prop := throws_only allowed r.

Lemma local_rbind {A B} (r : result A) (k : A -> result B) :
  local r -> (forall a, local (k a)) -> local (rbind r k).
Proof.
  destruct r as [a | e]; simpl; intros Hr Hk; [apply Hk | exact Hr].
Qed.

Lemma local_ok {A} (a : A) : local (Ok a).
Proof. exact I. Qed.

Lemma local_get v k : local (get v k).
Proof. unfold get; destruct (is_nullish v); [apply type_errors | exact I]. Qed.

Lemma local_rmap {A B} (f : A -> result B) l :
  (forall a, local (f a)) -> local (rmap f l).
Proof.
  intros Hf; induction l as [| a l IH]; simpl; [exact I |].
  apply local_rbind; [apply Hf | intros b].
  apply local_rbind; [exact IH | intros bs; exact I].
Qed.

Lemma local_to_string v : local (to_string v).
Proof.
  induction v as [| | [|] | x | s | l IH | fs] using value_elements_ind; try exact I.
  - rewrite to_string_array; unfold join_values.
    apply local_rbind; [| intros; exact I].
    induction IH as [| e l He _ IHl]; [exact I |].
    cbn [rmap]; apply local_rbind; [| intros; apply local_rbind; [exact IHl | intros; exact I]].
    destruct e; try exact I; exact He.
  - cbn [to_string]; destruct (has_own _ _); [apply type_errors | exact I].
Qed.

Lemma local_element_string v : local (element_string v).
Proof. destruct v; try exact I; apply local_to_string. Qed.

Lemma local_join_values sep l : local (join_values sep l).
Proof.
  unfold join_values; apply local_rbind; [| intros; exact I].
  apply local_rmap, local_element_string.
Qed.

Lemma local_encodeURIComponent v : local (encodeURIComponent v).
Proof.
  unfold encodeURIComponent; apply local_rbind; [apply local_to_string | intros; exact I].
Qed.

Lemma local_method_missing {A} recv expr name : local (@method_missing A recv expr name).
Proof. unfold method_missing; destruct (is_nullish recv); apply type_errors. Qed.

Lemma local_method_join expr recv sep : local (method_join expr recv sep).
Proof.
  destruct recv; simpl; try apply local_method_missing; try apply type_errors.
  apply local_join_values.
Qed.

Lemma local_method_map expr recv f :
  (forall a, local (f a)) -> local (method_map expr recv f).
Proof.
  intros Hf; destruct recv; simpl; try apply local_method_missing; try apply type_errors.
  apply local_rbind; [apply local_rmap, Hf | intros; exact I].
Qed.

Lemma local_method_toString expr recv : local (method_toString expr recv).
Proof.
  destruct recv as [| | b | x | s | l | fs]; try apply local_to_string;
    try apply (@local_method_missing string).
  cbn [method_toString]; destruct (has_own _ _); [apply type_errors | exact I].
Qed.

Lemma local_iterate expr v : local (iterate expr v).
Proof. destruct v; try exact I; apply type_errors. Qed.

Lemma local_destructurable property expr v : local (destructurable property expr v).
Proof. unfold destructurable; destruct (is_nullish v); [apply type_errors | exact I]. Qed.

Lemma local_to_number s2n v : local (to_number s2n v).
Proof.
  destruct v; try exact I;
    (apply local_rbind; [apply local_to_string | intros; exact I]).
Qed.

Lemma local_length_positive s2n v : local (length_positive s2n v).
Proof.
  destruct v; cbn [length_positive]; try exact I;
    (apply local_rbind; [apply local_get | intros n]);
    (apply local_rbind; [apply local_to_number | intros; exact I]).
Qed.

Lemma local_last_element s2n v : local (last_element s2n v).
Proof.
  destruct v; cbn [last_element]; try exact I;
    (apply local_rbind; [apply local_get | intros n]);
    (apply local_rbind; [apply local_to_number | intros; apply local_get]).
Qed.

Lemma local_request_arguments body : local (request_arguments body).
Proof.
  unfold request_arguments; apply local_rbind; [apply local_get | intros; exact I].
Qed.

Lemma local_optional_parameter name v convert :
  (forall a, local (convert a)) -> local (optional_parameter name v convert).
Proof.
  intros H; unfold optional_parameter; destruct (truthy v); [| exact I].
  apply local_rbind; [apply H | intros; exact I].
Qed.

Lemma local_optional_indices name v : local (optional_indices name v).
Proof. apply local_optional_parameter; intros; apply local_method_join. Qed.

Lemma local_coordinate_string coordinates : local (coordinate_string coordinates).
Proof.
  unfold coordinate_string; apply local_rbind; [| intros; apply local_method_join].
  apply local_method_map; intros coord.
  apply local_rbind; [apply local_method_join | intros; exact I].
Qed.

Lemma local_marker_token marker : local (marker_token marker).
Proof.
  unfold marker_token; apply local_rbind; [apply local_get | intros size].
  apply local_rbind; [apply local_to_string | intros size_text].
  apply local_rbind.
  { destruct (truthy _); [| exact I].
    apply local_rbind; [apply local_to_string | intros; exact I]. }
  intros markerStr.
  repeat (apply local_rbind; [apply local_to_string | intros ?]); exact I.
Qed.

Lemma local_markers_segment s2n markers : local (markers_segment s2n markers).
Proof.
  unfold markers_segment; apply local_rbind; [apply local_length_positive |].
  intros [|]; [| exact I].
  apply local_rbind; [apply local_method_map, local_marker_token | intros tokens].
  apply local_rbind; [apply local_method_join | intros; exact I].
Qed.

Lemma local_viewport_segment bbox center zoom : local (viewport_segment bbox center zoom).
Proof.
  unfold viewport_segment.
  destruct (truthy bbox);
    [apply local_rbind; [apply local_method_join | intros; exact I] |].
  destruct (truthy center && _); [| exact I].
  apply local_rbind; [apply local_method_join | intros c].
  apply local_rbind; [apply local_to_string | intros; exact I].
Qed.

Lemma local_pin label color coord : local (pin label color coord).
Proof.
  unfold pin; apply local_rbind; [apply local_get | intros lon].
  repeat (apply local_rbind; [apply local_to_string | intros ?]); exact I.
Qed.

Lemma local_route_overlay route_polyline markers :
  local (route_overlay route_polyline markers).
Proof.
  unfold route_overlay; destruct (truthy _); [| exact I].
  apply local_rbind; [apply local_encodeURIComponent | intros; exact I].
Qed.

Lemma local_component index coordinates : local (component index coordinates).
Proof.
  unfold component; apply local_rbind; [| intros; apply local_iterate].
  apply local_method_map; intros; apply local_get.
Qed.

Lemma local_Math_min s2n l : local (Math_min s2n l).
Proof.
  unfold Math_min; apply local_rbind; [| intros; exact I].
  apply local_rmap, local_to_number.
Qed.

Lemma local_Math_max s2n l : local (Math_max s2n l).
Proof.
  unfold Math_max; apply local_rbind; [| intros; exact I].
  apply local_rmap, local_to_number.
Qed.

Lemma local_padded_box s2n limit lons lats :
  (forall m, allowed (RangeError m)) -> local (padded_box s2n limit lons lats).
Proof.
  intros range_errors.
  assert (S : forall l, local (spread limit l)).
  { intros l; unfold spread; destruct (_ <=? _)%N; [exact I | apply range_errors]. }
  unfold padded_box.
  repeat (apply local_rbind;
          [apply local_rbind;
           [apply S | intros; first [apply local_Math_min | apply local_Math_max]]
          | intros ?]).
  exact I.
Qed.

Lemma pure_lift {A} (r : result A) : local r -> pure allowed (lift r).
Proof. intros Hr tr; exists r; split; [reflexivity | exact Hr]. Qed.

Lemma pure_ret {A} (a : A) : pure allowed (ret a).
Proof. intros tr; exists (Ok a); split; [reflexivity | exact I]. Qed.

Lemma pure_bind {A B} (m : M A) (k : A -> M B) :
  pure allowed m -> (forall a, pure allowed (k a)) -> pure allowed (bind m k).
Proof.
  intros Hm Hk tr; destruct (Hm tr) as [r [E Hr]]; unfold bind; rewrite E.
  destruct r as [a | e]; [apply Hk |].
  exists (Throw e); split; [reflexivity | exact Hr].
Qed.

Create HintDb purity.

#[local] Hint Resolve pure_lift pure_ret local_request_arguments
  local_destructurable local_markers_segment local_viewport_segment local_get
  local_last_element local_pin local_component local_to_string local_route_overlay
  local_padded_box local_join_values : purity.

Lemma pure_get_static_image_try token s2n body :
  pure allowed (get_static_image_try token s2n body).
Proof.
  unfold get_static_image_try, get_static_image_with.
  repeat (apply pure_bind; [auto with purity | intros ?]); auto with purity.
Qed.

Lemma pure_get_route_map_try token s2n limit body :
  (forall m, allowed (RangeError m)) ->
  pure allowed (get_route_map_try token s2n limit body).
Proof.
  intros range_errors.
  unfold get_route_map_try, get_route_map_with.
  repeat (apply pure_bind; [auto with purity | intros ?]); auto with purity.
Qed.

End Locality.

Lemma static_image_is_pure token s2n body :
  pure type_error (get_static_image_try token s2n body).
Proof. apply pure_get_static_image_try; intros m; exists m; reflexivity. Qed.

Lemma route_map_is_pure token s2n limit body :
  pure language_error (get_route_map_try token s2n limit body).
Proof.
  apply pure_get_route_map_try; intros m; exists m; [left | right]; reflexivity.
Qed.

(** *** The terms of the specification *)

(** The error text the specification asks for: the [message] field of the
    upstream error response when there is one, the message of the exception
    otherwise.  A field counts as present when it is truthy. *)
Definition reported_error (e : exn) : value :=
  match e with
  | AxiosError m (Some (_, data)) =>
      if truthy (member data "message") then member data "message" else VStr m
  | AxiosError m None => VStr m
  | TypeError m => VStr m
  | RangeError m => VStr m
  end.

(** Two objects that differ at most in the value under [geometries]. *)
Definition field_variant (kv1 kv2 : string * value) : Prop :=
  fst kv1 = fst kv2 /\ (snd kv1 = snd kv2 \/ fst kv1 = "geometries").

Definition object_variant (a b : value) : Prop :=
  exists fs1 fs2, a = VObj fs1 /\ b = VObj fs2 /\ Forall2 field_variant fs1 fs2.

(** Two bodies that differ at most in the value of [geometries], given at
    the top level or inside [arguments]. *)
Definition nested_variant (kv1 kv2 : string * value) : Prop :=
  fst kv1 = fst kv2
  /\ (snd kv1 = snd kv2
      \/ (fst kv1 = "arguments" /\ object_variant (snd kv1) (snd kv2))).

Definition body_variant (b1 b2 : value) : Prop :=
  object_variant b1 b2
  \/ exists fs1 fs2, b1 = VObj fs1 /\ b2 = VObj fs2 /\ Forall2 nested_variant fs1 fs2.

(** The [get_directions] entry of the [tools] catalog, lines 83-126. *)
Definition get_directions_tool : value :=
  VObj [("name", VStr "get_directions");
        ("description", VStr "Get directions between multiple waypoints");
        ("inputSchema",
         VObj [("type", VStr "object");
               ("properties",
                VObj [("coordinates",
                       VObj [("type", VStr "array");
                             ("items",
                              VObj [("type", VStr "array");
                                    ("items", VObj [("type", VStr "number")]);
                                    ("minItems", VNum 2);
                                    ("maxItems", VNum 2)]);
                             ("minItems", VNum 2);
                             ("description",
                              VStr "Array of [longitude, latitude] coordinate pairs")]);
                      ("profile",
                       VObj [("type", VStr "string");
                             ("enum", VArr [VStr "driving"; VStr "walking";
                                            VStr "cycling"; VStr "driving-traffic"]);
                             ("default", VStr "driving");
                             ("description", VStr "Routing profile")]);
                      ("geometries",
                       VObj [("type", VStr "string");
                             ("enum", VArr [VStr "geojson"; VStr "polyline";
                                            VStr "polyline6"]);
                             ("default", VStr "geojson");
                             ("description", VStr "Response geometry format")]);
                      ("steps",
                       VObj [("type", VStr "boolean");
                             ("default", VBool true);
                             ("description", VStr "Include turn-by-turn instructions")]);
                      ("overview",
                       VObj [("type", VStr "string");
                             ("enum", VArr [VStr "full"; VStr "simplified"; VStr "false"]);
                             ("default", VStr "full");
                             ("description", VStr "Type of route geometry overview")])]);
               ("required", VArr [VStr "coordinates"])])].

(** An array of numbers, as the request carries a coordinate pair, a
    bounding box or a list of indices. *)
Definition numbers (xs : list float) : value := VArr (map VNum xs).

(** The numbers as JavaScript prints them, joined by [sep]. *)
Definition numbers_text (sep : string) (xs : list float) : string :=
  join_strings sep (map number_to_string xs).

(** The text of a list of coordinate arrays: each joined by commas, the
    whole by semicolons. *)
Definition coordinate_text (coordinates : list (list float)) : string :=
  join_strings ";" (map (numbers_text ",") coordinates).

(** An optional field of a marker: left out, or given a truthy primitive
    value, as any non-empty string is. *)
Definition optional_text (v : value) : Prop :=
  primitive v /\ (v = VUndef \/ truthy v = true).

Definition well_formed_marker (marker : value) : Prop :=
  exists fs, marker = VObj fs
             /\ optional_text (assoc "size" fs)
             /\ optional_text (assoc "label" fs)
             /\ optional_text (assoc "color" fs)
             /\ primitive (assoc "longitude" fs)
             /\ primitive (assoc "latitude" fs).

(** The marker syntax in the specification's words:
    [pin-{size}[-{label}]+{color}({lon},{lat})], size and color defaulting
    to small and red when left out, the label part only for a marker that
    has a label. *)
Definition pin_token (marker : value) : string :=
  "pin-"
  ++ match member marker "size" with
     | VUndef => "small"
     | size => text size
     end
  ++ match member marker "label" with
     | VUndef => ""
     | label => "-" ++ text label
     end
  ++ "+"
  ++ match member marker "color" with
     | VUndef => "red"
     | color => text color
     end
  ++ "(" ++ text (member marker "longitude") ++ ","
  ++ text (member marker "latitude") ++ ")".

(** A coordinate pair as the request carries it. *)
Definition pair_value (p : float * float) : value := VArr [VNum (fst p); VNum (snd p)].

(** The pin of the route map at a coordinate pair. *)
Definition pin_text (label color : string) (p : float * float) : string :=
  "pin-s-" ++ label ++ "+" ++ color ++ "(" ++ number_to_string (fst p) ++ ","
  ++ number_to_string (snd p) ++ ")".

(** The box of the specification: the least and greatest longitude and
    latitude, each moved outwards by a tenth of the spread. *)
Definition expanded (minLon minLat maxLon maxLat : float) : list float :=
  [(minLon - 0.1 * (maxLon - minLon))%float;
   (minLat - 0.1 * (maxLat - minLat))%float;
   (maxLon + 0.1 * (maxLon - minLon))%float;
   (maxLat + 0.1 * (maxLat - minLat))%float].

(** The two URLs of [get_directions]: the route they share, then the
    query string of each. *)
Definition directions_route (args : value) (coordinates : list (list float)) : string :=
  "https://api.mapbox.com/directions/v5/mapbox/"
  ++ text (default_to (VStr "driving") (member args "profile"))
  ++ "/" ++ coordinate_text coordinates.

Definition primary_request (token : string) (args : value)
    (coordinates : list (list float)) : request :=
  Get (directions_route args coordinates
       ++ "?access_token=" ++ form_encode token
       ++ "&geometries=geojson&steps="
       ++ form_encode (text (default_to (VBool true) (member args "steps")))
       ++ "&overview="
       ++ form_encode (text (default_to (VStr "full") (member args "overview")))).

Definition secondary_request (token : string) (args : value)
    (coordinates : list (list float)) : request :=
  Get (directions_route args coordinates
       ++ "?access_token=" ++ form_encode token
       ++ "&geometries=polyline&steps=false&overview=full").

(** *** Facts about the handlers' parts *)

Lemma lift_bind {A B} (r : result A) (k : A -> M B) (tr : trace) :
  bind (lift r) k tr = match r with
                       | Ok a => k a tr
                       | Throw e => (tr, Throw e)
                       end.
Proof. destruct r; reflexivity. Qed.

Lemma append_nil_r (s : string) : s ++ "" = s.
Proof. induction s as [| c s IH]; simpl; [reflexivity | rewrite IH; reflexivity]. Qed.

(** The query string of a list of parameters, one parameter at a time. *)
Lemma URLSearchParams_cons k v params :
  URLSearchParams ((k, v) :: params)
  = form_encode k ++ "=" ++ form_encode v
    ++ match params with
       | [] => ""
       | _ => "&" ++ URLSearchParams params
       end.
Proof.
  unfold URLSearchParams; destruct params as [| p params]; cbn [map join_strings fst snd].
  - rewrite append_nil_r; reflexivity.
  - rewrite !append_assoc; reflexivity.
Qed.

Lemma primitive_default d v : primitive d -> primitive v -> primitive (default_to d v).
Proof. intros Hd Hv; destruct v; assumption. Qed.

Lemma default_not_null d v :
  d <> VUndef -> d <> VNull -> v <> VNull -> is_nullish (default_to d v) = false.
Proof. intros Hu Hn Hv; destruct v; try reflexivity; [destruct d |]; simpl; congruence. Qed.

Lemma request_arguments_truthy body A :
  member body "arguments" = A -> truthy A = true -> request_arguments body = Ok A.
Proof.
  intros HA Ht; unfold request_arguments, get.
  destruct (is_nullish body) eqn:N.
  - destruct body; try discriminate; simpl in HA; subst A; discriminate.
  - simpl; unfold or_else; rewrite HA, Ht; reflexivity.
Qed.

Lemma request_arguments_falsy body :
  is_nullish body = false -> truthy (member body "arguments") = false ->
  request_arguments body = Ok body.
Proof.
  intros N Hf; unfold request_arguments, get; rewrite N; simpl.
  unfold or_else; rewrite Hf; reflexivity.
Qed.

Lemma request_arguments_defined body args :
  request_arguments body = Ok args -> is_nullish args = false.
Proof.
  unfold request_arguments, get; destruct (is_nullish body) eqn:N; [discriminate |].
  simpl; unfold or_else; destruct (truthy (member body "arguments")) eqn:T;
    intros H; inversion H; subst; [apply truthy_not_nullish |]; assumption.
Qed.

Lemma assoc_field_variant fs1 fs2 k :
  Forall2 field_variant fs1 fs2 -> k <> "geometries" -> assoc k fs1 = assoc k fs2.
Proof.
  intros H Hk; induction H as [| [k1 v1] [k2 v2] l1 l2 [Hfst Hsnd] _ IH]; [reflexivity |].
  simpl in *; subst k2.
  destruct (k =? k1) eqn:E; [| exact IH].
  apply String.eqb_eq in E; subst k1.
  destruct Hsnd as [-> | ->]; [reflexivity | contradiction].
Qed.

Lemma method_join_numbers expr xs sep :
  method_join expr (numbers xs) sep = Ok (numbers_text sep xs).
Proof. apply join_numbers. Qed.

Lemma coordinate_string_numbers coordinates :
  coordinate_string (VArr (map numbers coordinates)) = Ok (coordinate_text coordinates).
Proof.
  unfold coordinate_string, method_map.
  rewrite (rmap_ok _ (fun c => VStr (match c with
                                    | VArr l => join_strings "," (map text l)
                                    | _ => ""
                                    end))).
  - cbn [rbind method_join]; rewrite map_map.
    assert (E : map (fun c => VStr (join_strings "," (map text (map VNum c)))) coordinates
                = map VStr (map (numbers_text ",") coordinates)).
    { rewrite map_map; apply map_ext; intros c; unfold numbers_text; rewrite map_map.
      reflexivity. }
    unfold numbers at 1; cbv beta; rewrite E; apply join_texts.
  - intros a Ha; apply in_map_iff in Ha; destruct Ha as [c [<- _]].
    rewrite method_join_numbers; cbn [rbind]; unfold numbers, numbers_text.
    rewrite map_map; reflexivity.
Qed.

(** Two parallel calls: both are recorded, in the order they are started,
    however they end. *)
Lemma parallel_calls_trace (w : world) (sf : bool) (r1 r2 : request)
    (k : value * value -> result response) (catch : exn -> response) :
  map fst (fst (handle (bind (axios_all2 w sf r1 r2) (fun gp => lift (k gp))) catch))
  = [r1; r2].
Proof.
  unfold handle, bind, lift, axios_all2; simpl.
  destruct (settle (w [] r1)), (settle (w _ r2)); simpl;
    try destruct (k _); reflexivity.
Qed.

Lemma parallel_calls_answered (w : world) (sf : bool) (r1 r2 : request)
    (k : value * value -> result response) (catch : exn -> response) d1 d2 :
  w [] r1 = Answered d1 ->
  w [(r1, Answered d1)] r2 = Answered d2 ->
  snd (handle (bind (axios_all2 w sf r1 r2) (fun gp => lift (k gp))) catch)
  = match k (d1, d2) with
    | Ok r => r
    | Throw e => catch e
    end.
Proof.
  intros A1 A2; unfold handle, bind, lift, axios_all2; simpl.
  rewrite A1; simpl; rewrite A2; simpl; destruct (k (d1, d2)); reflexivity.
Qed.

Lemma optional_text_or_else v d :
  optional_text v ->
  or_else v (VStr d) = match v with VUndef => VStr d | _ => v end.
Proof.
  intros [_ [-> | Ht]]; [reflexivity |].
  unfold or_else; rewrite Ht; destruct v; try reflexivity; discriminate.
Qed.

Lemma optional_text_truthy v :
  optional_text v -> truthy v = match v with VUndef => false | _ => true end.
Proof.
  intros [_ [-> | Ht]]; [reflexivity |]; rewrite Ht; destruct v; try reflexivity;
    discriminate.
Qed.

Lemma marker_token_well_formed marker :
  well_formed_marker marker -> marker_token marker = Ok (VStr (pin_token marker)).
Proof.
  intros [fs [-> [Hsize [Hlabel [Hcolor [Hlon Hlat]]]]]].
  unfold marker_token, pin_token; rewrite get_object; cbn [rbind member].
  rewrite (optional_text_or_else _ "small" Hsize),
          (optional_text_or_else _ "red" Hcolor),
          (optional_text_truthy _ Hlabel).
  rewrite (to_string_primitive _ Hlon), (to_string_primitive _ Hlat).
  destruct Hsize as [Psize _], Hlabel as [Plabel _], Hcolor as [Pcolor _].
  destruct (assoc "size" fs) as [| | [|] | ? | ? | ? | ?]; try destruct Psize;
    destruct (assoc "label" fs) as [| | [|] | ? | ? | ? | ?]; try destruct Plabel;
    destruct (assoc "color" fs) as [| | [|] | ? | ? | ? | ?]; try destruct Pcolor;
    cbn [to_string rbind text]; rewrite ?append_assoc; reflexivity.
Qed.

Lemma markers_segment_well_formed s2n first rest :
  Forall well_formed_marker (first :: rest) ->
  markers_segment s2n (VArr (first :: rest))
  = Ok ("/" ++ join_strings "," (map pin_token (first :: rest))).
Proof.
  intros H; unfold markers_segment, length_positive, method_map.
  cbn [List.length Nat.eqb negb rbind].
  rewrite (rmap_ok _ (fun m => VStr (pin_token m))).
  - cbn [rbind method_join]; rewrite <- map_map, join_texts; reflexivity.
  - intros m Hm; apply marker_token_well_formed.
    rewrite Forall_forall in H; apply H; exact Hm.
Qed.

Lemma pin_pair label color p :
  pin label color (pair_value p) = Ok (pin_text label color p).
Proof. unfold pin, pair_value; rewrite get_first, member_second; reflexivity. Qed.

Lemma component_first pairs :
  component "0" (VArr (map pair_value pairs)) = Ok (map (fun p => VNum (fst p)) pairs).
Proof.
  unfold component, method_map.
  rewrite (rmap_ok _ (fun c => member c "0")).
  - cbn [rbind iterate]; rewrite map_map; reflexivity.
  - intros a Ha; apply in_map_iff in Ha; destruct Ha as [p [<- _]]; reflexivity.
Qed.

Lemma component_second pairs :
  component "1" (VArr (map pair_value pairs)) = Ok (map (fun p => VNum (snd p)) pairs).
Proof.
  unfold component, method_map.
  rewrite (rmap_ok _ (fun c => member c "1")).
  - cbn [rbind iterate]; rewrite map_map; reflexivity.
  - intros a Ha; apply in_map_iff in Ha; destruct Ha as [p [<- _]]; reflexivity.
Qed.

Lemma numbers_coerced s2n (xs : list float) :
  rmap (to_number s2n) (map VNum xs) = Ok xs.
Proof.
  induction xs as [| x xs IH]; [reflexivity |].
  cbn [map rmap to_number rbind]; rewrite IH; reflexivity.
Qed.

Lemma spread_short limit (l : list value) :
  (N.of_nat (List.length l) <= limit)%N -> spread limit l = Ok l.
Proof. intros H; unfold spread; apply N.leb_le in H; rewrite H; reflexivity. Qed.

Lemma spread_long limit (l : list value) :
  (limit < N.of_nat (List.length l))%N ->
  spread limit l = Throw (RangeError "Maximum call stack size exceeded").
Proof. intros H; unfold spread; apply N.leb_gt in H; rewrite H; reflexivity. Qed.

Lemma padded_box_expanded s2n limit (pairs : list (float * float)) :
  (N.of_nat (List.length pairs) <= limit)%N ->
  padded_box s2n limit (map (fun p => VNum (fst p)) pairs)
    (map (fun p => VNum (snd p)) pairs)
  = Ok (expanded (min_from PrimFloat.infinity (map fst pairs))
                 (min_from PrimFloat.infinity (map snd pairs))
                 (max_from PrimFloat.neg_infinity (map fst pairs))
                 (max_from PrimFloat.neg_infinity (map snd pairs))).
Proof.
  intros H; unfold padded_box, expanded, Math_min, Math_max.
  rewrite !spread_short by (rewrite length_map; exact H).
  rewrite <- (map_map fst VNum), <- (map_map snd VNum); cbn [rbind].
  rewrite !numbers_coerced; cbn [rbind].
  rewrite !(float_mul_comm 0.1); reflexivity.
Qed.

(** The URL both [get_static_image] and [get_route_map] end with. *)
Lemma token_parameter token :
  URLSearchParams [("access_token", token)] = "access_token=" ++ form_encode token.
Proof. reflexivity. Qed.

Lemma directions_url_primary profile route token steps overview :
  directions_url profile route
    [("access_token", token); ("geometries", "geojson"); ("steps", steps);
     ("overview", overview)]
  = "https://api.mapbox.com/directions/v5/mapbox/" ++ profile ++ "/" ++ route
    ++ "?access_token=" ++ form_encode token ++ "&geometries=geojson&steps="
    ++ form_encode steps ++ "&overview=" ++ form_encode overview.
Proof.
  unfold directions_url; rewrite !URLSearchParams_cons, append_nil_r, ?append_assoc.
  reflexivity.
Qed.

Lemma directions_url_secondary profile route token :
  directions_url profile route
    [("access_token", token); ("geometries", "polyline"); ("steps", "false");
     ("overview", "full")]
  = "https://api.mapbox.com/directions/v5/mapbox/" ++ profile ++ "/" ++ route
    ++ "?access_token=" ++ form_encode token
    ++ "&geometries=polyline&steps=false&overview=full".
Proof.
  unfold directions_url; rewrite !URLSearchParams_cons, append_nil_r, ?append_assoc.
  reflexivity.
Qed.

Section Properties.

Variable token : string.
Variable s2n : string -> float.
Variable max_arguments : N.
Variable w : world.
Variable sf : bool.

Lemma handler_unfold ep body :
  handler token s2n max_arguments w sf ep body =
  handle (args <- lift (request_arguments body) ;;
          try_with token s2n max_arguments w sf ep args)
         (catch_block ep).
Proof. destruct ep; reflexivity. Qed.

Lemma handler_on ep body args :
  request_arguments body = Ok args ->
  handler token s2n max_arguments w sf ep body =
  handle (try_with token s2n max_arguments w sf ep args) (catch_block ep).
Proof. intros H; rewrite handler_unfold; unfold handle, bind, lift; rewrite H; reflexivity. Qed.

(** C7.  Whatever the [try] block of a gateway endpoint throws, the handler
    answers 500 with exactly [{success: false, error}], where [error] is the
    message of the upstream error response when it has one and the message
    of the exception otherwise.  The two endpoints that make no outbound
    call only ever throw errors of the language, which carry no upstream
    response: [TypeError]s, and for [get_route_map] the [RangeError] of a
    spread that is too long. *)
Theorem failure_answers_500 (ep : endpoint) (body : value) (tr : trace) (e : exn) :
  try_block token s2n max_arguments w sf ep body [] = (tr, Throw e) ->
  handler token s2n max_arguments w sf ep body =
    (tr, {| status := 500%N;
            body := VObj [("success", VBool false); ("error", reported_error e)] |})
  /\ (match ep with
      | GetStaticImage => tr = [] /\ exists m, e = TypeError m
      | GetRouteMap => tr = [] /\ exists m, e = TypeError m \/ e = RangeError m
      | _ => True
      end).
Proof.
  intros H.
  assert (R : or_else (upstream_message e) (VStr (message e)) = reported_error e).
  { destruct e as [m | m | m [[st data] |]]; reflexivity. }
  destruct ep; simpl in *;
    unfold geocode_forward, geocode_reverse, get_directions, get_static_image,
      get_route_map, get_matrix, handle; rewrite H;
    try (split; [unfold upstream_failure, json; rewrite R; reflexivity | exact I]).
  - destruct (static_image_is_pure token s2n body []) as [r [E Hr]].
    rewrite E in H; inversion H; subst.
    destruct Hr as [m ->]; split; [reflexivity | split; [reflexivity |]].
    exists m; reflexivity.
  - destruct (route_map_is_pure token s2n max_arguments body []) as [r [E Hr]].
    rewrite E in H; inversion H; subst.
    destruct Hr as [m Hm]; split; [| split; [reflexivity | exists m; exact Hm]].
    destruct Hm as [-> | ->]; reflexivity.
Qed.

(** C6, as amended.  Every gateway endpoint runs its [try] block on
    [body.arguments] when that is truthy, whatever else the body holds, and
    on the body itself otherwise; so a body [{arguments: A}] is handled
    exactly as the body [A], provided [A] has no truthy [arguments] member
    of its own. *)
Theorem arguments_take_precedence (ep : endpoint) (A : value) :
  truthy A = true ->
  (forall body, member body "arguments" = A ->
     handler token s2n max_arguments w sf ep body =
     handle (try_with token s2n max_arguments w sf ep A) (catch_block ep))
  /\ (truthy (member A "arguments") = false ->
      handler token s2n max_arguments w sf ep A =
      handle (try_with token s2n max_arguments w sf ep A) (catch_block ep)
      /\ handler token s2n max_arguments w sf ep (VObj [("arguments", A)]) =
         handler token s2n max_arguments w sf ep A).
Proof.
  intros Ht; split.
  - intros body HA; apply handler_on, request_arguments_truthy; assumption.
  - intros Hf.
    assert (E : handler token s2n max_arguments w sf ep A =
                handle (try_with token s2n max_arguments w sf ep A) (catch_block ep)).
    { apply handler_on, request_arguments_falsy;
        [apply truthy_not_nullish |]; assumption. }
    split; [exact E |].
    rewrite E; apply handler_on, request_arguments_truthy; [reflexivity | exact Ht].
Qed.

Lemma get_directions_with_members fs1 fs2 :
  (forall k, k <> "geometries" -> assoc k fs1 = assoc k fs2) ->
  get_directions_with token w sf (VObj fs1) = get_directions_with token w sf (VObj fs2).
Proof.
  intros H; unfold get_directions_with; cbn [member].
  rewrite !H by discriminate; reflexivity.
Qed.

Lemma get_directions_object_variant a b :
  object_variant a b ->
  get_directions_with token w sf a = get_directions_with token w sf b.
Proof.
  intros [fs1 [fs2 [-> [-> H]]]]; apply get_directions_with_members.
  intros k Hk; apply assoc_field_variant; assumption.
Qed.

(** C10.  Two [get_directions] bodies that differ only in the value of
    [geometries] (at the top level or inside [arguments]) produce the same
    outbound calls and the same response, although the catalog advertises
    [geometries] as an input with the values geojson, polyline and
    polyline6. *)
Theorem geometries_is_ignored (b1 b2 : value) :
  body_variant b1 b2 ->
  get_directions token w sf b1 = get_directions token w sf b2
  /\ member (member (member (member get_directions_tool "inputSchema") "properties")
                    "geometries") "enum"
     = VArr [VStr "geojson"; VStr "polyline"; VStr "polyline6"].
Proof.
  intros H; split; [| reflexivity].
  unfold get_directions; f_equal.
  unfold get_directions_try, request_arguments, get.
  destruct H as [H | [fs1 [fs2 [-> [-> H]]]]].
  - pose proof (get_directions_object_variant _ _ H) as E.
    destruct H as [fs1 [fs2 [-> [-> H]]]]; simpl.
    rewrite (assoc_field_variant fs1 fs2 "arguments" H) by discriminate.
    unfold or_else; destruct (truthy (assoc "arguments" fs2));
      unfold bind, lift; [reflexivity | rewrite E; reflexivity].
  - simpl.
    assert (M : forall k, k <> "arguments" -> assoc k fs1 = assoc k fs2).
    { intros k Hk; induction H as [| [k1 v1] [k2 v2] l1 l2 [Hfst Hsnd] _ IH];
        [reflexivity |].
      simpl in *; subst k2; destruct (k =? k1) eqn:E; [| exact IH].
      apply String.eqb_eq in E; subst k1.
      destruct Hsnd as [-> | [-> _]]; [reflexivity | contradiction]. }
    assert (A : assoc "arguments" fs1 = assoc "arguments" fs2
                \/ object_variant (assoc "arguments" fs1) (assoc "arguments" fs2)).
    { clear M; induction H as [| [k1 v1] [k2 v2] l1 l2 [Hfst Hsnd] _ IH];
        [left; reflexivity |].
      cbn [assoc fst snd] in *; subst k2; destruct ("arguments" =? k1) eqn:E;
        [| exact IH].
      destruct Hsnd as [-> | [_ Hv]]; [left; reflexivity | right; exact Hv]. }
    destruct A as [A | A].
    + rewrite A; unfold or_else; destruct (truthy (assoc "arguments" fs2));
        unfold bind, lift; [reflexivity |].
      rewrite (get_directions_with_members fs1 fs2); [reflexivity |].
      intros k Hk; destruct (string_dec k "arguments") as [-> | Hn];
        [exact A | apply M; exact Hn].
    + pose proof (get_directions_object_variant _ _ A) as E.
      destruct A as [g1 [g2 [A1 [A2 _]]]]; rewrite A1, A2 in *.
      unfold or_else, bind, lift; simpl; rewrite E; reflexivity.
Qed.

(** With numeric coordinates and printable options [get_directions] comes
    down to its two parallel calls and the merging of their answers. *)
Lemma get_directions_runs body args coordinates :
  request_arguments body = Ok args ->
  member args "coordinates" = VArr (map numbers coordinates) ->
  primitive (member args "profile") ->
  primitive (member args "steps") ->
  member args "steps" <> VNull ->
  primitive (member args "overview") ->
  get_directions token w sf body
  = handle (bind (axios_all2 w sf (primary_request token args coordinates)
                    (secondary_request token args coordinates))
              (fun gp => lift (directions_result (fst gp) (snd gp))))
      upstream_failure.
Proof.
  intros Hargs Hc Hp Hs Hn Ho.
  unfold get_directions, get_directions_try; unfold handle at 1.
  rewrite lift_bind, Hargs.
  unfold get_directions_with, destructurable.
  rewrite (request_arguments_defined _ _ Hargs), !lift_bind, Hc.
  rewrite coordinate_string_numbers, lift_bind.
  rewrite (to_string_primitive _ (primitive_default (VStr "driving") _ I Hp)), lift_bind.
  rewrite (method_toString_primitive "steps" _ (primitive_default (VBool true) _ I Hs)
             (default_not_null (VBool true) _ ltac:(discriminate) ltac:(discriminate) Hn)).
  rewrite lift_bind.
  rewrite (to_string_primitive _ (primitive_default (VStr "full") _ I Ho)).
  rewrite directions_url_primary, directions_url_secondary.
  unfold primary_request, secondary_request, directions_route; rewrite !append_assoc.
  unfold handle, bind, lift.
  destruct (axios_all2 _ _ _ _ _) as [tr [[g p] | e]]; reflexivity.
Qed.

(** C1.  With [coordinates] a list of arrays of numbers and [profile],
    [steps] and [overview] left out or given as strings, booleans or
    numbers, [get_directions] issues exactly two GETs, both started
    whatever the first one returns: the primary URL carries the request's
    [profile], [steps] and [overview] (defaults driving, true, full) with
    [geometries=geojson]; the secondary one the same profile and coordinate
    string with [geometries=polyline], [steps=false], [overview=full].  When
    both answer with JSON objects the response is 200 with [success], and
    [routes], [waypoints] and [code] copied from the primary answer,
    followed by [polyline], the geometry of the first route of the
    secondary answer, exactly when that answer holds a route; with no routes
    there is no [polyline] field. *)
Theorem get_directions_two_calls (body args : value) (coordinates : list (list float)) :
  request_arguments body = Ok args ->
  member args "coordinates" = VArr (map numbers coordinates) ->
  primitive (member args "profile") ->
  primitive (member args "steps") ->
  member args "steps" <> VNull ->
  primitive (member args "overview") ->
  let profile := default_to (VStr "driving") (member args "profile") in
  let steps := default_to (VBool true) (member args "steps") in
  let overview := default_to (VStr "full") (member args "overview") in
  let route := "https://api.mapbox.com/directions/v5/mapbox/" ++ text profile
               ++ "/" ++ coordinate_text coordinates in
  let primary := Get (route ++ "?access_token=" ++ form_encode token
                      ++ "&geometries=geojson&steps=" ++ form_encode (text steps)
                      ++ "&overview=" ++ form_encode (text overview)) in
  let secondary := Get (route ++ "?access_token=" ++ form_encode token
                        ++ "&geometries=polyline&steps=false&overview=full") in
  map fst (fst (get_directions token w sf body)) = [primary; secondary]
  /\ forall f1 f2,
       w [] primary = Answered (VObj f1) ->
       w [(primary, Answered (VObj f1))] secondary = Answered (VObj f2) ->
       let copied := [("success", VBool true);
                      ("routes", assoc "routes" f1);
                      ("waypoints", assoc "waypoints" f1);
                      ("code", assoc "code" f1)] in
       (forall first rest,
          assoc "routes" f2 = VArr (first :: rest) -> truthy first = true ->
          snd (get_directions token w sf body) =
            {| status := 200%N;
               body := VObj (copied ++ [("polyline", member first "geometry")]) |})
       /\ (assoc "routes" f2 = VArr [] \/ truthy (assoc "routes" f2) = false ->
           snd (get_directions token w sf body) =
             {| status := 200%N; body := VObj copied |}).
Proof.
  intros Hargs Hc Hp Hs Hn Ho profile steps overview route primary secondary.
  rewrite (get_directions_runs body args coordinates Hargs Hc Hp Hs Hn Ho).
  change (primary_request token args coordinates) with primary.
  change (secondary_request token args coordinates) with secondary.
  split.
  - apply parallel_calls_trace.
  - intros f1 f2 A1 A2 copied.
    rewrite (parallel_calls_answered _ _ _ _ _ _ _ _ A1 A2).
    cbn [fst snd]; unfold directions_result.
    rewrite !get_object; cbn [rbind member]; fold copied; split.
    + intros first rest Hr Ht; rewrite Hr.
      cbn [truthy]; rewrite get_first; cbn [rbind]; rewrite Ht; reflexivity.
    + intros [Hr | Hr]; rewrite Hr; reflexivity.
Qed.

(** What [get_static_image] answers for given URL segments. *)
Definition static_image (args : value) (markers_part viewport_part : string)
  : trace * response :=
  let style := default_to (VStr "mapbox/streets-v12") (member args "style") in
  let width := default_to (VNum 600) (member args "width") in
  let height := default_to (VNum 400) (member args "height") in
  ([], {| status := 200%N;
          body := VObj [("success", VBool true);
                        ("image_url",
                         VStr ("https://api.mapbox.com/styles/v1/" ++ text style
                               ++ "/static" ++ markers_part ++ viewport_part
                               ++ "/" ++ text width ++ "x" ++ text height
                               ++ "?access_token=" ++ form_encode token));
                        ("width", width);
                        ("height", height)] |}).

Lemma get_static_image_segments body args markers_part viewport_part :
  request_arguments body = Ok args ->
  primitive (member args "style") ->
  primitive (member args "width") ->
  primitive (member args "height") ->
  markers_segment s2n (default_to (VArr []) (member args "markers")) = Ok markers_part ->
  viewport_segment (member args "bbox") (member args "center") (member args "zoom")
  = Ok viewport_part ->
  get_static_image token s2n body = static_image args markers_part viewport_part.
Proof.
  intros Hargs Hs Hw Hh Hm Hv.
  unfold get_static_image, handle, get_static_image_try.
  rewrite lift_bind, Hargs.
  unfold get_static_image_with, destructurable.
  rewrite (request_arguments_defined _ _ Hargs), !lift_bind.
  rewrite (to_string_primitive _ (primitive_default (VStr "mapbox/streets-v12") _ I Hs)).
  rewrite lift_bind, Hm, lift_bind, Hv, lift_bind.
  rewrite (to_string_primitive _ (primitive_default (VNum 600) _ I Hw)), lift_bind.
  rewrite (to_string_primitive _ (primitive_default (VNum 400) _ I Hh)).
  unfold ret, static_image; rewrite token_parameter, !append_assoc; reflexivity.
Qed.

(** C4.  In the URL of [get_static_image], for [style], [width] and
    [height] left out or given as strings or numbers, the viewport segment,
    which follows the markers and precedes [{width}x{height}], is [[bbox]]
    joined by commas whenever [bbox], an array of numbers, is given,
    whatever [center] and [zoom] are; without [bbox], it is [center] joined
    by commas, a comma and [zoom] when [center] is given and [zoom] is
    defined; and it is skipped when [bbox] is missing and [center] or
    [zoom] is. *)
Theorem static_image_viewport (body args : value) (markers_part : string) :
  request_arguments body = Ok args ->
  primitive (member args "style") ->
  primitive (member args "width") ->
  primitive (member args "height") ->
  markers_segment s2n (default_to (VArr []) (member args "markers")) = Ok markers_part ->
  (forall bbox,
     member args "bbox" = numbers bbox ->
     get_static_image token s2n body
     = static_image args markers_part
         ("/[" ++ join_strings "," (map number_to_string bbox) ++ "]"))
  /\ (forall center,
        truthy (member args "bbox") = false ->
        member args "center" = numbers center ->
        member args "zoom" <> VUndef ->
        primitive (member args "zoom") ->
        get_static_image token s2n body
        = static_image args markers_part
            ("/" ++ join_strings "," (map number_to_string center) ++ ","
             ++ text (member args "zoom")))
  /\ (truthy (member args "bbox") = false ->
      truthy (member args "center") = false \/ member args "zoom" = VUndef ->
      get_static_image token s2n body = static_image args markers_part "").
Proof.
  intros Hargs Hs Hw Hh Hm; repeat split.
  - intros bbox Hb; apply get_static_image_segments; try assumption.
    unfold viewport_segment; rewrite Hb; cbn [numbers truthy].
    rewrite (method_join_numbers "bbox" bbox ","); reflexivity.
  - intros center Hb Hc Hz Hp; apply get_static_image_segments; try assumption.
    unfold viewport_segment; rewrite Hb, Hc; cbn [numbers truthy].
    rewrite (method_join_numbers "center" center ","); cbn [rbind].
    rewrite (to_string_primitive _ Hp).
    destruct (member args "zoom"); try reflexivity; contradiction.
  - intros Hb Hcz; apply get_static_image_segments; try assumption.
    unfold viewport_segment; rewrite Hb.
    destruct Hcz as [-> | ->]; [reflexivity |].
    rewrite andb_false_r; reflexivity.
Qed.

(** C5.  A non-empty list of markers, each an object whose [size], [label]
    and [color] are left out or non-empty strings and whose [longitude] and
    [latitude] are numbers, adds to the URL of [get_static_image], right
    after [/static], one path segment: the markers' tokens
    [pin-{size}[-{label}]+{color}({longitude},{latitude})] joined by commas,
    with size small and color red when left out and the label part only for
    a marker with a label.  The marker
    [{longitude: -73.985, latitude: 40.758, color: "red", size: "small"}]
    gives the token [pin-small+red(-73.985,40.758)]. *)
Theorem static_image_markers (body args first : value) (rest : list value)
    (viewport_part : string) :
  request_arguments body = Ok args ->
  primitive (member args "style") ->
  primitive (member args "width") ->
  primitive (member args "height") ->
  member args "markers" = VArr (first :: rest) ->
  Forall well_formed_marker (first :: rest) ->
  viewport_segment (member args "bbox") (member args "center") (member args "zoom")
  = Ok viewport_part ->
  get_static_image token s2n body
  = static_image args ("/" ++ join_strings "," (map pin_token (first :: rest)))
      viewport_part
  /\ marker_token (VObj [("longitude", VNum (-73.985)); ("latitude", VNum 40.758);
                         ("color", VStr "red"); ("size", VStr "small")])
     = Ok (VStr "pin-small+red(-73.985,40.758)").
Proof.
  intros Hargs Hs Hw Hh Hm Hwf Hv; split; [| vm_compute; reflexivity].
  apply get_static_image_segments; try assumption.
  rewrite Hm; apply markers_segment_well_formed; exact Hwf.
Qed.

(** What [get_route_map] answers for a list of coordinate pairs that the
    engine can spread. *)
Definition route_map (args : value) (first : float * float)
    (rest : list (float * float)) : trace * response :=
  let lons := map fst (first :: rest) in
  let lats := map snd (first :: rest) in
  let box := expanded (min_from PrimFloat.infinity lons)
                      (min_from PrimFloat.infinity lats)
                      (max_from PrimFloat.neg_infinity lons)
                      (max_from PrimFloat.neg_infinity lats) in
  let final := last rest first in
  let style := default_to (VStr "mapbox/streets-v12") (member args "style") in
  let width := default_to (VNum 800) (member args "width") in
  let height := default_to (VNum 600) (member args "height") in
  let route_polyline := member args "route_polyline" in
  let pins := pin_text "a" "00ff00" first ++ "," ++ pin_text "b" "ff0000" final in
  let overlay :=
    if truthy route_polyline
    then "path-5+0080ff-0.75(" ++ uri_component (text route_polyline) ++ ")," ++ pins
    else pins in
  ([], {| status := 200;
          body := VObj [("success", VBool true);
                        ("image_url",
                         VStr ("https://api.mapbox.com/styles/v1/" ++ text style
                               ++ "/static/" ++ overlay
                               ++ "/[" ++ join_strings "," (map number_to_string box)
                               ++ "]/" ++ text width ++ "x" ++ text height
                               ++ "?access_token=" ++ form_encode token));
                        ("width", width);
                        ("height", height);
                        ("start_coordinates", pair_value first);
                        ("end_coordinates", pair_value final);
                        ("bounding_box", VArr (map VNum box))] |}).

Lemma get_route_map_runs body args first rest :
  request_arguments body = Ok args ->
  member args "coordinates" = VArr (map pair_value (first :: rest)) ->
  (N.of_nat (List.length (first :: rest)) <= max_arguments)%N ->
  primitive (member args "style") ->
  primitive (member args "width") ->
  primitive (member args "height") ->
  primitive (member args "route_polyline") ->
  get_route_map token s2n max_arguments body = route_map args first rest.
Proof.
  intros Hargs Hc Hl Hs Hw Hh Hr.
  unfold get_route_map, handle, get_route_map_try.
  rewrite lift_bind, Hargs.
  unfold get_route_map_with, destructurable.
  rewrite (request_arguments_defined _ _ Hargs), !lift_bind, Hc.
  rewrite (to_string_primitive _ (primitive_default (VStr "mapbox/streets-v12") _ I Hs)).
  rewrite lift_bind.
  change (get (VArr (map pair_value (first :: rest))) "0") with (Ok (pair_value first)).
  cbv beta iota; rewrite lift_bind; unfold last_element; rewrite last_map, lift_bind.
  rewrite !pin_pair, !lift_bind.
  assert (O : route_overlay (member args "route_polyline")
                (join_strings "," [pin_text "a" "00ff00" first;
                                   pin_text "b" "ff0000" (last rest first)])
              = Ok (if truthy (member args "route_polyline")
                    then "path-5+0080ff-0.75("
                         ++ uri_component (text (member args "route_polyline")) ++ "),"
                         ++ pin_text "a" "00ff00" first ++ ","
                         ++ pin_text "b" "ff0000" (last rest first)
                    else pin_text "a" "00ff00" first ++ ","
                         ++ pin_text "b" "ff0000" (last rest first))).
  { unfold route_overlay, encodeURIComponent; rewrite (to_string_primitive _ Hr).
    destruct (truthy _); cbn [rbind join_strings]; rewrite ?append_assoc; reflexivity. }
  rewrite O, lift_bind, component_first, lift_bind, component_second, lift_bind.
  rewrite (padded_box_expanded s2n max_arguments (first :: rest) Hl), lift_bind.
  rewrite join_numbers, lift_bind.
  rewrite (to_string_primitive _ (primitive_default (VNum 800) _ I Hw)), lift_bind.
  rewrite (to_string_primitive _ (primitive_default (VNum 600) _ I Hh)).
  unfold ret, route_map; rewrite token_parameter, !append_assoc; reflexivity.
Qed.


(** X2.  [geocode_reverse] with numeric [longitude] and [latitude] and no
    [types] makes exactly one GET; the path segment before [.json] is the
    longitude and the latitude as JavaScript prints them, joined by a comma. *)
Theorem geocode_reverse_path (body args : value) (lon lat : float) :
  request_arguments body = Ok args ->
  member args "longitude" = VNum lon ->
  member args "latitude" = VNum lat ->
  truthy (member args "types") = false ->
  map fst (fst (geocode_reverse token s2n w body))
  = [Get ("https://api.mapbox.com/geocoding/v5/mapbox.places/"
          ++ number_to_string lon ++ "," ++ number_to_string lat ++ ".json"
          ++ "?access_token=" ++ form_encode token)].
Proof.
  intros Hargs Hlon Hlat Ht.
  unfold geocode_reverse, handle, geocode_reverse_try.
  rewrite lift_bind, Hargs.
  unfold geocode_reverse_with, destructurable, some_types.
  rewrite (request_arguments_defined _ _ Hargs), Hlon, Hlat, Ht.
  unfold bind, lift, axios; cbn [to_string app]; rewrite token_parameter, !append_assoc.
  destruct (settle _) as [data | e]; [| reflexivity].
  destruct (geocoding_results data); reflexivity.
Qed.

End Properties.

(** *** Worked examples *)

Definition example_token : string := "pk.test".

(** No example below puts a string where a number is expected. *)
Definition no_strings : string -> float := fun _ => PrimFloat.nan.

(** An engine that lets a call take 65536 arguments. *)
Definition example_limit : N := 65536.

(** Mapbox rejecting the token. *)
Definition unauthorized : world :=
  fun _ _ => Failed "Request failed with status code 401"
               (Some (401%N, VObj [("message", VStr "Not Authorized - Invalid Token")])).

(** Mapbox answering the two calls of [get_directions]. *)
Definition routing : world :=
  fun tr _ =>
    match tr with
    | [] => Answered (VObj [("routes", VArr [VObj [("distance", VNum 1609.3)]]);
                            ("waypoints", VArr [VObj [("name", VStr "Broadway")]]);
                            ("code", VStr "Ok")])
    | _ => Answered (VObj [("routes", VArr [VObj [("geometry", VStr "_p~iF~ps|U_ulLnnqC")]]);
                           ("code", VStr "Ok")])
    end.

Definition paris : value := VObj [("query", VStr "Paris")].

Definition paris_or_rome : value :=
  VObj [("query", VStr "Paris"); ("arguments", VObj [("query", VStr "Rome")])].

Definition two_points : value :=
  VArr [VArr [VNum (-74); VNum 40]; VArr [VNum (-73); VNum 41]].

(** A walk between the two points, without steps. *)
Definition walk : value :=
  VObj [("coordinates", two_points);
        ("profile", VStr "walking");
        ("steps", VBool false);
        ("overview", VStr "simplified")].

Lemma failure_answers_500_witness :
  snd (handler example_token no_strings example_limit unauthorized false
         GeocodeForward paris)
  = {| status := 500;
       body := VObj [("success", VBool false);
                     ("error", VStr "Not Authorized - Invalid Token")] |}.
Proof.
  edestruct (failure_answers_500 example_token no_strings example_limit unauthorized
               false GeocodeForward paris) as [E _]; [vm_compute; reflexivity |].
  rewrite E; reflexivity.
Defined.

Lemma arguments_take_precedence_witness :
  handler example_token no_strings example_limit unauthorized false GeocodeForward
    (VObj [("arguments", paris)])
  = handler example_token no_strings example_limit unauthorized false GeocodeForward
      paris.
Proof.
  exact (proj2 (proj2 (arguments_take_precedence example_token no_strings example_limit
                         unauthorized false GeocodeForward paris eq_refl) eq_refl)).
Defined.

Lemma nested_arguments_differ :
  handler example_token no_strings example_limit unauthorized false GeocodeForward
    (VObj [("arguments", paris_or_rome)])
  <> handler example_token no_strings example_limit unauthorized false GeocodeForward
       paris_or_rome.
Proof.
  intros H; apply (f_equal (fun r => map fst (fst r))) in H.
  vm_compute in H; discriminate H.
Qed.

Lemma geometries_is_ignored_witness :
  get_directions example_token routing false
    (VObj [("coordinates", two_points); ("geometries", VStr "polyline")])
  = get_directions example_token routing false
      (VObj [("coordinates", two_points); ("geometries", VStr "polyline6")]).
Proof.
  apply geometries_is_ignored; left.
  exists [("coordinates", two_points); ("geometries", VStr "polyline")],
         [("coordinates", two_points); ("geometries", VStr "polyline6")].
  split; [reflexivity | split; [reflexivity |]].
  constructor; [split; [reflexivity | left; reflexivity] |].
  constructor; [split; [reflexivity | right; reflexivity] | constructor].
Defined.

Lemma get_directions_two_calls_witness :
  map fst (fst (get_directions example_token routing false walk))
  = [Get ("https://api.mapbox.com/directions/v5/mapbox/walking/-74,40;-73,41"
          ++ "?access_token=pk.test&geometries=geojson&steps=false&overview=simplified");
     Get ("https://api.mapbox.com/directions/v5/mapbox/walking/-74,40;-73,41"
          ++ "?access_token=pk.test&geometries=polyline&steps=false&overview=full")]
  /\ snd (get_directions example_token routing false walk)
     = {| status := 200;
          body := VObj [("success", VBool true);
                        ("routes", VArr [VObj [("distance", VNum 1609.3)]]);
                        ("waypoints", VArr [VObj [("name", VStr "Broadway")]]);
                        ("code", VStr "Ok");
                        ("polyline", VStr "_p~iF~ps|U_ulLnnqC")] |}.
Proof.
  destruct (get_directions_two_calls example_token routing false walk walk
              [[(-74)%float; 40%float]; [(-73)%float; 41%float]]
              eq_refl eq_refl I I ltac:(discriminate) I) as [T H].
  split; [rewrite T; vm_compute; reflexivity |].
  exact (proj1 (H _ _ eq_refl eq_refl) _ _ eq_refl eq_refl).
Defined.

Definition boxed_and_centred : value :=
  VObj [("bbox", VArr [VNum (-74.1); VNum 40.6; VNum (-73.8); VNum 40.9]);
        ("center", VArr [VNum (-73.98); VNum 40.75]);
        ("zoom", VNum 12)].

Definition times_square : value :=
  VObj [("longitude", VNum (-73.985)); ("latitude", VNum 40.758);
        ("color", VStr "red"); ("size", VStr "small")].

Definition labelled : value :=
  VObj [("longitude", VNum (-74)); ("latitude", VNum 40.7); ("label", VStr "a")].

Definition two_markers : value :=
  VObj [("markers", VArr [times_square; labelled]);
        ("center", VArr [VNum (-73.99); VNum 40.73]);
        ("zoom", VNum 12)].

Lemma static_image_viewport_witness :
  get_static_image example_token no_strings boxed_and_centred
  = ([], {| status := 200;
            body := VObj [("success", VBool true);
                          ("image_url",
                           VStr ("https://api.mapbox.com/styles/v1/mapbox/streets-v12/static"
                                 ++ "/[-74.1,40.6,-73.8,40.9]"
                                 ++ "/600x400?access_token=pk.test"));
                          ("width", VNum 600);
                          ("height", VNum 400)] |}).
Proof.
  rewrite (proj1 (static_image_viewport example_token no_strings boxed_and_centred
                    boxed_and_centred "" eq_refl I I I eq_refl)
             [(-74.1)%float; 40.6%float; (-73.8)%float; 40.9%float] eq_refl).
  vm_compute; reflexivity.
Defined.

Lemma static_image_markers_witness :
  get_static_image example_token no_strings two_markers
  = ([], {| status := 200;
            body := VObj [("success", VBool true);
                          ("image_url",
                           VStr ("https://api.mapbox.com/styles/v1/mapbox/streets-v12/static"
                                 ++ "/pin-small+red(-73.985,40.758),pin-small-a+red(-74,40.7)"
                                 ++ "/-73.99,40.73,12"
                                 ++ "/600x400?access_token=pk.test"));
                          ("width", VNum 600);
                          ("height", VNum 400)] |}).
Proof.
  assert (W : Forall well_formed_marker [times_square; labelled]).
  { constructor; [| constructor; [| constructor]];
      eexists; (split; [reflexivity |]); vm_compute;
      repeat split; solve [left; reflexivity | right; reflexivity]. }
  rewrite (proj1 (static_image_markers example_token no_strings two_markers two_markers
                    times_square [labelled] "/-73.99,40.73,12" eq_refl I I I eq_refl W
                    eq_refl)).
  vm_compute; reflexivity.
Defined.



Lemma geocode_reverse_path_witness :
  map fst (fst (geocode_reverse example_token no_strings unauthorized
                  (VObj [("longitude", VNum (-73.985)); ("latitude", VNum 40.758)])))
  = [Get ("https://api.mapbox.com/geocoding/v5/mapbox.places/-73.985,40.758.json"
          ++ "?access_token=pk.test")].
Proof.
  rewrite (geocode_reverse_path example_token no_strings unauthorized
             (VObj [("longitude", VNum (-73.985)); ("latitude", VNum 40.758)])
             (VObj [("longitude", VNum (-73.985)); ("latitude", VNum 40.758)])
             (-73.985) 40.758 eq_refl eq_refl eq_refl eq_refl).
  vm_compute; reflexivity.
Defined.

(** *** Further properties of the handlers *)

(** The number of Mapbox calls behind each endpoint. *)
Definition upstream_calls (ep : endpoint) : nat :=
  match ep with
  | GeocodeForward | GeocodeReverse | GetMatrix => 1
  | GetDirections => 2
  | GetStaticImage | GetRouteMap => 0
  end.

(** A GET of [https://api.mapbox.com/{path}?access_token={token}{rest}],
    the token as the query string escapes it. *)
Definition mapbox_get (token : string) (r : request) : Prop :=
  exists path rest,
    r = Get ("https://api.mapbox.com/" ++ path ++ "?access_token="
             ++ form_encode token ++ rest).

Lemma mapbox_get_url token url path params :
  url = "https://api.mapbox.com/" ++ path ++ "?"
        ++ URLSearchParams (("access_token", token) :: params) ->
  mapbox_get token (Get url).
Proof.
  intros ->; rewrite URLSearchParams_cons.
  exists path, match params with
               | [] => ""
               | _ => "&" ++ URLSearchParams params
               end.
  reflexivity.
Qed.

(** The characters [encodeURIComponent] lets through, and the text it
    produces: those characters and percent escapes. *)
Definition unreserved (c : ascii) : bool :=
  is_alphanumeric (nat_of_ascii c) || one_of "-_.!~*'()" c.

Definition escaped (s : string) : bool :=
  forallb (fun c => unreserved c || Ascii.eqb c "%"%char) (list_ascii_of_string s).

Lemma escaped_app a b : escaped (a ++ b) = escaped a && escaped b.
Proof.
  unfold escaped; induction a as [| c a IH]; [reflexivity |].
  cbn [append list_ascii_of_string forallb]; rewrite IH, andb_assoc; reflexivity.
Qed.

Lemma escaped_character c :
  escaped (if unreserved c then String c "" else percent_encode (nat_of_ascii c)) = true.
Proof. destruct c as [[] [] [] [] [] [] [] []]; reflexivity. Qed.

Lemma escaped_uri_component s : escaped (uri_component s) = true.
Proof.
  unfold uri_component; induction s as [| c s IH]; [reflexivity |].
  cbn [encode_with andb]; rewrite escaped_app, IH, andb_true_r.
  apply escaped_character.
Qed.

(** The object both geocoding handlers build from a feature. *)
Definition place (feature : value) : value :=
  VObj [("place_name", member feature "place_name");
        ("center", member feature "center");
        ("place_type", member feature "place_type");
        ("relevance", member feature "relevance");
        ("properties", member feature "properties");
        ("context", member feature "context")].

Lemma geocoding_results_features data features :
  member data "features" = VArr features ->
  Forall (fun f => is_nullish f = false) features ->
  geocoding_results data
  = Ok (json 200 (VObj [("success", VBool true);
                        ("results", VArr (map place features));
                        ("total", VNum (float_of_nat (List.length features)))])).
Proof.
  intros Hf Hn; unfold geocoding_results, get.
  rewrite (member_defined data "features") by (rewrite Hf; discriminate).
  cbn [rbind]; rewrite Hf; unfold method_map.
  rewrite (rmap_ok _ place).
  - cbn [rbind member]; rewrite length_map; reflexivity.
  - intros f Hin; rewrite Forall_forall in Hn.
    unfold place_of_feature, get; rewrite (Hn f Hin); reflexivity.
Qed.

(** An optional list of indices in the query string of [get_matrix]. *)
Definition indices_parameter (name : string) (indices : value) : string :=
  match indices with
  | VArr items => "&" ++ name ++ "=" ++ form_encode (join_strings ";" (map text items))
  | _ => ""
  end.

(** A list of indices that is left out, or an array of numbers. *)
Definition optional_array (v : value) : Prop :=
  truthy v = false \/ exists items, v = numbers items.

Lemma optional_indices_array name v :
  optional_array v ->
  optional_indices name v
  = Ok (match v with
        | VArr items => [(name, join_strings ";" (map text items))]
        | _ => []
        end).
Proof.
  unfold optional_indices, optional_parameter; intros [Hf | [items ->]].
  - rewrite Hf; destruct v; try reflexivity; discriminate.
  - cbn [numbers truthy]; rewrite (method_join_numbers name items ";").
    unfold numbers_text; rewrite map_map; reflexivity.
Qed.

(** The [tools] catalog, lines 30-278, and [GET /tools], lines 290-292. *)
Definition coordinate_pairs_schema (limits : list (string * value)) (description : string)
  : value :=
  VObj ([("type", VStr "array");
         ("items", VObj [("type", VStr "array");
                         ("items", VObj [("type", VStr "number")]);
                         ("minItems", VNum 2);
                         ("maxItems", VNum 2)])]
        ++ limits ++ [("description", VStr description)])%list.

Definition geocode_forward_tool : value :=
  VObj [("name", VStr "geocode_forward");
        ("description",
         VStr "Convert an address or place name into geographic coordinates (latitude, longitude)");
        ("inputSchema",
         VObj [("type", VStr "object");
               ("properties",
                VObj [("query",
                       VObj [("type", VStr "string");
                             ("description", VStr "The address or place name to geocode")]);
                      ("limit",
                       VObj [("type", VStr "number");
                             ("description",
                              VStr "Maximum number of results to return (1-10)");
                             ("minimum", VNum 1);
                             ("maximum", VNum 10);
                             ("default", VNum 5)]);
                      ("country",
                       VObj [("type", VStr "string");
                             ("description",
                              VStr "ISO 3166-1 alpha-2 country code to limit results")])]);
               ("required", VArr [VStr "query"])])].

Definition geocode_reverse_tool : value :=
  VObj [("name", VStr "geocode_reverse");
        ("description",
         VStr "Convert geographic coordinates into a human-readable address");
        ("inputSchema",
         VObj [("type", VStr "object");
               ("properties",
                VObj [("longitude",
                       VObj [("type", VStr "number");
                             ("description", VStr "Longitude coordinate");
                             ("minimum", VNum (-180));
                             ("maximum", VNum 180)]);
                      ("latitude",
                       VObj [("type", VStr "number");
                             ("description", VStr "Latitude coordinate");
                             ("minimum", VNum (-90));
                             ("maximum", VNum 90)]);
                      ("types",
                       VObj [("type", VStr "array");
                             ("items", VObj [("type", VStr "string")]);
                             ("description", VStr "Filter results by feature types")])]);
               ("required", VArr [VStr "longitude"; VStr "latitude"])])].

Definition pixels_schema (default : float) (description : string) : value :=
  VObj [("type", VStr "number");
        ("minimum", VNum 1);
        ("maximum", VNum 1280);
        ("default", VNum default);
        ("description", VStr description)].

Definition style_schema : value :=
  VObj [("type", VStr "string");
        ("default", VStr "mapbox/streets-v12");
        ("description", VStr "Map style ID")].

Definition get_static_image_tool : value :=
  VObj [("name", VStr "get_static_image");
        ("description",
         VStr "Generate a static map image with optional markers and overlays");
        ("inputSchema",
         VObj [("type", VStr "object");
               ("properties",
                VObj [("style", style_schema);
                      ("width", pixels_schema 600 "Image width in pixels");
                      ("height", pixels_schema 400 "Image height in pixels");
                      ("zoom",
                       VObj [("type", VStr "number");
                             ("minimum", VNum 0);
                             ("maximum", VNum 22);
                             ("description", VStr "Zoom level (required if no bbox)")]);
                      ("center",
                       VObj [("type", VStr "array");
                             ("items", VObj [("type", VStr "number")]);
                             ("minItems", VNum 2);
                             ("maxItems", VNum 2);
                             ("description",
                              VStr "[longitude, latitude] center point (required if no bbox)")]);
                      ("bbox",
                       VObj [("type", VStr "array");
                             ("items", VObj [("type", VStr "number")]);
                             ("minItems", VNum 4);
                             ("maxItems", VNum 4);
                             ("description",
                              VStr "Bounding box [minLon, minLat, maxLon, maxLat]")]);
                      ("markers",
                       VObj [("type", VStr "array");
                             ("items",
                              VObj [("type", VStr "object");
                                    ("properties",
                                     VObj [("longitude", VObj [("type", VStr "number")]);
                                           ("latitude", VObj [("type", VStr "number")]);
                                           ("size",
                                            VObj [("type", VStr "string");
                                                  ("enum", VArr [VStr "small"; VStr "large"]);
                                                  ("default", VStr "small")]);
                                           ("color",
                                            VObj [("type", VStr "string");
                                                  ("default", VStr "red")]);
                                           ("label", VObj [("type", VStr "string")])]);
                                    ("required",
                                     VArr [VStr "longitude"; VStr "latitude"])]);
                             ("description",
                              VStr "Array of markers to place on the map")])])])].

Definition get_route_map_tool : value :=
  VObj [("name", VStr "get_route_map");
        ("description",
         VStr "Generate a static map image showing a route with start and end markers");
        ("inputSchema",
         VObj [("type", VStr "object");
               ("properties",
                VObj [("coordinates",
                       coordinate_pairs_schema [("minItems", VNum 2)]
                         "Array of [longitude, latitude] coordinate pairs for the route");
                      ("style", style_schema);
                      ("width", pixels_schema 800 "Image width in pixels");
                      ("height", pixels_schema 600 "Image height in pixels");
                      ("route_polyline",
                       VObj [("type", VStr "string");
                             ("description",
                              VStr "Encoded polyline string from directions API (optional, for route overlay)")])]);
               ("required", VArr [VStr "coordinates"])])].

Definition profile_schema : value :=
  VObj [("type", VStr "string");
        ("enum", VArr [VStr "driving"; VStr "walking"; VStr "cycling";
                       VStr "driving-traffic"]);
        ("default", VStr "driving");
        ("description", VStr "Routing profile")].

Definition indices_schema (description : string) : value :=
  VObj [("type", VStr "array");
        ("items", VObj [("type", VStr "number")]);
        ("description", VStr description)].

Definition get_matrix_tool : value :=
  VObj [("name", VStr "get_matrix");
        ("description",
         VStr "Calculate travel times and distances between multiple points");
        ("inputSchema",
         VObj [("type", VStr "object");
               ("properties",
                VObj [("coordinates",
                       coordinate_pairs_schema [("minItems", VNum 2); ("maxItems", VNum 25)]
                         "Array of [longitude, latitude] coordinate pairs");
                      ("profile", profile_schema);
                      ("sources",
                       indices_schema
                         "Indices of coordinates to use as sources (default: all)");
                      ("destinations",
                       indices_schema
                         "Indices of coordinates to use as destinations (default: all)");
                      ("annotations",
                       VObj [("type", VStr "array");
                             ("items",
                              VObj [("type", VStr "string");
                                    ("enum", VArr [VStr "duration"; VStr "distance";
                                                   VStr "speed"])]);
                             ("default", VArr [VStr "duration"; VStr "distance"]);
                             ("description",
                              VStr "Annotations to include in response")])]);
               ("required", VArr [VStr "coordinates"])])].

Definition tools : list value :=
  [geocode_forward_tool; geocode_reverse_tool; get_directions_tool;
   get_static_image_tool; get_route_map_tool; get_matrix_tool].

Definition get_tools : response := json 200 (VObj [("tools", VArr tools)]).

(** The defaults a tool's schema declares for its top-level properties. *)
Definition declared_defaults (tool : value) : list (string * value) :=
  match member (member tool "inputSchema") "properties" with
  | VObj properties =>
      flat_map (fun kv => match member (snd kv) "default" with
                          | VUndef => []
                          | d => [(fst kv, d)]
                          end) properties
  | _ => []
  end.

Section FurtherProperties.

Variable token : string.
Variable s2n : string -> float.
Variable max_arguments : N.
Variable w : world.
Variable sf : bool.

Ltac no_call := split; [left; reflexivity | constructor].

Ltac one_call U :=
  split; [right; reflexivity | constructor; [exact U | constructor]].

Lemma geocode_forward_calls body :
  let tr := fst (geocode_forward token w body) in
  (tr = [] \/ List.length tr = 1) /\ Forall (fun ev => mapbox_get token (fst ev)) tr.
Proof.
  unfold geocode_forward, handle, geocode_forward_try; rewrite lift_bind.
  destruct (request_arguments body) as [args | e]; [| no_call].
  unfold geocode_forward_with; rewrite lift_bind.
  destruct (destructurable _ _ args); [| no_call].
  rewrite lift_bind.
  destruct (encodeURIComponent _) as [query | e]; [| no_call].
  rewrite lift_bind.
  destruct (method_toString _ _) as [limit | e]; [| no_call].
  rewrite lift_bind.
  destruct (optional_parameter _ _ _) as [country | e]; [| no_call].
  unfold bind, axios, lift; cbn [app].
  set (url := (_ ++ "?" ++ URLSearchParams _)).
  assert (U : mapbox_get token (Get url)).
  { eapply (mapbox_get_url token url ("geocoding/v5/mapbox.places/" ++ query ++ ".json")).
    unfold url; rewrite !append_assoc; reflexivity. }
  destruct (settle _) as [data | e]; [destruct (geocoding_results data) |]; one_call U.
Qed.

Lemma geocode_reverse_calls body :
  let tr := fst (geocode_reverse token s2n w body) in
  (tr = [] \/ List.length tr = 1) /\ Forall (fun ev => mapbox_get token (fst ev)) tr.
Proof.
  unfold geocode_reverse, handle, geocode_reverse_try; rewrite lift_bind.
  destruct (request_arguments body) as [args | e]; [| no_call].
  unfold geocode_reverse_with; rewrite lift_bind.
  destruct (destructurable _ _ args); [| no_call].
  rewrite lift_bind.
  destruct (to_string (member args "longitude")) as [lon | e]; [| no_call].
  rewrite lift_bind.
  destruct (to_string (member args "latitude")) as [lat | e]; [| no_call].
  rewrite lift_bind.
  destruct (some_types _ _) as [given | e]; [| no_call].
  rewrite lift_bind.
  destruct (if given then _ else _) as [types | e]; [| no_call].
  unfold bind, axios, lift; cbn [app].
  set (url := (_ ++ "?" ++ URLSearchParams _)).
  assert (U : mapbox_get token (Get url)).
  { eapply (mapbox_get_url token url
              ("geocoding/v5/mapbox.places/" ++ lon ++ "," ++ lat ++ ".json")).
    unfold url; rewrite !append_assoc; reflexivity. }
  destruct (settle _) as [data | e]; [destruct (geocoding_results data) |]; one_call U.
Qed.

Lemma get_matrix_calls body :
  let tr := fst (get_matrix token w body) in
  (tr = [] \/ List.length tr = 1) /\ Forall (fun ev => mapbox_get token (fst ev)) tr.
Proof.
  unfold get_matrix, handle, get_matrix_try; rewrite lift_bind.
  destruct (request_arguments body) as [args | e]; [| no_call].
  unfold get_matrix_with; rewrite lift_bind.
  destruct (destructurable _ _ args); [| no_call].
  rewrite lift_bind.
  destruct (coordinate_string _) as [coordinateString | e]; [| no_call].
  rewrite lift_bind.
  destruct (to_string _) as [profile | e]; [| no_call].
  rewrite lift_bind.
  destruct (method_join _ _ _) as [annotations | e]; [| no_call].
  rewrite lift_bind.
  destruct (optional_indices "sources" _) as [sources | e]; [| no_call].
  rewrite lift_bind.
  destruct (optional_indices "destinations" _) as [destinations | e]; [| no_call].
  unfold bind, axios, lift, ret; cbn [app].
  set (url := (_ ++ "?" ++ URLSearchParams _)).
  assert (U : mapbox_get token (Get url)).
  { eapply (mapbox_get_url token url
              ("directions-matrix/v1/mapbox/" ++ profile ++ "/" ++ coordinateString)).
    unfold url; rewrite !append_assoc; reflexivity. }
  destruct (settle _) as [data | e]; [destruct (get data "durations") |]; one_call U.
Qed.

Lemma get_directions_calls body :
  let tr := fst (get_directions token w sf body) in
  (tr = [] \/ List.length tr = 2) /\ Forall (fun ev => mapbox_get token (fst ev)) tr.
Proof.
  unfold get_directions, handle, get_directions_try; rewrite lift_bind.
  destruct (request_arguments body) as [args | e]; [| no_call].
  unfold get_directions_with; rewrite lift_bind.
  destruct (destructurable _ _ args); [| no_call].
  rewrite lift_bind.
  destruct (coordinate_string _) as [coordinateString | e]; [| no_call].
  rewrite lift_bind.
  destruct (to_string (default_to (VStr "driving") _)) as [profile | e]; [| no_call].
  rewrite lift_bind.
  destruct (method_toString _ _) as [steps | e]; [| no_call].
  rewrite lift_bind.
  destruct (to_string (default_to (VStr "full") _)) as [overview | e]; [| no_call].
  assert (U : forall query,
             mapbox_get token
               (Get (directions_url profile coordinateString
                       (("access_token", token) :: query)))).
  { intros query.
    eapply (mapbox_get_url token _
              ("directions/v5/mapbox/" ++ profile ++ "/" ++ coordinateString)).
    unfold directions_url; rewrite !append_assoc; reflexivity. }
  unfold bind, axios_all2, lift; cbn [app].
  destruct (settle _) as [d1 | e1], (settle _) as [d2 | e2];
    try destruct (directions_result d1 d2);
    (split; [right; reflexivity | repeat constructor; apply U]).
Qed.

(** X4.  Whatever the body, a gateway handler calls nothing but the Mapbox
    API: two of the endpoints make no call at all, the others make their one
    call (two for [get_directions]) or, when the arguments fail before it,
    none; every call is a GET of a URL of the form
    [https://api.mapbox.com/{path}?access_token={token}{rest}], with the
    configured access token. *)
Theorem handlers_call_only_mapbox (ep : endpoint) (body : value) :
  let tr := fst (handler token s2n max_arguments w sf ep body) in
  (tr = [] \/ List.length tr = upstream_calls ep)
  /\ Forall (fun ev => mapbox_get token (fst ev)) tr.
Proof.
  destruct ep; cbn [handler upstream_calls].
  - apply geocode_forward_calls.
  - apply geocode_reverse_calls.
  - apply get_directions_calls.
  - unfold get_static_image, handle.
    destruct (static_image_is_pure token s2n body []) as [r [-> _]].
    destruct r; no_call.
  - unfold get_route_map, handle.
    destruct (route_map_is_pure token s2n max_arguments body []) as [r [-> _]].
    destruct r; no_call.
  - apply get_matrix_calls.
Qed.

Lemma geocoding_answered ep body r data :
  ep = GeocodeForward \/ ep = GeocodeReverse ->
  fst (handler token s2n max_arguments w sf ep body) = [(r, Answered data)] ->
  snd (handler token s2n max_arguments w sf ep body)
  = match geocoding_results data with
    | Ok res => res
    | Throw e => upstream_failure e
    end.
Proof.
  intros [-> | ->]; cbn [handler].
  - unfold geocode_forward, handle, geocode_forward_try; rewrite lift_bind.
    destruct (request_arguments body) as [args | e]; [| discriminate].
    unfold geocode_forward_with; rewrite lift_bind.
    destruct (destructurable _ _ args); [| discriminate].
    rewrite lift_bind.
    destruct (encodeURIComponent _) as [query | e]; [| discriminate].
    rewrite lift_bind.
    destruct (method_toString _ _) as [limit | e]; [| discriminate].
    rewrite lift_bind.
    destruct (optional_parameter _ _ _) as [country | e]; [| discriminate].
    unfold bind, axios, lift; cbn [app].
    destruct (w [] _) as [d | m o] eqn:A; cbn [settle].
    + destruct (geocoding_results d) eqn:G; cbn [fst snd]; intros E;
        injection E as _ <-; rewrite G; reflexivity.
    + discriminate.
  - unfold geocode_reverse, handle, geocode_reverse_try; rewrite lift_bind.
    destruct (request_arguments body) as [args | e]; [| discriminate].
    unfold geocode_reverse_with; rewrite lift_bind.
    destruct (destructurable _ _ args); [| discriminate].
    rewrite lift_bind.
    destruct (to_string (member args "longitude")) as [lon | e]; [| discriminate].
    rewrite lift_bind.
    destruct (to_string (member args "latitude")) as [lat | e]; [| discriminate].
    rewrite lift_bind.
    destruct (some_types _ _) as [given | e]; [| discriminate].
    rewrite lift_bind.
    destruct (if given then _ else _) as [types | e]; [| discriminate].
    unfold bind, axios, lift; cbn [app].
    destruct (w [] _) as [d | m o] eqn:A; cbn [settle].
    + destruct (geocoding_results d) eqn:G; cbn [fst snd]; intros E;
        injection E as _ <-; rewrite G; reflexivity.
    + discriminate.
Qed.

(** X5.  When the one call of a geocoding handler is answered with
    [features] an array of objects, the response is 200 with one result per
    feature, in order, each holding the feature's [place_name], [center],
    [place_type], [relevance], [properties] and [context], and [total] is
    the number of features; an answer without [features] gives 500 with the
    [TypeError] of the failed [map]. *)
Theorem geocoding_response (ep : endpoint) (body : value) (r : request) (data : value) :
  ep = GeocodeForward \/ ep = GeocodeReverse ->
  fst (handler token s2n max_arguments w sf ep body) = [(r, Answered data)] ->
  (forall features,
     member data "features" = VArr features ->
     Forall (fun f => is_nullish f = false) features ->
     snd (handler token s2n max_arguments w sf ep body)
     = {| status := 200;
          body := VObj [("success", VBool true);
                        ("results", VArr (map place features));
                        ("total", VNum (float_of_nat (List.length features)))] |})
  /\ (is_nullish data = false ->
      member data "features" = VUndef ->
      snd (handler token s2n max_arguments w sf ep body)
      = {| status := 500;
           body := VObj [("success", VBool false);
                         ("error",
                          VStr "Cannot read properties of undefined (reading 'map')")] |}).
Proof.
  intros Hep Htr; rewrite (geocoding_answered ep body r data Hep Htr); split.
  - intros features Hf Hn; rewrite (geocoding_results_features data features Hf Hn).
    reflexivity.
  - intros Hd Hf; unfold geocoding_results, get; rewrite Hd; cbn [rbind]; rewrite Hf.
    reflexivity.
Qed.

(** X6.  With [query], [limit] and [country] each left out or given as a
    string, a number or a boolean ([limit] not null), [geocode_forward]
    makes exactly one GET: the [query] is percent-encoded into one path
    segment (letters, digits, [-_.!~*'()] and [%XX] escapes only, so it can
    add neither a path segment nor a parameter), [limit] is sent as given
    and as 5 when left out, and [country] only when it is given. *)
Theorem geocode_forward_request (body args : value) :
  request_arguments body = Ok args ->
  primitive (member args "query") ->
  primitive (member args "limit") ->
  member args "limit" <> VNull ->
  primitive (member args "country") ->
  let query := member args "query" in
  let limit := default_to (VNum 5) (member args "limit") in
  let country := member args "country" in
  map fst (fst (geocode_forward token w body))
  = [Get ("https://api.mapbox.com/geocoding/v5/mapbox.places/"
          ++ uri_component (text query) ++ ".json?access_token=" ++ form_encode token
          ++ "&limit=" ++ form_encode (text limit)
          ++ (if truthy country then "&country=" ++ form_encode (text country)
              else ""))]
  /\ escaped (uri_component (text query)) = true.
Proof.
  intros Hargs Hq Hl Hn Hc query limit country; subst query limit country.
  split; [| apply escaped_uri_component].
  unfold geocode_forward, handle, geocode_forward_try; rewrite lift_bind, Hargs.
  unfold geocode_forward_with, destructurable.
  rewrite (request_arguments_defined _ _ Hargs), !lift_bind.
  unfold encodeURIComponent; rewrite (to_string_primitive _ Hq); cbn [rbind].
  rewrite lift_bind.
  rewrite (method_toString_primitive "limit" _ (primitive_default (VNum 5) _ I Hl)
             (default_not_null (VNum 5) _ ltac:(discriminate) ltac:(discriminate) Hn)).
  rewrite lift_bind; unfold optional_parameter; rewrite (to_string_primitive _ Hc).
  destruct (truthy (member args "country")); cbn [rbind]; cbv beta iota;
    unfold bind, axios, lift; cbn [app];
    rewrite !URLSearchParams_cons, ?append_nil_r;
    (destruct (settle _) as [data | e]; [destruct (geocoding_results data) |]);
    cbn [fst map]; rewrite !append_assoc; reflexivity.
Qed.

(** X7.  [geocode_reverse] with [longitude] and [latitude] given as numbers
    or strings and [types] a list of strings adds the parameter [types], the
    list joined by commas (which the query string escapes), when the list is
    not empty, and no parameter for the empty list; longitude and latitude
    go into the path as they print. *)
Theorem geocode_reverse_types (body args : value) (types : list string) :
  request_arguments body = Ok args ->
  primitive (member args "longitude") ->
  primitive (member args "latitude") ->
  member args "types" = VArr (map VStr types) ->
  map fst (fst (geocode_reverse token s2n w body))
  = [Get ("https://api.mapbox.com/geocoding/v5/mapbox.places/"
          ++ text (member args "longitude") ++ ","
          ++ text (member args "latitude") ++ ".json?access_token="
          ++ form_encode token
          ++ match types with
             | [] => ""
             | _ => "&types=" ++ form_encode (join_strings "," types)
             end)].
Proof.
  intros Hargs Hlon Hlat Ht.
  unfold geocode_reverse, handle, geocode_reverse_try; rewrite lift_bind, Hargs.
  unfold geocode_reverse_with, destructurable, some_types.
  rewrite (request_arguments_defined _ _ Hargs), !lift_bind.
  rewrite (to_string_primitive _ Hlon), lift_bind, (to_string_primitive _ Hlat), lift_bind.
  rewrite Ht; cbn [truthy length_positive]; rewrite length_map.
  set (url := "https://api.mapbox.com/geocoding/v5/mapbox.places/"
              ++ text (member args "longitude") ++ ","
              ++ text (member args "latitude") ++ ".json").
  destruct types as [| t types]; cbn [List.length Nat.eqb negb]; rewrite lift_bind.
  - unfold bind, axios, lift; cbn [app].
    rewrite !URLSearchParams_cons, ?append_nil_r.
    (destruct (settle _) as [data | e]; [destruct (geocoding_results data) |]);
      cbn [fst map]; unfold url; rewrite !append_assoc; reflexivity.
  - cbn [method_join]; rewrite join_texts; cbn [rbind].
    unfold bind, axios, lift; cbn [app].
    rewrite !URLSearchParams_cons, ?append_nil_r.
    (destruct (settle _) as [data | e]; [destruct (geocoding_results data) |]);
      cbn [fst map]; unfold url; rewrite !append_assoc; reflexivity.
Qed.

Lemma optional_array_cases (v : value) :
  optional_array v ->
  (exists items, v = VArr items)
  \/ (forall A (a : list value -> A) (b : A),
        match v with VArr items => a items | _ => b end = b).
Proof.
  intros [Hf | [items ->]]; [right | left; eexists; reflexivity].
  intros A a b; destruct v; try reflexivity; discriminate.
Qed.

(** X8.  With [coordinates] a list of arrays of numbers, [profile] left
    out or a string, [annotations] left out or a list of strings and each
    of [sources] and [destinations] left out or a list of numbers,
    [get_matrix] makes exactly one GET, to the matrix API for the profile
    (driving when left out) and the coordinates joined by [;], with
    [annotations] joined by commas ([duration,distance] when left out) and,
    for each of [sources] and [destinations] that is given, its indices
    joined by [;], an empty list giving an empty parameter; the response
    passes on [durations], [distances], [sources], [destinations] and [code]
    of the answer. *)
Theorem get_matrix_request (body args : value) (coordinates : list (list float))
    (annotations : list string) :
  request_arguments body = Ok args ->
  member args "coordinates" = VArr (map numbers coordinates) ->
  primitive (member args "profile") ->
  default_to (VArr [VStr "duration"; VStr "distance"]) (member args "annotations")
  = VArr (map VStr annotations) ->
  optional_array (member args "sources") ->
  optional_array (member args "destinations") ->
  let url := "https://api.mapbox.com/directions-matrix/v1/mapbox/"
             ++ text (default_to (VStr "driving") (member args "profile"))
             ++ "/" ++ coordinate_text coordinates
             ++ "?access_token=" ++ form_encode token
             ++ "&annotations=" ++ form_encode (join_strings "," annotations)
             ++ indices_parameter "sources" (member args "sources")
             ++ indices_parameter "destinations" (member args "destinations") in
  map fst (fst (get_matrix token w body)) = [Get url]
  /\ forall fields,
       w [] (Get url) = Answered (VObj fields) ->
       snd (get_matrix token w body)
       = {| status := 200;
            body := VObj [("success", VBool true);
                          ("durations", assoc "durations" fields);
                          ("distances", assoc "distances" fields);
                          ("sources", assoc "sources" fields);
                          ("destinations", assoc "destinations" fields);
                          ("code", assoc "code" fields)] |}.
Proof.
  intros Hargs Hc Hp Ha Hs Hd url.
  unfold get_matrix, handle, get_matrix_try; rewrite lift_bind, Hargs.
  unfold get_matrix_with, destructurable.
  rewrite (request_arguments_defined _ _ Hargs), !lift_bind, Hc, Ha.
  rewrite coordinate_string_numbers, lift_bind.
  rewrite (to_string_primitive _ (primitive_default (VStr "driving") _ I Hp)), lift_bind.
  cbn [method_join]; rewrite join_texts, lift_bind.
  rewrite (optional_indices_array _ _ Hs), lift_bind.
  rewrite (optional_indices_array _ _ Hd).
  set (called := (_ ++ "?" ++ URLSearchParams _)).
  assert (E : called = url).
  { unfold called, url, indices_parameter.
    destruct (optional_array_cases _ Hs) as [[s ->] | Hs'],
             (optional_array_cases _ Hd) as [[d ->] | Hd'];
      try rewrite !Hs'; try rewrite !Hd';
      cbn [app]; rewrite !URLSearchParams_cons, ?append_nil_r, ?append_assoc;
      reflexivity. }
  rewrite E; unfold bind, axios, lift, ret; cbn [app]; split.
  - destruct (settle _) as [data | e]; [destruct (get data "durations") |]; reflexivity.
  - intros fields A; rewrite A; reflexivity.
Qed.

(** X9.  With [coordinates] a list of arrays of numbers and [profile],
    [steps] and [overview] left out or given as strings, booleans or
    numbers, [get_directions] answers 200 only when both of its calls are
    answered: if either one fails while the other succeeds, the response is
    500 with the failing call's error, the upstream message when it has one,
    however complete the other answer is. *)
Theorem directions_need_both_answers (body args : value)
    (coordinates : list (list float)) (m : string) (r : option (N * value)) :
  request_arguments body = Ok args ->
  member args "coordinates" = VArr (map numbers coordinates) ->
  primitive (member args "profile") ->
  primitive (member args "steps") ->
  member args "steps" <> VNull ->
  primitive (member args "overview") ->
  let primary := primary_request token args coordinates in
  let secondary := secondary_request token args coordinates in
  (w [] primary = Failed m r
   /\ exists data, w [(primary, Failed m r)] secondary = Answered data)
  \/ (exists data, w [] primary = Answered data
                   /\ w [(primary, Answered data)] secondary = Failed m r) ->
  snd (get_directions token w sf body)
  = {| status := 500;
       body := VObj [("success", VBool false);
                     ("error", reported_error (AxiosError m r))] |}.
Proof.
  intros Hargs Hc Hp Hs Hn Ho primary secondary H.
  rewrite (get_directions_runs token w sf body args coordinates Hargs Hc Hp Hs Hn Ho).
  fold primary secondary; unfold handle, bind, axios_all2, lift; cbn [app].
  assert (R : upstream_failure (AxiosError m r)
              = {| status := 500;
                   body := VObj [("success", VBool false);
                                 ("error", reported_error (AxiosError m r))] |}).
  { destruct r as [[st data] |]; reflexivity. }
  destruct H as [[A1 [d A2]] | [d [A1 A2]]]; rewrite A1; cbn [settle]; rewrite A2;
    cbn [settle snd]; exact R.
Qed.

(** X10.  The three handlers that take [coordinates] do not check them:
    when they are left out the handler fails on the first use, before any
    call, and answers 500 with the [TypeError] of that use; [get_route_map],
    given a [style] that is left out, a string or a number, does the same
    for an empty list, which has no first element. *)
Theorem coordinates_are_required (ep : endpoint) (body args : value) :
  ep = GetDirections \/ ep = GetMatrix \/ ep = GetRouteMap ->
  request_arguments body = Ok args ->
  (ep = GetRouteMap -> primitive (member args "style")) ->
  member args "coordinates" = VUndef
  \/ (ep = GetRouteMap /\ member args "coordinates" = VArr []) ->
  handler token s2n max_arguments w sf ep body
  = ([], {| status := 500;
            body := VObj [("success", VBool false);
                          ("error",
                           VStr ("Cannot read properties of undefined (reading '"
                                 ++ match ep with
                                    | GetRouteMap => "0"
                                    | _ => "map"
                                    end ++ "')"))] |}).
Proof.
  intros Hep Hargs Hs Hc; rewrite (handler_on token s2n max_arguments w sf ep body args Hargs).
  pose proof (request_arguments_defined _ _ Hargs) as N.
  destruct Hep as [-> | [-> | ->]]; cbn [try_with catch_block];
    unfold handle, get_directions_with, get_matrix_with, get_route_map_with,
      destructurable; rewrite N, !lift_bind.
  - destruct Hc as [-> | [Hep _]]; [reflexivity | discriminate].
  - destruct Hc as [-> | [Hep _]]; [reflexivity | discriminate].
  - rewrite (to_string_primitive _ (primitive_default (VStr "mapbox/streets-v12") _ I
                                      (Hs eq_refl))).
    rewrite lift_bind.
    destruct Hc as [-> | [_ ->]]; reflexivity.
Qed.

(** X11.  The defaults the catalog declares are the ones the handlers
    apply: for every tool and every top-level property whose schema has a
    [default], leaving the property out of the arguments gives the same
    calls and the same response as passing the declared default. *)
Theorem declared_defaults_are_applied (tool : value) (ep : endpoint) (k : string)
    (d : value) (fs fs' : list (string * value)) :
  In tool tools ->
  member tool "name" = VStr (route_name ep) ->
  In (k, d) (declared_defaults tool) ->
  assoc k fs = VUndef ->
  assoc k fs' = d ->
  (forall k', k' <> k -> assoc k' fs' = assoc k' fs) ->
  handler token s2n max_arguments w sf ep (VObj [("arguments", VObj fs')])
  = handler token s2n max_arguments w sf ep (VObj [("arguments", VObj fs)]).
Proof.
  intros Htool Hname Hin Hk Hk' H.
  rewrite (handler_on token s2n max_arguments w sf ep (VObj [("arguments", VObj fs')])
             (VObj fs') eq_refl),
          (handler_on token s2n max_arguments w sf ep (VObj [("arguments", VObj fs)])
             (VObj fs) eq_refl).
  f_equal.
  cbn [tools In] in Htool.
  destruct Htool as [<- | [<- | [<- | [<- | [<- | [<- | []]]]]]];
    destruct ep; try discriminate Hname; clear Hname;
    vm_compute in Hin;
    repeat match type of Hin with
           | _ \/ _ => destruct Hin as [Hin | Hin]
           | False => destruct Hin
           end;
    injection Hin as <- <-;
    cbn [try_with];
    unfold geocode_forward_with, get_directions_with, get_static_image_with,
      get_route_map_with, get_matrix_with;
    cbn [member];
    repeat match goal with
           | |- context [assoc ?key fs'] =>
               first [ rewrite Hk' | rewrite (H key) by discriminate ]
           end;
    rewrite ?Hk; reflexivity.
Qed.

(** A computation whose result, when it returns one, satisfies [Q]. *)
Definition returns {A} (Q : A -> Prop) (m : M A) : Prop :=
  forall tr tr' a, m tr = (tr', Ok a) -> Q a.

Lemma returns_bind {A B} (Q : B -> Prop) (m : M A) (k : A -> M B) :
  (forall a, returns Q (k a)) -> returns Q (bind m k).
Proof.
  intros Hk tr tr' b; unfold bind.
  destruct (m tr) as [tr1 [a | e]]; [apply Hk | discriminate].
Qed.

Lemma returns_ret {A} (Q : A -> Prop) (a : A) : Q a -> returns Q (ret a).
Proof. intros H tr tr' b E; inversion E; subst; exact H. Qed.

Lemma returns_lift {A} (Q : A -> Prop) (r : result A) :
  (forall a, r = Ok a -> Q a) -> returns Q (lift r).
Proof. intros H tr tr' b E; inversion E; subst; apply H; reflexivity. Qed.

(** A success envelope. *)
Definition succeeded (r : response) : Prop :=
  status r = 200%N /\ member (body r) "success" = VBool true.

Lemma geocoding_results_succeeded data r :
  geocoding_results data = Ok r -> succeeded r.
Proof.
  unfold geocoding_results.
  destruct (get data "features") as [features | e]; [| discriminate]; cbn [rbind].
  destruct (method_map _ features _) as [results | e]; [| discriminate]; cbn [rbind].
  intros H; inversion H; subst; split; reflexivity.
Qed.

Lemma directions_result_succeeded geojson polyline r :
  directions_result geojson polyline = Ok r -> succeeded r.
Proof.
  unfold directions_result.
  destruct (get geojson "routes") as [routes | e]; [| discriminate]; cbn [rbind].
  destruct (get polyline "routes") as [proutes | e]; [| discriminate]; cbn [rbind].
  destruct (truthy proutes); cbn [rbind].
  - destruct (get proutes "0") as [first | e]; [| discriminate]; cbn [rbind].
    destruct (truthy first); cbn [rbind]; intros H; inversion H; subst; split; reflexivity.
  - intros H; inversion H; subst; split; reflexivity.
Qed.

Lemma try_with_succeeded ep args :
  returns succeeded (try_with token s2n max_arguments w sf ep args).
Proof.
  destruct ep; cbn [try_with];
    unfold geocode_forward_with, geocode_reverse_with, get_directions_with,
      get_static_image_with, get_route_map_with, get_matrix_with;
    repeat (apply returns_bind; intros ?);
    try (apply returns_ret; split; reflexivity).
  - apply returns_lift, geocoding_results_succeeded.
  - apply returns_lift, geocoding_results_succeeded.
  - match goal with
    | p : (value * value)%type |- _ => destruct p as [geojson polyline]
    end.
    apply returns_lift, directions_result_succeeded.
Qed.

(** X12.  A gateway handler answers in one of two ways only: 200 with
    [success: true], or 500 with exactly [success: false] and an [error];
    whatever is wrong with a request, it is never answered 4xx. *)
Theorem handlers_answer_200_or_500 (ep : endpoint) (body : value) :
  let r := snd (handler token s2n max_arguments w sf ep body) in
  (status r = 200%N /\ member (IO.body r) "success" = VBool true)
  \/ (exists error,
        r = {| status := 500;
               body := VObj [("success", VBool false); ("error", error)] |}).
Proof.
  rewrite handler_unfold; unfold handle.
  destruct ((args <- lift (request_arguments body) ;;
             try_with token s2n max_arguments w sf ep args) [])
    as [tr [r | e]] eqn:E; cbn [snd].
  - left; exact (returns_bind succeeded _ _ (try_with_succeeded ep) _ _ _ E).
  - right; destruct ep; cbn [catch_block]; eexists; reflexivity.
Qed.

End FurtherProperties.

(** *** Further worked examples *)

(** The geocoding request of the README. *)
Definition times_square_query : value :=
  VObj [("arguments",
         VObj [("query", VStr "Times Square, New York");
               ("limit", VNum 5);
               ("country", VStr "us")])].

(** Mapbox answering a geocoding call with one feature. *)
Definition geocoder : world :=
  fun _ _ =>
    Answered (VObj [("type", VStr "FeatureCollection");
                    ("features",
                     VArr [VObj [("place_name", VStr "Times Square, New York");
                                 ("center", VArr [VNum (-73.9855); VNum 40.758]);
                                 ("relevance", VNum 1)]])]).

Lemma geocoding_response_witness :
  snd (handler example_token no_strings example_limit geocoder false GeocodeForward
         times_square_query)
  = {| status := 200;
       body := VObj [("success", VBool true);
                     ("results",
                      VArr [VObj [("place_name", VStr "Times Square, New York");
                                  ("center", VArr [VNum (-73.9855); VNum 40.758]);
                                  ("place_type", VUndef);
                                  ("relevance", VNum 1);
                                  ("properties", VUndef);
                                  ("context", VUndef)]]);
                     ("total", VNum 1)] |}.
Proof.
  edestruct (geocoding_response example_token no_strings example_limit geocoder false
               GeocodeForward times_square_query) as [H _];
    [left; reflexivity | vm_compute; reflexivity |].
  exact (H _ eq_refl ltac:(repeat constructor)).
Defined.

Lemma geocode_forward_request_witness :
  map fst (fst (geocode_forward example_token geocoder times_square_query))
  = [Get ("https://api.mapbox.com/geocoding/v5/mapbox.places/"
          ++ "Times%20Square%2C%20New%20York.json"
          ++ "?access_token=pk.test&limit=5&country=us")].
Proof.
  rewrite (proj1 (geocode_forward_request example_token geocoder times_square_query
                    (VObj [("query", VStr "Times Square, New York");
                           ("limit", VNum 5);
                           ("country", VStr "us")])
                    eq_refl I I ltac:(discriminate) I)).
  vm_compute; reflexivity.
Defined.

Lemma geocode_reverse_types_witness :
  map fst (fst (geocode_reverse example_token no_strings geocoder
                  (VObj [("longitude", VNum (-73.985)); ("latitude", VNum 40.758);
                         ("types", VArr [VStr "poi"; VStr "address"])])))
  = [Get ("https://api.mapbox.com/geocoding/v5/mapbox.places/-73.985,40.758.json"
          ++ "?access_token=pk.test&types=poi%2Caddress")].
Proof.
  rewrite (geocode_reverse_types example_token no_strings geocoder
             (VObj [("longitude", VNum (-73.985)); ("latitude", VNum 40.758);
                    ("types", VArr [VStr "poi"; VStr "address"])])
             (VObj [("longitude", VNum (-73.985)); ("latitude", VNum 40.758);
                    ("types", VArr [VStr "poi"; VStr "address"])])
             ["poi"; "address"] eq_refl I I eq_refl).
  vm_compute; reflexivity.
Defined.

(** The matrix request of the README, with every point a destination of
    the first. *)
Definition three_points : value :=
  VObj [("coordinates",
         VArr [VArr [VNum (-73.985); VNum 40.758];
               VArr [VNum (-74.006); VNum 40.712];
               VArr [VNum (-73.968); VNum 40.785]]);
        ("profile", VStr "driving");
        ("sources", VArr [VNum 0])].

Lemma get_matrix_request_witness :
  map fst (fst (get_matrix example_token geocoder three_points))
  = [Get ("https://api.mapbox.com/directions-matrix/v1/mapbox/driving/"
          ++ "-73.985,40.758;-74.006,40.712;-73.968,40.785"
          ++ "?access_token=pk.test&annotations=duration%2Cdistance&sources=0")].
Proof.
  rewrite (proj1 (get_matrix_request example_token geocoder three_points three_points
                    [[(-73.985)%float; 40.758%float];
                     [(-74.006)%float; 40.712%float];
                     [(-73.968)%float; 40.785%float]]
                    ["duration"; "distance"]
                    eq_refl eq_refl I eq_refl
                    (or_intror (ex_intro _ [0%float] eq_refl))
                    (or_introl eq_refl))).
  vm_compute; reflexivity.
Defined.

(** Mapbox answering the first call of [get_directions] and timing out on
    the second. *)
Definition half_routing : world :=
  fun tr _ =>
    match tr with
    | [] => Answered (VObj [("routes", VArr [VObj [("distance", VNum 1609.3)]]);
                            ("code", VStr "Ok")])
    | _ => Failed "timeout of 5000ms exceeded" None
    end.

Lemma directions_need_both_answers_witness :
  snd (get_directions example_token half_routing false
         (VObj [("coordinates", two_points)]))
  = {| status := 500;
       body := VObj [("success", VBool false);
                     ("error", VStr "timeout of 5000ms exceeded")] |}.
Proof.
  refine (directions_need_both_answers example_token half_routing false
            (VObj [("coordinates", two_points)]) (VObj [("coordinates", two_points)])
            [[(-74)%float; 40%float]; [(-73)%float; 41%float]]
            "timeout of 5000ms exceeded" None eq_refl eq_refl I I ltac:(discriminate) I _).
  right; eexists; split; reflexivity.
Defined.

Lemma coordinates_are_required_witness :
  handler example_token no_strings example_limit routing false GetRouteMap
    (VObj [("arguments", VObj [("style", VStr "mapbox/dark-v11")])])
  = ([], {| status := 500;
            body := VObj [("success", VBool false);
                          ("error",
                           VStr "Cannot read properties of undefined (reading '0')")] |}).
Proof.
  exact (coordinates_are_required example_token no_strings example_limit routing false
           GetRouteMap
           (VObj [("arguments", VObj [("style", VStr "mapbox/dark-v11")])])
           (VObj [("style", VStr "mapbox/dark-v11")])
           (or_intror (or_intror eq_refl)) eq_refl (fun _ => I) (or_introl eq_refl)).
Defined.

Lemma declared_defaults_are_applied_witness :
  handler example_token no_strings example_limit geocoder false GeocodeForward
    (VObj [("arguments", VObj [("query", VStr "Paris"); ("limit", VNum 5)])])
  = handler example_token no_strings example_limit geocoder false GeocodeForward
      (VObj [("arguments", VObj [("query", VStr "Paris")])]).
Proof.
  apply (declared_defaults_are_applied example_token no_strings example_limit geocoder
           false geocode_forward_tool GeocodeForward "limit" (VNum 5)
           [("query", VStr "Paris")] [("query", VStr "Paris"); ("limit", VNum 5)]).
  - left; reflexivity.
  - reflexivity.
  - left; reflexivity.
  - reflexivity.
  - reflexivity.
  - intros k' H; cbn [assoc].
    destruct (k' =? "query"); [reflexivity |].
    destruct (k' =? "limit") eqn:E; [| reflexivity].
    apply String.eqb_eq in E; contradiction.
Defined.

(** *** Routes without extent, and routes too long *)

(** A double that is neither NaN, nor infinite, nor zero. *)
Definition proper (x : float) : Prop :=
  PrimFloat.is_finite x = true /\ PrimFloat.is_zero x = false.

Lemma proper_finite x :
  proper x -> exists s m e, Prim2SF x = S754_finite s m e.
Proof.
  unfold proper, PrimFloat.is_finite, PrimFloat.is_nan, PrimFloat.is_infinity,
    PrimFloat.is_zero.
  rewrite !eqb_spec, abs_spec.
  change (Prim2SF PrimFloat.infinity) with (S754_infinity false).
  change (Prim2SF PrimFloat.zero) with (S754_zero false).
  destruct (Prim2SF x) as [[|] | [|] | | s m e]; cbn; intros [F Z];
    try discriminate; eauto.
Qed.

Lemma proper_number x : proper x -> PrimFloat.is_nan x = false.
Proof.
  intros [F _]; unfold PrimFloat.is_finite in F.
  destruct (PrimFloat.is_nan x); [discriminate | reflexivity].
Qed.

(** No spread, no padding. *)
Lemma no_spread x :
  proper x ->
  (x - 0.1 * (x - x) = x)%float /\ (x + 0.1 * (x - x) = x)%float.
Proof.
  intros H; destruct (proper_finite x H) as [s [m [e E]]].
  assert (Z : Prim2SF (0.1 * (x - x)) = S754_zero false).
  { rewrite mul_spec, sub_spec, E; unfold SF64sub, SFsub; cbv zeta.
    rewrite Z.sub_diag; reflexivity. }
  split; apply Prim2SF_inj; [rewrite sub_spec | rewrite add_spec]; rewrite Z, E; reflexivity.
Qed.

Lemma only_member (x : float) l m : Forall (fun y => y = x) l -> In m l -> m = x.
Proof. intros H Hin; rewrite Forall_forall in H; apply H, Hin. Qed.

Section Flat.

Variable token : string.
Variable s2n : string -> float.
Variable max_arguments : N.

(** X22.  For a non-empty list of coordinate pairs, no longer than the
    engine lets a call take arguments, and [style], [width], [height] and
    [route_polyline] left out or given as strings or numbers: when every
    point of the route has the same longitude, the bounding box of
    [get_route_map] has no width: its west and east sides are both that
    longitude, there being no spread to pad; likewise for a common
    latitude, so that a single point gets the box [[x, y, x, y]].  (For a
    longitude or latitude that is finite and not zero.) *)
Theorem aligned_points_give_a_flat_box (body args : value) (first : float * float)
    (rest : list (float * float)) (x : float) :
  request_arguments body = Ok args ->
  member args "coordinates" = VArr (map pair_value (first :: rest)) ->
  (N.of_nat (List.length (first :: rest)) <= max_arguments)%N ->
  primitive (member args "style") ->
  primitive (member args "width") ->
  primitive (member args "height") ->
  primitive (member args "route_polyline") ->
  proper x ->
  let box := member (IO.body (snd (get_route_map token s2n max_arguments body)))
               "bounding_box" in
  (Forall (fun p => fst p = x) (first :: rest) ->
   exists south north, box = VArr [VNum x; VNum south; VNum x; VNum north])
  /\ (Forall (fun p => snd p = x) (first :: rest) ->
      exists west east, box = VArr [VNum west; VNum x; VNum east; VNum x]).
Proof.
  intros Hargs Hc Hl Hs Hw Hh Hr Hx box; subst box.
  rewrite (get_route_map_runs token s2n max_arguments body args first rest
             Hargs Hc Hl Hs Hw Hh Hr).
  unfold route_map; cbn [snd IO.body member assoc String.eqb Ascii.eqb Bool.eqb].
  destruct (no_spread x Hx) as [Lo Hi].
  assert (E : forall f : float * float -> float,
             Forall (fun p => f p = x) (first :: rest) ->
             min_from PrimFloat.infinity (map f (first :: rest)) = x
             /\ max_from PrimFloat.neg_infinity (map f (first :: rest)) = x).
  { intros f H.
    assert (A : Forall (fun y => y = x) (map f (first :: rest))).
    { apply Forall_map; exact H. }
    assert (N : Forall (fun y => PrimFloat.is_nan y = false) (map f (first :: rest))).
    { revert A; apply Forall_impl; intros y ->; apply proper_number, Hx. }
    split.
    - apply (only_member x _ _ A), (min_from_infinity (f first) (map f rest) N).
    - apply (only_member x _ _ A), (max_from_neg_infinity (f first) (map f rest) N). }
  split; intros H; destruct (E _ H) as [-> ->]; unfold expanded; cbn [map];
    rewrite Lo, Hi; eexists _, _; reflexivity.
Qed.

(** With more points than a call can take arguments, the first spread
    fails. *)
Lemma get_route_map_overflows (body args : value) (first : float * float)
    (rest : list (float * float)) :
  request_arguments body = Ok args ->
  member args "coordinates" = VArr (map pair_value (first :: rest)) ->
  (max_arguments < N.of_nat (List.length (first :: rest)))%N ->
  primitive (member args "style") ->
  primitive (member args "route_polyline") ->
  get_route_map token s2n max_arguments body
  = ([], {| status := 500;
            body := VObj [("success", VBool false);
                          ("error", VStr "Maximum call stack size exceeded")] |}).
Proof.
  intros Hargs Hc Hl Hs Hr.
  unfold get_route_map, handle, get_route_map_try.
  rewrite lift_bind, Hargs.
  unfold get_route_map_with, destructurable.
  rewrite (request_arguments_defined _ _ Hargs), !lift_bind, Hc.
  rewrite (to_string_primitive _ (primitive_default (VStr "mapbox/streets-v12") _ I Hs)).
  rewrite lift_bind.
  change (get (VArr (map pair_value (first :: rest))) "0") with (Ok (pair_value first)).
  cbv beta iota; rewrite lift_bind; unfold last_element; rewrite last_map, lift_bind.
  rewrite !pin_pair, !lift_bind.
  unfold route_overlay, encodeURIComponent; rewrite (to_string_primitive _ Hr).
  assert (B : padded_box s2n max_arguments (map (fun p => VNum (fst p)) (first :: rest))
                (map (fun p => VNum (snd p)) (first :: rest))
              = Throw (RangeError "Maximum call stack size exceeded")).
  { unfold padded_box; rewrite spread_long by (rewrite length_map; exact Hl).
    reflexivity. }
  destruct (truthy (member args "route_polyline")); cbn [rbind]; cbv beta iota;
    rewrite lift_bind, component_first, lift_bind, component_second, lift_bind, B;
    reflexivity.
Qed.

(** X24.  A route of more points than the engine lets a call take
    arguments is refused: with [style] and [route_polyline] left out or
    given as strings or numbers, [get_route_map] builds the pins and the
    overlay, fails on [Math.min(...lons)] and answers 500 with the
    [RangeError] of the spread, without a bounding box. *)
Theorem long_routes_are_refused (body args : value) (first : float * float)
    (rest : list (float * float)) :
  request_arguments body = Ok args ->
  member args "coordinates" = VArr (map pair_value (first :: rest)) ->
  (max_arguments < N.of_nat (List.length (first :: rest)))%N ->
  primitive (member args "style") ->
  primitive (member args "route_polyline") ->
  get_route_map token s2n max_arguments body
  = ([], {| status := 500;
            body := VObj [("success", VBool false);
                          ("error", VStr "Maximum call stack size exceeded")] |})
  /\ member (IO.body (snd (get_route_map token s2n max_arguments body))) "bounding_box"
     = VUndef.
Proof.
  intros Hargs Hc Hl Hs Hr.
  rewrite (get_route_map_overflows body args first rest Hargs Hc Hl Hs Hr).
  split; reflexivity.
Qed.

End Flat.

Lemma aligned_points_give_a_flat_box_witness :
  member (IO.body (snd (get_route_map example_token no_strings example_limit
                          (VObj [("coordinates",
                                  VArr [VArr [VNum (-73.985); VNum 40.758]])]))))
         "bounding_box"
  = VArr [VNum (-73.985); VNum 40.758; VNum (-73.985); VNum 40.758].
Proof.
  destruct (aligned_points_give_a_flat_box example_token no_strings example_limit
              (VObj [("coordinates", VArr [VArr [VNum (-73.985); VNum 40.758]])])
              (VObj [("coordinates", VArr [VArr [VNum (-73.985); VNum 40.758]])])
              ((-73.985)%float, 40.758%float) [] (-73.985) eq_refl eq_refl
              ltac:(vm_compute; discriminate) I I I I
              (conj eq_refl eq_refl)) as [H _].
  destruct (H ltac:(repeat constructor)) as [south [north E]].
  rewrite E; vm_compute in E; injection E as <- <-; reflexivity.
Defined.



(** An engine that lets a call take a single argument refuses the route
    between two points. *)
Lemma long_routes_are_refused_witness :
  get_route_map example_token no_strings 1 (VObj [("coordinates", two_points)])
  = ([], {| status := 500;
            body := VObj [("success", VBool false);
                          ("error", VStr "Maximum call stack size exceeded")] |}).
Proof.
  exact (proj1 (long_routes_are_refused example_token no_strings 1
                  (VObj [("coordinates", two_points)])
                  (VObj [("coordinates", two_points)])
                  ((-74)%float, 40%float) [((-73)%float, 41%float)] eq_refl eq_refl
                  ltac:(vm_compute; reflexivity) I I)).
Defined.

Section Unprintable.

Variable token : string.
Variable s2n : string -> float.
Variable max_arguments : N.
Variable w : world.
Variable sf : bool.

(** X25.  The two handlers that build an image URL print [style] first:
    a [style] that is an object with a [toString] field of its own, which
    JSON cannot make a function, fails the conversion, and the handler
    answers 500 with that [TypeError] whatever else the request holds. *)
Theorem unprintable_style_is_refused (ep : endpoint) (body args : value)
    (fields : list (string * value)) :
  ep = GetStaticImage \/ ep = GetRouteMap ->
  request_arguments body = Ok args ->
  member args "style" = VObj fields ->
  has_own "toString" fields = true ->
  handler token s2n max_arguments w sf ep body
  = ([], {| status := 500;
            body := VObj [("success", VBool false);
                          ("error",
                           VStr "Cannot convert object to primitive value")] |}).
Proof.
  intros Hep Hargs Hs Ho.
  rewrite (handler_on token s2n max_arguments w sf ep body args Hargs).
  pose proof (request_arguments_defined _ _ Hargs) as N.
  destruct Hep as [-> | ->]; cbn [try_with catch_block];
    unfold handle, get_static_image_with, get_route_map_with, destructurable;
    rewrite N, !lift_bind, Hs; cbn [default_to to_string]; rewrite Ho; reflexivity.
Qed.

End Unprintable.

Lemma unprintable_style_is_refused_witness :
  handler example_token no_strings example_limit routing false GetStaticImage
    (VObj [("style", VObj [("toString", VNum 1)])])
  = ([], {| status := 500;
            body := VObj [("success", VBool false);
                          ("error",
                           VStr "Cannot convert object to primitive value")] |}).
Proof.
  exact (unprintable_style_is_refused example_token no_strings example_limit routing
           false GetStaticImage
           (VObj [("style", VObj [("toString", VNum 1)])])
           (VObj [("style", VObj [("toString", VNum 1)])])
           [("toString", VNum 1)] (or_introl eq_refl) eq_refl eq_refl eq_refl).
Defined.

End Gateway.

(** ** The bridge ([src/http-bridge/src/index.js]) *)

Module Bridge.
Import JS IO.
Local Open Scope io_scope.

Definition MESSAGES_URL : string := "https://api.anthropic.com/v1/messages".

Definition newline : string := String (ascii_of_nat 10) EmptyString.

(** The system prompt is a template literal whose continuation lines carry
    the indentation of the source: 15 spaces in the first call, 17 in the
    follow-up calls. *)
Definition system_prompt (indent : nat) : string :=
  join_strings (newline ++ repeat_string " " indent)
    ["You are a helpful AI assistant with access to Mapbox mapping and location services. You can help with:";
     "- Geocoding: Convert addresses to coordinates and vice versa";
     "- Directions: Get driving, walking, or cycling routes between locations";
     "- Static Maps: Generate map images with markers and custom styling";
     "- Route Maps: Generate visual route maps showing start/end points and route paths";
     "- Matrix: Calculate travel times and distances between multiple points";
     "";
     "When users ask to " ++ dquote ++ "show" ++ dquote ++ " a route or want to " ++ dquote ++ "see" ++ dquote ++ " directions, first use get_directions to get route details, then use get_route_map with the same coordinates and the polyline from the directions response to create visual maps.";
     "IMPORTANT: When you use get_route_map or get_static_image tools, always include the image_url from the response in your final answer so users can see the map. Simply include the full URL in your response text.";
     "Always provide helpful, accurate responses about mapping and location-based queries.";
     "When using tools, explain what you're doing and interpret the results clearly for the user.";
     "Image URLs from Mapbox will be automatically displayed as images in the chat interface."].

(** The [tool_result] block of a call that returned [data]. *)
Definition tool_result (block data : value) : value :=
  VObj [("type", VStr "tool_result");
        ("tool_use_id", member block "id");
        ("content", JSON_stringify data)].

(** The [tool_result] block of a call that threw [error], for a block whose
    name prints as [name]. *)
Definition tool_error (block : value) (name : string) (error : exn) : value :=
  VObj [("type", VStr "tool_result");
        ("tool_use_id", member block "id");
        ("content", VStr ("Error calling tool " ++ name ++ ": " ++ message error));
        ("is_error", VBool true)].

(** [block.type === 'tool_use']. *)
Definition is_tool_use (block : value) : result bool :=
  rbind (get block "type") (fun type => Ok (equals_string type "tool_use")).

(** [{ role, content }]. *)
Definition chat_message (role : string) (content : value) : value :=
  VObj [("role", VStr role); ("content", content)].

(** The object built from each tool of the gateway's catalog. *)
Definition tool_descriptor (tool : value) : result value :=
  rbind (get tool "name") (fun name =>
  Ok (VObj [("name", name);
            ("description", member tool "description");
            ("input_schema", member tool "inputSchema")])).

(** The [TypeError] of an assignment to a property of a primitive, the
    module being strict code. *)
Definition cannot_create {A} (k kind printed : string) : result A :=
  Throw (TypeError ("Cannot create property '" ++ k ++ "' on " ++ kind
                      ++ " '" ++ printed ++ "'")).

(** [total.k += usage.k || 0]: the old value is read, the sum is made, and
    the property is set.  A named property set on an array has no place in
    [value] and is dropped.  In the source [totalUsage] is the [usage]
    object of the first response, updated in place; nothing reads that
    object under another name afterwards, so the updated value is simply
    passed along. *)
Definition add_tokens (k : string) (usage total : value) : result value :=
  rbind (get total k) (fun old =>
  rbind (plus old (or_else (member usage k) (VNum 0))) (fun sum =>
  match total with
  | VObj fs => Ok (VObj (set_field k sum fs))
  | VBool b => cannot_create k "boolean" (if b then "true" else "false")
  | VNum x => cannot_create k "number" (number_to_string x)
  | VStr s => cannot_create k "string" s
  | _ => Ok total
  end)).

(** The [if (followUpResponse.data.usage) { ... }] of the loop. *)
Definition accumulate_usage (data totalUsage : value) : result value :=
  rbind (get data "usage") (fun usage =>
  if truthy usage
  then rbind (add_tokens "input_tokens" usage totalUsage)
             (add_tokens "output_tokens" usage)
  else Ok totalUsage).

(** How the handling of one request ends: with a response, with an
    exception thrown outside the [try] (the handler's promise is rejected
    and nothing is sent), or, in this model only, with the fuel of the loop
    used up. *)
Inductive outcome : Type :=
| Responded (r : response)
| Uncaught (e : exn)
| Unfinished.

Section Chat.

Variable MCP_SERVER_URL : string.
Variable net : world.

(** [initializeMCPTools], lines 55-74: the new value of the global
    [availableTools], unchanged when anything fails. *)
Definition initializeMCPTools (availableTools : list value) : M (list value) :=
  try_catch
    (data <- axios net (Get (MCP_SERVER_URL ++ "/tools")) ;;
     tools <- lift (get data "tools") ;;
     mapped <- lift (method_map "response.data.tools" tools tool_descriptor) ;;
     lift (iterate "availableTools" mapped))
    (fun _ => ret availableTools).

(** The body of the [for] loop of [handleToolCalls], lines 235-265.  The
    name of the block is first printed for the log, outside the [try]; what
    that throws leaves [handleToolCalls]. *)
Definition call_tool (block : value) : M (list value) :=
  use <- lift (is_tool_use block) ;;
  if (use : bool) then
    name <- lift (to_string (member block "name")) ;;
    try_catch
      (data <- axios net (Post (MCP_SERVER_URL ++ "/" ++ name)
                            (VObj [("arguments", member block "input")])) ;;
       ret [tool_result block data])
      (fun error => ret [tool_error block name error])
  else ret [].

Fixpoint call_tools (blocks : list value) : M (list value) :=
  match blocks with
  | [] => ret []
  | block :: blocks' =>
      results <- call_tool block ;;
      results' <- call_tools blocks' ;;
      ret (results ++ results')%list
  end.

(** [handleToolCalls], lines 231-269. *)
Definition handleToolCalls (content : value) : M value :=
  blocks <- lift (iterate "content" content) ;;
  toolResults <- call_tools blocks ;;
  ret (VArr toolResults).

(** [finalResponse.content.some(block => block.type === 'tool_use')]. *)
Definition wants_tools (finalResponse : value) : result bool :=
  rbind (get finalResponse "content") (fun content =>
  method_some "finalResponse.content" content is_tool_use).

Definition first_payload (availableTools : list value) (messages : list value) : value :=
  VObj ([("model", VStr "claude-sonnet-4-20250514");
         ("max_tokens", VNum 2000);
         ("messages", VArr messages);
         ("system", VStr (system_prompt 15))]
        ++ (if Nat.ltb 0 (List.length availableTools)
            then [("tools", VArr availableTools);
                  ("tool_choice", VObj [("type", VStr "auto")])]
            else []))%list.

Definition follow_up_payload (availableTools : list value) (messages : list value)
  : value :=
  VObj [("model", VStr "claude-sonnet-4-20250514");
        ("max_tokens", VNum 2000);
        ("messages", VArr messages);
        ("tools", VArr availableTools);
        ("system", VStr (system_prompt 17))].

(** One turn of the [while] body, lines 157-202: the tool calls, the two
    appended messages, the follow-up model call and the usage counters. *)
Definition tool_round (availableTools : list value)
    (currentMessages : list value) (finalResponse totalUsage : value)
  : M (list value * value * value) :=
  content <- lift (get finalResponse "content") ;;
  toolResults <- handleToolCalls content ;;
  let currentMessages :=
    (currentMessages
     ++ [chat_message "assistant" content; chat_message "user" toolResults])%list in
  data <- axios net (Post MESSAGES_URL (follow_up_payload availableTools currentMessages)) ;;
  totalUsage <- lift (accumulate_usage data totalUsage) ;;
  ret (currentMessages, data, totalUsage).

(** The [while] loop, lines 156-203.  The source puts no bound on it;
    [fuel] bounds the rounds, and [None] tells that it ran out. *)
Fixpoint tool_loop (fuel : nat) (availableTools : list value)
    (currentMessages : list value) (finalResponse totalUsage : value)
  : M (option (value * value)) :=
  again <- lift (wants_tools finalResponse) ;;
  if (again : bool) then
    match fuel with
    | O => ret None
    | S fuel' =>
        '(currentMessages, finalResponse, totalUsage) <-
          tool_round availableTools currentMessages finalResponse totalUsage ;;
        tool_loop fuel' availableTools currentMessages finalResponse totalUsage
    end
  else ret (Some (finalResponse, totalUsage)).

(** The [try] block of [POST /api/chat], lines 108-215. *)
Definition chat_try (fuel : nat) (availableTools : list value)
    (message conversationHistory : value) : M (option response) :=
  history <- lift (iterate "conversationHistory" conversationHistory) ;;
  let messages := (history ++ [chat_message "user" message])%list in
  data <- axios net (Post MESSAGES_URL (first_payload availableTools messages)) ;;
  totalUsage <- lift (get data "usage") ;;
  final <- tool_loop fuel availableTools messages data totalUsage ;;
  match final with
  | None => ret None
  | Some (finalResponse, totalUsage) =>
      content <- lift (get finalResponse "content") ;;
      ret (Some (json 200
                   (VObj [("response", content);
                          ("conversationHistory",
                           VArr (history ++ [chat_message "user" message;
                                             chat_message "assistant" content]));
                          ("usage", totalUsage)])))
  end.

(** The [catch] block, lines 217-227. *)
Definition chat_catch (error : exn) : response :=
  let status_is (code : N) :=
    match error with
    | AxiosError _ (Some (st, _)) => N.eqb st code
    | _ => false
    end in
  if status_is 401%N then json 401 (VObj [("error", VStr "Invalid API key")])
  else if status_is 429%N then json 429 (VObj [("error", VStr "Rate limit exceeded")])
  else json 500 (VObj [("error", VStr "Failed to process chat message")]).

(** [if (availableTools.length === 0) await initializeMCPTools()], lines
    104-106: the calls made and the value [availableTools] is left with. *)
Definition ensure_tools (availableTools : list value) : trace * list value :=
  if Nat.eqb (List.length availableTools) 0
  then match initializeMCPTools availableTools [] with
       | (tr, Ok tools) => (tr, tools)
       | (tr, Throw _) => (tr, availableTools)
       end
  else ([], availableTools).

(** The handler of [POST /api/chat], lines 96-228, as it runs once the
    middleware in front of it has let the request through: the trace of
    outbound calls, the value the global [availableTools] is left with, and
    the outcome. *)
Definition api_chat (fuel : nat) (availableTools : list value) (body : value)
  : trace * (list value * outcome) :=
  match destructurable "message" "req.body" body with
  | Throw e => ([], (availableTools, Uncaught e))
  | Ok _ =>
      let message := member body "message" in
      let conversationHistory := default_to (VArr []) (member body "conversationHistory") in
      if negb (truthy message) || negb (is_string message) then
        ([], (availableTools,
              Responded (json 400 (VObj [("error",
                                          VStr "Message is required and must be a string")]))))
      else
        let '(tr, availableTools) := ensure_tools availableTools in
        match chat_try fuel availableTools message conversationHistory tr with
        | (tr', Ok (Some r)) => (tr', (availableTools, Responded r))
        | (tr', Ok None) => (tr', (availableTools, Unfinished))
        | (tr', Throw e) => (tr', (availableTools, Responded (chat_catch e)))
        end
  end.

End Chat.

(** *** Reading a trace *)

(** A call to the model API. *)
Definition is_model_call (ev : event) : bool :=
  match fst ev with
  | Post url _ => url =? MESSAGES_URL
  | Get _ => false
  end.

Definition model_calls (tr : trace) : list event := filter is_model_call tr.

(** [block.type === 'tool_use'] on a block that is an object. *)
Definition uses_tool (block : value) : bool :=
  equals_string (member block "type") "tool_use".

(** A block of a model response as the handler needs it: an object, whose
    [name], when it is a tool-use block, is a string (or another value that
    prints). *)
Definition well_formed_block (block : value) : Prop :=
  is_nullish block = false
  /\ (uses_tool block = true -> primitive (member block "name")).

(** *** The terms of the specification *)

(** An entry of the message list. *)
Definition entry (role : string) (content : value) : value :=
  VObj [("role", VStr role); ("content", content)].

(** The follow-up request of a round. *)
Definition follow_up_request (tools messages : list value) : request :=
  Post MESSAGES_URL
    (VObj [("model", VStr "claude-sonnet-4-20250514");
           ("max_tokens", VNum 2000);
           ("messages", VArr messages);
           ("tools", VArr tools);
           ("system", VStr (system_prompt 17))]).

(** The first request of a chat: [tools] and [tool_choice] only with a
    catalog that is not empty. *)
Definition first_request (tools messages : list value) : request :=
  Post MESSAGES_URL
    (VObj ([("model", VStr "claude-sonnet-4-20250514");
            ("max_tokens", VNum 2000);
            ("messages", VArr messages);
            ("system", VStr (system_prompt 15))]
           ++ match tools with
              | [] => []
              | _ => [("tools", VArr tools);
                      ("tool_choice", VObj [("type", VStr "auto")])]
              end)%list).

Section Round.

Variable MCP_SERVER_URL : string.
Variable net : world.

(** The call the specification asks for each tool-use block: a POST to the
    gateway endpoint named by the block, with body [{arguments: input}]. *)
Definition tool_request (block : value) : request :=
  Post (MCP_SERVER_URL ++ "/" ++ text (member block "name"))
       (VObj [("arguments", member block "input")]).

(** The block handed back to the model for it: the result, or an
    error-flagged block when the call failed. *)
Definition tool_outcome (block : value) (a : answer) : value :=
  match a with
  | Answered data =>
      VObj [("type", VStr "tool_result");
            ("tool_use_id", member block "id");
            ("content", JSON_stringify data)]
  | Failed m _ =>
      VObj [("type", VStr "tool_result");
            ("tool_use_id", member block "id");
            ("content", VStr ("Error calling tool " ++ text (member block "name")
                                ++ ": " ++ m));
            ("is_error", VBool true)]
  end.

(** One exchange per tool-use block, in order, each answered by the world
    after the exchanges before it, paired with the block handed back. *)
Fixpoint tool_exchanges (tr : trace) (uses : list value) : list (event * value) :=
  match uses with
  | [] => []
  | block :: uses' =>
      let a := net tr (tool_request block) in
      ((tool_request block, a), tool_outcome block a)
        :: tool_exchanges (tr ++ [(tool_request block, a)])%list uses'
  end.

End Round.

(** *** Properties of the chat handler *)

Lemma bind_lift {A B} (r : result A) (k : A -> M B) (tr : trace) :
  bind (lift r) k tr = match r with
                       | Ok a => k a tr
                       | Throw e => (tr, Throw e)
                       end.
Proof. destruct r; reflexivity. Qed.

Lemma first_payload_request tools messages :
  Post MESSAGES_URL (first_payload tools messages) = first_request tools messages.
Proof. destruct tools; reflexivity. Qed.

Lemma is_tool_use_object block :
  is_nullish block = false -> is_tool_use block = Ok (uses_tool block).
Proof. intros N; unfold is_tool_use, get; rewrite N; reflexivity. Qed.

Lemma uses_tool_false block :
  uses_tool block = false <-> member block "type" <> VStr "tool_use".
Proof.
  unfold uses_tool, equals_string; destruct (member block "type") as [| | b | x | s | l | fs];
    try (split; [discriminate | reflexivity]).
  split.
  - intros E H; injection H as ->; discriminate E.
  - intros H; destruct (s =? "tool_use") eqn:E; [| reflexivity].
    apply String.eqb_eq in E; subst s; destruct (H eq_refl).
Qed.

Lemma some_of_objects blocks :
  Forall (fun b => is_nullish b = false) blocks ->
  some_of is_tool_use blocks = Ok (existsb uses_tool blocks).
Proof.
  induction 1 as [| b l Hb _ IH]; [reflexivity |].
  simpl; rewrite (is_tool_use_object b Hb); simpl.
  destruct (uses_tool b); [reflexivity | exact IH].
Qed.

(** A search for tool-use blocks that finds none went through a list of
    objects, none of them a tool-use block. *)
Lemma some_of_none blocks :
  some_of is_tool_use blocks = Ok false ->
  Forall (fun b => is_nullish b = false) blocks
  /\ Forall (fun b => member b "type" <> VStr "tool_use") blocks.
Proof.
  induction blocks as [| b blocks IH]; [split; constructor |].
  cbn [some_of]; unfold is_tool_use at 1, get.
  destruct (is_nullish b) eqn:N; [discriminate |]; cbn [rbind].
  destruct (equals_string (member b "type") "tool_use") eqn:E; [discriminate |].
  intros H; destruct (IH H) as [H1 H2]; split; constructor; try assumption.
  apply uses_tool_false; exact E.
Qed.

Lemma wants_tools_none data :
  wants_tools data = Ok false ->
  exists blocks,
    member data "content" = VArr blocks
    /\ Forall (fun b => is_nullish b = false) blocks
    /\ Forall (fun b => member b "type" <> VStr "tool_use") blocks.
Proof.
  unfold wants_tools, get; destruct (is_nullish data); [discriminate |]; cbn [rbind].
  destruct (member data "content") as [| | b | x | s | blocks | fs]; try discriminate.
  cbn [method_some]; intros H; exists blocks; split; [reflexivity | apply some_of_none, H].
Qed.

Lemma no_tool_use blocks :
  Forall (fun b => member b "type" <> VStr "tool_use") blocks ->
  existsb uses_tool blocks = false.
Proof.
  induction 1 as [| b l Hb _ IH]; [reflexivity |].
  cbn [existsb]; rewrite (proj2 (uses_tool_false b) Hb); exact IH.
Qed.

Lemma model_calls_app tr1 tr2 :
  model_calls (tr1 ++ tr2)%list = (model_calls tr1 ++ model_calls tr2)%list.
Proof. apply filter_app. Qed.

(** Computations only ever add to the trace. *)
Definition extends {A} (m : M A) : Prop :=
  forall tr, exists more, fst (m tr) = (tr ++ more)%list.

Lemma extends_ret {A} (a : A) : extends (ret a).
Proof. intros tr; exists []; cbn; rewrite app_nil_r; reflexivity. Qed.

Lemma extends_lift {A} (r : result A) : extends (lift r).
Proof. intros tr; exists []; cbn; rewrite app_nil_r; reflexivity. Qed.

Lemma extends_bind {A B} (m : M A) (k : A -> M B) :
  extends m -> (forall a, extends (k a)) -> extends (bind m k).
Proof.
  intros Hm Hk tr; destruct (Hm tr) as [more1 E1]; unfold bind.
  destruct (m tr) as [tr1 [a | e]]; cbn [fst] in E1; subst tr1.
  - destruct (Hk a (tr ++ more1)%list) as [more2 E2].
    exists (more1 ++ more2)%list; rewrite E2, app_assoc; reflexivity.
  - exists more1; reflexivity.
Qed.

Lemma extends_try_catch {A} (m : M A) (h : exn -> M A) :
  extends m -> (forall e, extends (h e)) -> extends (try_catch m h).
Proof.
  intros Hm Hh tr; destruct (Hm tr) as [more1 E1]; unfold try_catch.
  destruct (m tr) as [tr1 [a | e]]; cbn [fst] in E1; subst tr1.
  - exists more1; reflexivity.
  - destruct (Hh e (tr ++ more1)%list) as [more2 E2].
    exists (more1 ++ more2)%list; rewrite E2, app_assoc; reflexivity.
Qed.

Lemma extends_axios net r : extends (axios net r).
Proof. intros tr; exists [(r, net tr r)]; reflexivity. Qed.

Create HintDb traces.

#[local] Hint Resolve extends_ret extends_lift extends_axios : traces.

Section ChatProperties.

Variable MCP_SERVER_URL : string.
Variable net : world.

Lemma initializeMCPTools_trace tools :
  fst (initializeMCPTools MCP_SERVER_URL net tools [])
  = [(Get (MCP_SERVER_URL ++ "/tools"), net [] (Get (MCP_SERVER_URL ++ "/tools")))].
Proof.
  unfold initializeMCPTools, try_catch, bind, axios, lift, ret; simpl.
  destruct (settle _) as [data | e]; [| reflexivity].
  destruct (get data "tools") as [t | e]; [| reflexivity].
  destruct (method_map _ t _) as [m | e]; [| reflexivity].
  destruct (iterate _ m); reflexivity.
Qed.

Lemma ensure_tools_no_model_call tools :
  model_calls (fst (ensure_tools MCP_SERVER_URL net tools)) = [].
Proof.
  unfold ensure_tools; destruct (Nat.eqb _ 0); [| reflexivity].
  pose proof (initializeMCPTools_trace tools) as E.
  destruct (initializeMCPTools _ _ _ _) as [tr [l | e]]; simpl in *; subst tr; reflexivity.
Qed.

Lemma wants_tools_objects data blocks :
  member data "content" = VArr blocks ->
  Forall (fun b => is_nullish b = false) blocks ->
  wants_tools data = Ok (existsb uses_tool blocks).
Proof.
  intros Hc Hb; unfold wants_tools, get.
  rewrite (member_defined data "content") by (rewrite Hc; discriminate).
  cbn [rbind]; rewrite Hc; apply some_of_objects, Hb.
Qed.

Lemma call_tool_exchange block tr :
  well_formed_block block ->
  call_tool MCP_SERVER_URL net block tr
  = if uses_tool block
    then let a := net tr (tool_request MCP_SERVER_URL block) in
         ((tr ++ [(tool_request MCP_SERVER_URL block, a)])%list,
          Ok [tool_outcome block a])
    else (tr, Ok []).
Proof.
  intros [N P]; unfold call_tool; rewrite bind_lift, (is_tool_use_object block N).
  destruct (uses_tool block); [| reflexivity].
  rewrite bind_lift, (to_string_primitive _ (P eq_refl)).
  unfold try_catch, bind, axios, ret, tool_request.
  destruct (net tr _); reflexivity.
Qed.

(** What [call_tools] does on well-formed blocks. *)
Lemma call_tools_exchanges blocks : forall tr,
  Forall well_formed_block blocks ->
  let exchanges := tool_exchanges MCP_SERVER_URL net tr (filter uses_tool blocks) in
  call_tools MCP_SERVER_URL net blocks tr
  = ((tr ++ map fst exchanges)%list, Ok (map snd exchanges)).
Proof.
  induction blocks as [| b blocks IH]; intros tr H.
  - cbn; unfold ret; rewrite app_nil_r; reflexivity.
  - inversion H as [| ? ? Hb Hbs]; subst.
    cbn [call_tools filter]; unfold bind at 1.
    rewrite (call_tool_exchange b tr Hb).
    destruct (uses_tool b).
    + cbv zeta; unfold bind; rewrite (IH _ Hbs); unfold ret.
      cbn [tool_exchanges map fst snd app]; rewrite <- app_assoc; reflexivity.
    + unfold bind; rewrite (IH _ Hbs); reflexivity.
Qed.

(** One turn of the loop on a response whose content is a list of
    well-formed blocks. *)
Lemma tool_round_exchanges tools cur final usage blocks tr :
  member final "content" = VArr blocks ->
  Forall well_formed_block blocks ->
  let exchanges := tool_exchanges MCP_SERVER_URL net tr (filter uses_tool blocks) in
  let messages := (cur ++ [entry "assistant" (VArr blocks);
                           entry "user" (VArr (map snd exchanges))])%list in
  let follow_up := follow_up_request tools messages in
  let reply := net (tr ++ map fst exchanges)%list follow_up in
  tool_round MCP_SERVER_URL net tools cur final usage tr
  = ((tr ++ map fst exchanges ++ [(follow_up, reply)])%list,
     match reply with
     | Answered data =>
         match accumulate_usage data usage with
         | Ok usage' => Ok (messages, data, usage')
         | Throw e => Throw e
         end
     | Failed m r => Throw (AxiosError m r)
     end).
Proof.
  intros Hc Hb exchanges messages follow_up reply.
  unfold tool_round; rewrite bind_lift; unfold get.
  rewrite (member_defined final "content") by (rewrite Hc; discriminate).
  rewrite Hc; unfold bind at 1, handleToolCalls.
  rewrite bind_lift; cbn [iterate]; unfold bind at 1.
  rewrite (call_tools_exchanges blocks tr Hb); fold exchanges.
  unfold ret at 1; unfold bind at 1, axios.
  change (Post MESSAGES_URL
            (follow_up_payload tools
               (cur ++ [chat_message "assistant" (VArr blocks);
                        chat_message "user" (VArr (map snd exchanges))])%list))
    with follow_up.
  fold reply; rewrite <- app_assoc.
  destruct reply as [data | m r]; cbn [settle]; [| reflexivity].
  rewrite bind_lift; destruct (accumulate_usage data usage); reflexivity.
Qed.

Lemma tool_loop_unfold fuel tools cur final usage tr :
  tool_loop MCP_SERVER_URL net fuel tools cur final usage tr
  = match wants_tools final with
    | Throw e => (tr, Throw e)
    | Ok false => (tr, Ok (Some (final, usage)))
    | Ok true =>
        match fuel with
        | O => (tr, Ok None)
        | S fuel' =>
            match tool_round MCP_SERVER_URL net tools cur final usage tr with
            | (tr', Ok (cur', final', usage')) =>
                tool_loop MCP_SERVER_URL net fuel' tools cur' final' usage' tr'
            | (tr', Throw e) => (tr', Throw e)
            end
        end
    end.
Proof.
  destruct fuel; cbn [tool_loop]; rewrite bind_lift;
    destruct (wants_tools final) as [[|] | e]; try reflexivity.
  unfold bind; destruct (tool_round _ _ _ _ _ _ _) as [tr' [[[c f] u] | e]]; reflexivity.
Qed.

(** A turn that completes ends the trace with the model call it made. *)
Lemma tool_round_last tools cur final usage tr tr' cur' data usage' :
  tool_round MCP_SERVER_URL net tools cur final usage tr = (tr', Ok (cur', data, usage')) ->
  exists earlier payload,
    tr' = (earlier ++ [(Post MESSAGES_URL payload, Answered data)])%list.
Proof.
  unfold tool_round; rewrite bind_lift.
  destruct (get final "content") as [content | e]; [| discriminate].
  unfold bind at 1.
  destruct (handleToolCalls _ _ content tr) as [tr1 [results | e]]; [| discriminate].
  unfold bind at 1, axios.
  destruct (net tr1 _) as [d | m r] eqn:A; cbn [settle]; [| discriminate].
  rewrite bind_lift; destruct (accumulate_usage d usage); [| discriminate].
  unfold ret; intros H; inversion H; subst; eauto.
Qed.

(** When the loop ends, the response it ends with asks for no tool and is
    either the one it started with or the answer to the last call made. *)
Lemma tool_loop_last fuel : forall tools cur final usage tr tr' final' usage',
  tool_loop MCP_SERVER_URL net fuel tools cur final usage tr
  = (tr', Ok (Some (final', usage'))) ->
  wants_tools final' = Ok false
  /\ ((tr' = tr /\ final' = final /\ usage' = usage)
      \/ exists earlier payload,
           tr' = (earlier ++ [(Post MESSAGES_URL payload, Answered final')])%list).
Proof.
  induction fuel as [| fuel IH]; intros tools cur final usage tr tr' final' usage';
    rewrite tool_loop_unfold; destruct (wants_tools final) as [[|] | e] eqn:W;
    try discriminate;
    try (intros H; inversion H; subst; split; [exact W | left; auto]).
  destruct (tool_round _ _ _ _ _ _ _) as [tr1 [[[c f] u] | e]] eqn:R; [| discriminate].
  intros H; destruct (IH _ _ _ _ _ _ _ _ H) as [W' [[-> [-> _]] | L]].
  - split; [exact W' | right; eapply tool_round_last; exact R].
  - split; [exact W' | right; exact L].
Qed.

Lemma chat_try_unfold fuel tools message history tr :
  chat_try MCP_SERVER_URL net fuel tools message (VArr history) tr
  = let messages := (history ++ [entry "user" message])%list in
    let first := first_request tools messages in
    let tr1 := (tr ++ [(first, net tr first)])%list in
    match net tr first with
    | Failed m r => (tr1, Throw (AxiosError m r))
    | Answered data =>
        match get data "usage" with
        | Throw e => (tr1, Throw e)
        | Ok usage =>
            match tool_loop MCP_SERVER_URL net fuel tools messages data usage tr1 with
            | (tr2, Throw e) => (tr2, Throw e)
            | (tr2, Ok None) => (tr2, Ok None)
            | (tr2, Ok (Some (final, total))) =>
                match get final "content" with
                | Throw e => (tr2, Throw e)
                | Ok content =>
                    (tr2,
                     Ok (Some
                           {| status := 200;
                              body :=
                                VObj [("response", content);
                                      ("conversationHistory",
                                       VArr (history
                                             ++ [entry "user" message;
                                                 entry "assistant" content]));
                                      ("usage", total)] |}))
                end
            end
        end
    end.
Proof.
  unfold chat_try; rewrite bind_lift; cbn [iterate]; cbv zeta.
  rewrite <- first_payload_request.
  unfold bind at 1, axios.
  destruct (net tr _) as [data | m r]; cbn [settle]; [| reflexivity].
  rewrite bind_lift; destruct (get data "usage") as [usage | e]; [| reflexivity].
  unfold bind at 1.
  destruct (tool_loop _ _ _ _ _ _ _ _) as [tr2 [[[final total] |] | e]]; reflexivity.
Qed.

Lemma chat_catch_status e : status (chat_catch e) <> 200%N.
Proof.
  unfold chat_catch.
  destruct e as [m | m | m [[st data] |]]; cbv beta zeta; try discriminate.
  destruct (N.eqb st 401); [discriminate |].
  destruct (N.eqb st 429); discriminate.
Qed.

Lemma extends_call_tools blocks : extends (call_tools MCP_SERVER_URL net blocks).
Proof.
  induction blocks as [| b blocks IH]; cbn [call_tools]; [auto with traces |].
  apply extends_bind.
  - unfold call_tool; apply extends_bind; [auto with traces | intros [|]];
      [| auto with traces].
    apply extends_bind; [auto with traces | intros name].
    apply extends_try_catch; [| auto with traces].
    apply extends_bind; auto with traces.
  - intros results; apply extends_bind; [exact IH | auto with traces].
Qed.

Lemma extends_tool_round tools cur final usage :
  extends (tool_round MCP_SERVER_URL net tools cur final usage).
Proof.
  unfold tool_round, handleToolCalls.
  repeat (apply extends_bind; [auto using extends_call_tools with traces | intros ?]);
    auto using extends_call_tools with traces.
Qed.

Lemma extends_tool_loop fuel : forall tools cur final usage,
  extends (tool_loop MCP_SERVER_URL net fuel tools cur final usage).
Proof.
  induction fuel as [| fuel IH]; intros tools cur final usage; cbn [tool_loop];
    (apply extends_bind; [auto with traces | intros [|]]); auto with traces.
  apply extends_bind; [apply extends_tool_round | intros [[c f] u]; apply IH].
Qed.

Lemma get_member v k x : get v k = Ok x -> x = member v k.
Proof. unfold get; destruct (is_nullish v); [discriminate |]; intros H; inversion H; reflexivity. Qed.

(** C9.  However many rounds the loop takes, a request that is answered
    200 gets back the [conversationHistory] it sent followed by exactly two
    entries: [{role: 'user', content: message}], and
    [{role: 'assistant', content}] with the content of the last model
    response, the answer to the last call made, which holds no tool-use
    block and is also the [response]; none of the messages exchanged inside
    the loop is part of it. *)
Theorem history_gains_two_entries (fuel : nat) (tools : list value) (body : value)
    (history : list value) (tr : trace) (tools' : list value) (r : response) :
  default_to (VArr []) (member body "conversationHistory") = VArr history ->
  api_chat MCP_SERVER_URL net fuel tools body = (tr, (tools', Responded r)) ->
  status r = 200%N ->
  exists earlier payload data blocks usage,
    tr = (earlier ++ [(Post MESSAGES_URL payload, Answered data)])%list
    /\ member data "content" = VArr blocks
    /\ Forall (fun block => member block "type" <> VStr "tool_use") blocks
    /\ r = {| status := 200;
              body := VObj [("response", VArr blocks);
                            ("conversationHistory",
                             VArr (history
                                   ++ [VObj [("role", VStr "user");
                                             ("content", member body "message")];
                                       VObj [("role", VStr "assistant");
                                             ("content", VArr blocks)]]));
                            ("usage", usage)] |}.
Proof.
  intros Hh; unfold api_chat.
  destruct (destructurable _ _ body); [| discriminate].
  destruct (negb _ || negb _).
  { intros H; inversion H; subst; discriminate. }
  destruct (ensure_tools _ _ tools) as [tr0 tools0].
  rewrite Hh, chat_try_unfold; cbv zeta.
  destruct (net tr0 _) as [data | m e] eqn:A.
  2:{ intros H; inversion H; subst; intros S; destruct (chat_catch_status _ S). }
  destruct (get data "usage") as [usage | e].
  2:{ intros H; inversion H; subst; intros S; destruct (chat_catch_status _ S). }
  destruct (tool_loop _ _ _ _ _ _ _ _) as [tr2 [[[final total] |] | e]] eqn:L.
  2:{ discriminate. }
  2:{ intros H; inversion H; subst; intros S; destruct (chat_catch_status _ S). }
  destruct (get final "content") as [content | e] eqn:C.
  2:{ intros H; inversion H; subst; intros S; destruct (chat_catch_status _ S). }
  intros H _; inversion H; subst; clear H.
  apply get_member in C; subst content.
  destruct (tool_loop_last _ _ _ _ _ _ _ _ _ L) as [W X].
  destruct (wants_tools_none _ W) as [blocks [Hc [_ Hb]]]; rewrite Hc.
  destruct X as [[-> [-> _]] | [earlier [payload ->]]].
  - eexists tr0, _, data, blocks, total; repeat split; try eassumption; reflexivity.
  - exists earlier, payload, final, blocks, total; repeat split; assumption.
Qed.

Lemma api_chat_accepted fuel tools body text :
  member body "message" = VStr text ->
  text <> "" ->
  api_chat MCP_SERVER_URL net fuel tools body
  = let '(tr, tools') := ensure_tools MCP_SERVER_URL net tools in
    match chat_try MCP_SERVER_URL net fuel tools' (VStr text)
            (default_to (VArr []) (member body "conversationHistory")) tr with
    | (tr', Ok (Some r)) => (tr', (tools', Responded r))
    | (tr', Ok None) => (tr', (tools', Unfinished))
    | (tr', Throw e) => (tr', (tools', Responded (chat_catch e)))
    end.
Proof.
  intros Hm Ht; unfold api_chat, destructurable.
  rewrite (member_defined body "message") by (rewrite Hm; discriminate).
  rewrite Hm; cbn [truthy is_string negb orb].
  destruct (text =? "") eqn:E; [apply String.eqb_eq in E; contradiction | reflexivity].
Qed.

(** C3.  When the body has a string [message] and the first response of
    the model is a list of blocks none of which is a tool-use block, the
    handler makes exactly one call to the model API and answers 200 with
    [conversationHistory] equal to the one it received followed by
    [{role: 'user', content: message}] and [{role: 'assistant', content}],
    [content] being that response's. *)
Theorem chat_without_tools (fuel : nat) (tools : list value) (body : value)
    (text : string) (history blocks : list value) (first : request) (data : value) :
  member body "message" = VStr text ->
  default_to (VArr []) (member body "conversationHistory") = VArr history ->
  hd_error (model_calls (fst (api_chat MCP_SERVER_URL net fuel tools body)))
  = Some (first, Answered data) ->
  member data "content" = VArr blocks ->
  Forall (fun block => is_nullish block = false) blocks ->
  Forall (fun block => member block "type" <> VStr "tool_use") blocks ->
  List.length (model_calls (fst (api_chat MCP_SERVER_URL net fuel tools body))) = 1
  /\ snd (snd (api_chat MCP_SERVER_URL net fuel tools body))
     = Responded
         {| status := 200;
            body := VObj [("response", VArr blocks);
                          ("conversationHistory",
                           VArr (history
                                 ++ [VObj [("role", VStr "user");
                                           ("content", VStr text)];
                                     VObj [("role", VStr "assistant");
                                           ("content", VArr blocks)]]));
                          ("usage", member data "usage")] |}.
Proof.
  intros Hm Hh Hfirst Hc Hobj Hb.
  destruct (string_dec text "") as [-> | Ht].
  { unfold api_chat, destructurable in Hfirst.
    rewrite (member_defined body "message") in Hfirst by (rewrite Hm; discriminate).
    rewrite Hm in Hfirst; discriminate. }
  rewrite (api_chat_accepted fuel tools body text Hm Ht) in *.
  pose proof (ensure_tools_no_model_call tools) as E.
  destruct (ensure_tools _ _ tools) as [tr0 tools0]; cbn [fst] in E.
  rewrite Hh, chat_try_unfold in *; cbv zeta in *.
  destruct (net tr0 _) as [d | m e] eqn:A.
  2:{ cbn [fst] in Hfirst; rewrite model_calls_app, E in Hfirst; discriminate. }
  destruct (get d "usage") as [usage | e] eqn:U.
  2:{ cbn [fst] in Hfirst; rewrite model_calls_app, E in Hfirst.
      injection Hfirst as _ <-.
      unfold get in U; rewrite (member_defined d "content") in U
        by (rewrite Hc; discriminate); discriminate. }
  set (messages := (history ++ [entry "user" (VStr text)])%list) in *.
  set (post := first_request tools0 messages) in *.
  destruct (extends_tool_loop fuel tools0 messages d usage (tr0 ++ [(post, Answered d)])%list)
    as [more X].
  assert (d = data) as ->.
  { destruct (tool_loop _ _ _ _ _ _ _ _) as [tr2 [[[final total] |] | e]];
      try destruct (get final "content");
      cbn [fst] in Hfirst, X; subst tr2;
      rewrite !model_calls_app, E in Hfirst; injection Hfirst as _ <-; reflexivity. }
  clear X more.
  rewrite tool_loop_unfold, (wants_tools_objects data blocks Hc Hobj),
    (no_tool_use blocks Hb) in *.
  unfold get in U |- *.
  rewrite (member_defined data "content") in U |- * by (rewrite Hc; discriminate).
  injection U as <-; rewrite Hc; cbn [fst snd].
  rewrite model_calls_app, E; split; reflexivity.
Qed.

Lemma tool_exchanges_requests uses : forall tr,
  map (fun x => fst (fst x)) (tool_exchanges MCP_SERVER_URL net tr uses)
  = map (tool_request MCP_SERVER_URL) uses
  /\ Forall2 (fun block x => snd x = tool_outcome block (snd (fst x)))
       uses (tool_exchanges MCP_SERVER_URL net tr uses).
Proof.
  induction uses as [| b uses IH]; intros tr; cbn [tool_exchanges map fst snd];
    [split; [reflexivity | constructor] |].
  destruct (IH (tr ++ [(tool_request MCP_SERVER_URL b,
                        net tr (tool_request MCP_SERVER_URL b))])%list) as [E F].
  split; [rewrite E; reflexivity | constructor; [reflexivity | exact F]].
Qed.

(** C8.  In one round on a response whose content is a list of blocks, each
    an object and each tool-use block with a name that is a string (or
    another value that prints), every tool-use block gives rise to exactly
    one POST, in order, to the gateway endpoint named by the block, axios
    being handed [{arguments: input}] as the body; the block handed back for
    it is the result of that call or, when the call failed, a [tool_result]
    flagged [is_error: true] whose content is the error message; and
    whatever the calls did, the next request to the model is then made,
    with the message list extended by the model's tool-use message and one
    user message holding all of the round's results. *)
Theorem tool_round_feeds_results_back (tools cur : list value) (final usage : value)
    (blocks : list value) (tr : trace) :
  member final "content" = VArr blocks ->
  Forall (fun block => is_nullish block = false) blocks ->
  Forall (fun block => uses_tool block = true -> primitive (member block "name")) blocks ->
  let uses := filter uses_tool blocks in
  let exchanges := tool_exchanges MCP_SERVER_URL net tr uses in
  let messages :=
    (cur ++ [VObj [("role", VStr "assistant"); ("content", VArr blocks)];
             VObj [("role", VStr "user"); ("content", VArr (map snd exchanges))]])%list in
  let follow_up :=
    Post "https://api.anthropic.com/v1/messages"
      (VObj [("model", VStr "claude-sonnet-4-20250514");
             ("max_tokens", VNum 2000);
             ("messages", VArr messages);
             ("tools", VArr tools);
             ("system", VStr (system_prompt 17))]) in
  map (fun x => fst (fst x)) exchanges
  = map (fun block => Post (MCP_SERVER_URL ++ "/" ++ text (member block "name"))
                        (VObj [("arguments", member block "input")])) uses
  /\ Forall2 (fun block x =>
                match snd (fst x) with
                | Answered data =>
                    snd x = VObj [("type", VStr "tool_result");
                                  ("tool_use_id", member block "id");
                                  ("content", JSON_stringify data)]
                | Failed m _ =>
                    snd x = VObj [("type", VStr "tool_result");
                                  ("tool_use_id", member block "id");
                                  ("content",
                                   VStr ("Error calling tool "
                                         ++ text (member block "name")
                                         ++ ": " ++ m));
                                  ("is_error", VBool true)]
                end) uses exchanges
  /\ fst (tool_round MCP_SERVER_URL net tools cur final usage tr)
     = (tr ++ map fst exchanges
           ++ [(follow_up, net (tr ++ map fst exchanges) follow_up)])%list.
Proof.
  intros Hc Hn Hp uses exchanges messages follow_up.
  assert (Hb : Forall well_formed_block blocks).
  { rewrite Forall_forall in *; intros b Hin; split; [apply Hn | apply Hp]; exact Hin. }
  destruct (tool_exchanges_requests uses tr) as [E F]; repeat split.
  - exact E.
  - fold exchanges in F; revert F; apply Forall2_impl.
    intros block [[r a] v]; cbn [fst snd]; intros ->; destruct a; reflexivity.
  - rewrite (tool_round_exchanges tools cur final usage blocks tr Hc Hb); reflexivity.
Qed.

(** X1.  A body whose [message] is missing, empty or not a string is
    answered 400 with [{error: "Message is required and must be a string"}]
    before any outbound call. *)
Theorem message_is_required (fuel : nat) (tools : list value) (req : value) :
  is_nullish req = false ->
  truthy (member req "message") && is_string (member req "message") = false ->
  api_chat MCP_SERVER_URL net fuel tools req
  = ([], (tools,
          Responded {| status := 400;
                       body := VObj [("error",
                                      VStr "Message is required and must be a string")] |})).
Proof.
  intros N H; unfold api_chat, destructurable; rewrite N.
  destruct (truthy _), (is_string _); try discriminate; reflexivity.
Qed.

(** X3.  When the first call to the model fails, the request is answered
    401 with [Invalid API key] if the model API answered 401, 429 with
    [Rate limit exceeded] if it answered 429, and 500 with
    [Failed to process chat message] otherwise. *)
Theorem model_failure_status (fuel : nat) (tools : list value) (req : value)
    (text : string) (history : list value) (m : string) (response : option (N * value)) :
  member req "message" = VStr text ->
  text <> "" ->
  default_to (VArr []) (member req "conversationHistory") = VArr history ->
  net (fst (ensure_tools MCP_SERVER_URL net tools))
      (Post MESSAGES_URL
         (first_payload (snd (ensure_tools MCP_SERVER_URL net tools))
            (history ++ [chat_message "user" (VStr text)])))
  = Failed m response ->
  snd (snd (api_chat MCP_SERVER_URL net fuel tools req))
  = Responded
      (match response with
       | Some (401%N, _) => {| status := 401; body := VObj [("error", VStr "Invalid API key")] |}
       | Some (429%N, _) =>
           {| status := 429; body := VObj [("error", VStr "Rate limit exceeded")] |}
       | _ => {| status := 500;
                 body := VObj [("error", VStr "Failed to process chat message")] |}
       end).
Proof.
  intros Hm Ht Hh A.
  rewrite (api_chat_accepted fuel tools req text Hm Ht).
  destruct (ensure_tools _ _ tools) as [tr0 tools0]; cbn [fst snd] in A.
  rewrite first_payload_request in A.
  rewrite Hh, chat_try_unfold; cbv zeta.
  change (entry "user" (VStr text)) with (chat_message "user" (VStr text)).
  rewrite A; cbn [fst snd].
  unfold chat_catch; destruct response as [[st data] |]; [| reflexivity].
  destruct (N.eqb st 401) eqn:E1; [apply N.eqb_eq in E1; subst; reflexivity |].
  destruct (N.eqb st 429) eqn:E2; [apply N.eqb_eq in E2; subst; reflexivity |].
  apply N.eqb_neq in E1, E2.
  destruct st as [| p]; [reflexivity |].
  repeat (destruct p as [p | p |]; try reflexivity; try congruence).
Qed.

End ChatProperties.

(** *** Worked examples *)

Definition example_url : string := "http://localhost:3000".

Definition text_block (text : string) : value :=
  VObj [("type", VStr "text"); ("text", VStr text)].

Definition tool_use_block (id name : string) (input : value) : value :=
  VObj [("type", VStr "tool_use"); ("id", VStr id); ("name", VStr name);
        ("input", input)].

Definition model_response (content : list value) (input output : float) : value :=
  VObj [("content", VArr content);
        ("usage", VObj [("input_tokens", VNum input); ("output_tokens", VNum output)])].

Definition geocode_paris : value :=
  tool_use_block "toolu_1" "geocode_forward" (VObj [("query", VStr "Paris")]).

Definition map_nothing : value := tool_use_block "toolu_2" "get_route_map" (VObj []).

(** A model that asks for a tool twice and then answers, in front of a
    gateway whose catalog cannot be fetched, that geocodes, and that fails
    on everything else. *)
Definition assistant : world :=
  fun tr r =>
    match r with
    | Get _ => Failed "connect ECONNREFUSED 127.0.0.1:3000" None
    | Post url _ =>
        if url =? MESSAGES_URL then
          match List.length (model_calls tr) with
          | 0 => Answered (model_response [text_block "Looking it up."; geocode_paris] 100 20)
          | 1 => Answered (model_response [map_nothing] 150 30)
          | _ => Answered (model_response [text_block "Paris is at 2.35, 48.85."] 200 40)
          end
        else if url =? example_url ++ "/geocode_forward" then
          Answered (VObj [("success", VBool true); ("results", VArr []); ("total", VNum 0)])
        else
          Failed "Request failed with status code 500"
            (Some (500%N, VObj [("success", VBool false);
                                ("error", VStr "Cannot read properties of undefined (reading '0')")]))
    end.

(** A model that answers at once. *)
Definition talker : world :=
  fun _ r =>
    match r with
    | Get _ => Answered (VObj [("tools", VArr [])])
    | Post _ _ => Answered (model_response [text_block "Hello!"] 12 3)
    end.

Definition where_is_paris : value := VObj [("message", VStr "Where is Paris?")].

(** The response to [where_is_paris] in front of [assistant]. *)
Definition paris_answer : response :=
  {| status := 200;
     body := VObj [("response", VArr [text_block "Paris is at 2.35, 48.85."]);
                   ("conversationHistory",
                    VArr [VObj [("role", VStr "user");
                                ("content", VStr "Where is Paris?")];
                          VObj [("role", VStr "assistant");
                                ("content",
                                 VArr [text_block "Paris is at 2.35, 48.85."])]]);
                   ("usage", VObj [("input_tokens", VNum 450);
                                   ("output_tokens", VNum 90)])] |}.

Lemma history_gains_two_entries_witness :
  List.length (model_calls (fst (api_chat example_url assistant 5 [] where_is_paris))) = 3
  /\ snd (snd (api_chat example_url assistant 5 [] where_is_paris))
     = Responded paris_answer
  /\ exists earlier payload data blocks usage,
       fst (api_chat example_url assistant 5 [] where_is_paris)
       = (earlier ++ [(Post MESSAGES_URL payload, Answered data)])%list
       /\ member data "content" = VArr blocks
       /\ Forall (fun block => member block "type" <> VStr "tool_use") blocks
       /\ paris_answer
          = {| status := 200;
               body := VObj [("response", VArr blocks);
                             ("conversationHistory",
                              VArr ([] ++ [VObj [("role", VStr "user");
                                                 ("content",
                                                  member where_is_paris "message")];
                                           VObj [("role", VStr "assistant");
                                                 ("content", VArr blocks)]]));
                             ("usage", usage)] |}.
Proof.
  split; [vm_compute; reflexivity |].
  split; [vm_compute; reflexivity |].
  apply (history_gains_two_entries example_url assistant 5 [] where_is_paris []
           (fst (api_chat example_url assistant 5 [] where_is_paris)) [] paris_answer).
  - reflexivity.
  - vm_compute; reflexivity.
  - reflexivity.
Defined.

Lemma chat_without_tools_witness :
  List.length (model_calls (fst (api_chat example_url talker 0 []
                                   (VObj [("message", VStr "Hello")])))) = 1
  /\ snd (snd (api_chat example_url talker 0 [] (VObj [("message", VStr "Hello")])))
     = Responded
         {| status := 200;
            body := VObj [("response", VArr [text_block "Hello!"]);
                          ("conversationHistory",
                           VArr [VObj [("role", VStr "user"); ("content", VStr "Hello")];
                                 VObj [("role", VStr "assistant");
                                       ("content", VArr [text_block "Hello!"])]]);
                          ("usage", VObj [("input_tokens", VNum 12);
                                          ("output_tokens", VNum 3)])] |}.
Proof.
  eapply (chat_without_tools example_url talker 0 [] (VObj [("message", VStr "Hello")])
            "Hello" [] [text_block "Hello!"] _ (model_response [text_block "Hello!"] 12 3)).
  - reflexivity.
  - reflexivity.
  - vm_compute; reflexivity.
  - reflexivity.
  - repeat constructor.
  - repeat constructor; discriminate.
Defined.

Lemma tool_round_feeds_results_back_witness :
  map fst (fst (tool_round example_url assistant []
                  [VObj [("role", VStr "user"); ("content", VStr "Hi")]]
                  (model_response [text_block "Both."; geocode_paris; map_nothing] 100 20)
                  VNull []))
  = [Post "http://localhost:3000/geocode_forward"
       (VObj [("arguments", VObj [("query", VStr "Paris")])]);
     Post "http://localhost:3000/get_route_map" (VObj [("arguments", VObj [])]);
     Post "https://api.anthropic.com/v1/messages"
       (VObj [("model", VStr "claude-sonnet-4-20250514");
              ("max_tokens", VNum 2000);
              ("messages",
               VArr [VObj [("role", VStr "user"); ("content", VStr "Hi")];
                     VObj [("role", VStr "assistant");
                           ("content",
                            VArr [text_block "Both."; geocode_paris; map_nothing])];
                     VObj [("role", VStr "user");
                           ("content",
                            VArr [VObj [("type", VStr "tool_result");
                                        ("tool_use_id", VStr "toolu_1");
                                        ("content",
                                         VStr ("{" ++ dquote ++ "success" ++ dquote
                                               ++ ":true," ++ dquote ++ "results"
                                               ++ dquote ++ ":[]," ++ dquote ++ "total"
                                               ++ dquote ++ ":0}"))];
                                  VObj [("type", VStr "tool_result");
                                        ("tool_use_id", VStr "toolu_2");
                                        ("content",
                                         VStr ("Error calling tool get_route_map: "
                                               ++ "Request failed with status code 500"));
                                        ("is_error", VBool true)]])]]);
              ("tools", VArr []);
              ("system", VStr (system_prompt 17))])].
Proof.
  rewrite (proj2 (proj2 (tool_round_feeds_results_back example_url assistant []
                           [VObj [("role", VStr "user"); ("content", VStr "Hi")]]
                           (model_response [text_block "Both."; geocode_paris; map_nothing]
                              100 20)
                           VNull [text_block "Both."; geocode_paris; map_nothing] []
                           eq_refl ltac:(repeat constructor)
                           ltac:(repeat constructor)))).
  vm_compute; reflexivity.
Defined.

Lemma message_is_required_witness :
  api_chat example_url talker 3 [] (VObj [("message", VStr "")])
  = ([], ([], Responded {| status := 400;
                           body := VObj [("error",
                                          VStr "Message is required and must be a string")] |})).
Proof.
  exact (message_is_required example_url talker 3 [] (VObj [("message", VStr "")])
           eq_refl eq_refl).
Defined.

(** A model API that refuses the key. *)
Definition locked : world :=
  fun _ r =>
    match r with
    | Get _ => Answered (VObj [("tools", VArr [])])
    | Post _ _ => Failed "Request failed with status code 401"
                    (Some (401%N, VObj [("type", VStr "error")]))
    end.

Lemma model_failure_status_witness :
  snd (snd (api_chat example_url locked 3 [] (VObj [("message", VStr "Hello")])))
  = Responded {| status := 401; body := VObj [("error", VStr "Invalid API key")] |}.
Proof.
  exact (model_failure_status example_url locked 3 [] (VObj [("message", VStr "Hello")])
           "Hello" [] _ _ eq_refl ltac:(discriminate) eq_refl eq_refl).
Defined.

(** *** Further properties of the chat handler *)

(** Computations whose outbound calls all satisfy [P]. *)
Definition adds (P : event -> Prop) {A} (m : M A) : Prop :=
  forall tr, exists more, fst (m tr) = (tr ++ more)%list /\ Forall P more.

Lemma adds_ret P {A} (a : A) : adds P (ret a).
Proof. intros tr; exists []; cbn; rewrite app_nil_r; split; [reflexivity | constructor]. Qed.

Lemma adds_lift P {A} (r : result A) : adds P (lift r).
Proof. intros tr; exists []; cbn; rewrite app_nil_r; split; [reflexivity | constructor]. Qed.

Lemma adds_bind P {A B} (m : M A) (k : A -> M B) :
  adds P m -> (forall a, adds P (k a)) -> adds P (bind m k).
Proof.
  intros Hm Hk tr; destruct (Hm tr) as [more1 [E1 F1]]; unfold bind.
  destruct (m tr) as [tr1 [a | e]]; cbn [fst] in E1; subst tr1.
  - destruct (Hk a (tr ++ more1)%list) as [more2 [E2 F2]].
    exists (more1 ++ more2)%list; rewrite E2, app_assoc; split;
      [reflexivity | apply Forall_app; split; assumption].
  - exists more1; split; [reflexivity | assumption].
Qed.

Lemma adds_try_catch P {A} (m : M A) (h : exn -> M A) :
  adds P m -> (forall e, adds P (h e)) -> adds P (try_catch m h).
Proof.
  intros Hm Hh tr; destruct (Hm tr) as [more1 [E1 F1]]; unfold try_catch.
  destruct (m tr) as [tr1 [a | e]]; cbn [fst] in E1; subst tr1.
  - exists more1; split; [reflexivity | assumption].
  - destruct (Hh e (tr ++ more1)%list) as [more2 [E2 F2]].
    exists (more1 ++ more2)%list; rewrite E2, app_assoc; split;
      [reflexivity | apply Forall_app; split; assumption].
Qed.

Lemma adds_axios (P : event -> Prop) net r :
  (forall a, P (r, a)) -> adds P (axios net r).
Proof.
  intros H tr; exists [(r, net tr r)]; split; [reflexivity | constructor; [apply H | constructor]].
Qed.

Lemma adds_weaken (P Q : event -> Prop) {A} (m : M A) :
  (forall ev, P ev -> Q ev) -> adds P m -> adds Q m.
Proof.
  intros H Hm tr; destruct (Hm tr) as [more [E F]]; exists more; split; [exact E |].
  revert F; apply Forall_impl; exact H.
Qed.

Section Calls.

Variable MCP_SERVER_URL : string.
Variable net : world.

(** A POST to the gateway, and a POST to the model API. *)
Definition tool_call (ev : event) : Prop :=
  exists name data, fst ev = Post (MCP_SERVER_URL ++ "/" ++ name) data.

Definition model_call (ev : event) : Prop :=
  exists payload, fst ev = Post MESSAGES_URL payload.

Definition chat_call (ev : event) : Prop := model_call ev \/ tool_call ev.

Lemma adds_call_tool block : adds tool_call (call_tool MCP_SERVER_URL net block).
Proof.
  unfold call_tool; apply adds_bind; [apply adds_lift | intros [|]]; [| apply adds_ret].
  apply adds_bind; [apply adds_lift | intros name].
  apply adds_try_catch; [| intros; apply adds_ret].
  apply adds_bind; [| intros; apply adds_ret].
  apply adds_axios; intros a; eexists _, _; reflexivity.
Qed.

Lemma adds_call_tools blocks : adds tool_call (call_tools MCP_SERVER_URL net blocks).
Proof.
  induction blocks as [| b blocks IH]; cbn [call_tools]; [apply adds_ret |].
  apply adds_bind; [apply adds_call_tool | intros results].
  apply adds_bind; [exact IH | intros; apply adds_ret].
Qed.

Lemma adds_handleToolCalls content :
  adds tool_call (handleToolCalls MCP_SERVER_URL net content).
Proof.
  unfold handleToolCalls; apply adds_bind; [apply adds_lift | intros blocks].
  apply adds_bind; [apply adds_call_tools | intros; apply adds_ret].
Qed.

Lemma adds_model_call payload : adds chat_call (axios net (Post MESSAGES_URL payload)).
Proof. apply adds_axios; intros a; left; eexists; reflexivity. Qed.

Lemma adds_tool_round tools cur final usage :
  adds chat_call (tool_round MCP_SERVER_URL net tools cur final usage).
Proof.
  unfold tool_round; apply adds_bind; [apply adds_lift | intros content].
  apply adds_bind.
  { apply (adds_weaken tool_call); [intros ev H; right; exact H |].
    apply adds_handleToolCalls. }
  intros results; apply adds_bind; [apply adds_model_call | intros data].
  apply adds_bind; [apply adds_lift | intros; apply adds_ret].
Qed.

Lemma adds_tool_loop fuel : forall tools cur final usage,
  adds chat_call (tool_loop MCP_SERVER_URL net fuel tools cur final usage).
Proof.
  induction fuel as [| fuel IH]; intros tools cur final usage; cbn [tool_loop];
    (apply adds_bind; [apply adds_lift | intros [|]]); try apply adds_ret.
  apply adds_bind; [apply adds_tool_round | intros [[c f] u]; apply IH].
Qed.

Lemma adds_chat_try fuel tools message history :
  adds chat_call (chat_try MCP_SERVER_URL net fuel tools message history).
Proof.
  unfold chat_try; apply adds_bind; [apply adds_lift | intros h].
  apply adds_bind; [apply adds_model_call | intros data].
  apply adds_bind; [apply adds_lift | intros usage].
  apply adds_bind; [apply adds_tool_loop | intros [[final total] |]]; [| apply adds_ret].
  apply adds_bind; [apply adds_lift | intros; apply adds_ret].
Qed.

Lemma ensure_tools_cases tools :
  (tools <> [] /\ ensure_tools MCP_SERVER_URL net tools = ([], tools))
  \/ (tools = []
      /\ fst (ensure_tools MCP_SERVER_URL net tools)
         = [(Get (MCP_SERVER_URL ++ "/tools"), net [] (Get (MCP_SERVER_URL ++ "/tools")))]).
Proof.
  unfold ensure_tools; destruct tools as [| t tools]; cbn [List.length Nat.eqb].
  - right; split; [reflexivity |].
    pose proof (initializeMCPTools_trace MCP_SERVER_URL net []) as E.
    destruct (initializeMCPTools _ _ _ _) as [tr [l | e]]; exact E.
  - left; split; [discriminate | reflexivity].
Qed.

(** X13.  The calls of one chat request: the tool catalog is fetched at
    most once, first, and only when the cache is empty; every other call is
    a POST, to the model API or to the gateway; and a cache that is not
    empty is left as it is. *)
Theorem chat_calls (fuel : nat) (tools : list value) (body : value) :
  exists fetch rest,
    fst (api_chat MCP_SERVER_URL net fuel tools body) = (fetch ++ rest)%list
    /\ (fetch = []
        \/ (tools = [] /\ exists a, fetch = [(Get (MCP_SERVER_URL ++ "/tools"), a)]))
    /\ Forall chat_call rest
    /\ (tools <> [] -> fst (snd (api_chat MCP_SERVER_URL net fuel tools body)) = tools).
Proof.
  unfold api_chat.
  destruct (destructurable _ _ body);
    [| exists [], []; repeat split; auto].
  destruct (negb _ || negb _); [exists [], []; repeat split; auto |].
  pose proof (ensure_tools_cases tools) as C.
  destruct (ensure_tools _ _ tools) as [tr0 tools0].
  destruct (adds_chat_try fuel tools0 (member body "message")
              (default_to (VArr []) (member body "conversationHistory")) tr0)
    as [rest [E F]].
  exists tr0, rest.
  assert (T : fst (match chat_try MCP_SERVER_URL net fuel tools0 (member body "message")
                           (default_to (VArr []) (member body "conversationHistory")) tr0
                   with
                   | (tr', Ok (Some r)) => (tr', (tools0, Responded r))
                   | (tr', Ok None) => (tr', (tools0, Unfinished))
                   | (tr', Throw e) => (tr', (tools0, Responded (chat_catch e)))
                   end) = (tr0 ++ rest)%list
              /\ fst (snd (match chat_try MCP_SERVER_URL net fuel tools0
                                   (member body "message")
                                   (default_to (VArr []) (member body "conversationHistory"))
                                   tr0
                           with
                           | (tr', Ok (Some r)) => (tr', (tools0, Responded r))
                           | (tr', Ok None) => (tr', (tools0, Unfinished))
                           | (tr', Throw e) => (tr', (tools0, Responded (chat_catch e)))
                           end)) = tools0).
  { destruct (chat_try _ _ _ _ _ _ _) as [tr' [[r |] | e]]; split; try exact E; reflexivity. }
  destruct T as [T1 T2]; rewrite T1, T2.
  destruct C as [[Hn C] | [He C]].
  - injection C as -> ->; repeat split; auto.
  - cbn [fst] in C; subst tr0; repeat split; eauto.
    intros H; contradiction.
Qed.

(** **** The shape of a run *)

(** One round of the loop as a trace shows it: the calls to the gateway,
    the results handed back to the model, and the model's reply. *)
Record round : Type :=
  { gateway_calls : trace; handed_back : value; reply : value }.

(** The calls of the rounds that follow a model response [previous] to the
    messages [messages]. *)
Fixpoint follow_ups (tools messages : list value) (previous : value)
    (rounds : list round) : trace :=
  match rounds with
  | [] => []
  | r :: rounds' =>
      let messages' :=
        (messages ++ [entry "assistant" (member previous "content");
                      entry "user" (handed_back r)])%list in
      (gateway_calls r
       ++ (follow_up_request tools messages', Answered (reply r))
          :: follow_ups tools messages' (reply r) rounds')%list
  end.

(** The usage counters after the replies [replies], starting from [usage]. *)
Definition fold_usage (replies : list value) (usage : value) : result value :=
  fold_left (fun total data => rbind total (accumulate_usage data)) replies (Ok usage).

Lemma tool_round_shape tools cur final usage tr tr' cur' data usage' :
  tool_round MCP_SERVER_URL net tools cur final usage tr = (tr', Ok (cur', data, usage')) ->
  exists calls results,
    cur' = (cur ++ [entry "assistant" (member final "content");
                    entry "user" results])%list
    /\ tr' = (tr ++ calls ++ [(follow_up_request tools cur', Answered data)])%list
    /\ Forall tool_call calls
    /\ accumulate_usage data usage = Ok usage'.
Proof.
  unfold tool_round; rewrite bind_lift.
  destruct (get final "content") as [content | e] eqn:C; [| discriminate].
  apply get_member in C; subst content.
  unfold bind at 1.
  destruct (adds_handleToolCalls (member final "content") tr) as [calls [E F]].
  destruct (handleToolCalls _ _ _ tr) as [tr1 [results | e]]; [| discriminate].
  cbn [fst] in E; subst tr1.
  unfold bind at 1, axios.
  destruct (net _ _) as [d | m r] eqn:A; cbn [settle]; [| discriminate].
  rewrite bind_lift; destruct (accumulate_usage d usage) as [u | e] eqn:U; [| discriminate].
  unfold ret; intros H; inversion H; subst.
  exists calls, results; rewrite <- app_assoc; repeat split; assumption.
Qed.

Lemma tool_loop_shape fuel : forall tools cur final usage tr tr' final' usage',
  tool_loop MCP_SERVER_URL net fuel tools cur final usage tr
  = (tr', Ok (Some (final', usage'))) ->
  exists rounds,
    tr' = (tr ++ follow_ups tools cur final rounds)%list
    /\ Forall (fun r => Forall tool_call (gateway_calls r)) rounds
    /\ Forall (fun d => wants_tools d = Ok true) (removelast (final :: map reply rounds))
    /\ final' = last (map reply rounds) final
    /\ wants_tools final' = Ok false
    /\ fold_usage (map reply rounds) usage = Ok usage'.
Proof.
  induction fuel as [| fuel IH]; intros tools cur final usage tr tr' final' usage';
    rewrite tool_loop_unfold; destruct (wants_tools final) as [[|] | e] eqn:W;
    try discriminate;
    try (intros H; inversion H; subst; exists []; cbn; rewrite app_nil_r;
         repeat split; solve [constructor | assumption]).
  destruct (tool_round _ _ _ _ _ _ _) as [tr1 [[[c f] u] | e]] eqn:R; [| discriminate].
  intros H; destruct (IH _ _ _ _ _ _ _ _ H) as [rounds [E [F [Wn [L [Wl U]]]]]].
  destruct (tool_round_shape _ _ _ _ _ _ _ _ _ R) as [calls [results [Ec [Et [Fc Uc]]]]].
  exists ({| gateway_calls := calls; handed_back := results; reply := f |} :: rounds).
  cbn [follow_ups map gateway_calls handed_back reply]; rewrite <- Ec.
  repeat split.
  - rewrite E, Et, <- !app_assoc; reflexivity.
  - constructor; assumption.
  - change (removelast (final :: f :: map reply rounds))
      with (final :: removelast (f :: map reply rounds)).
    constructor; assumption.
  - rewrite L; symmetry; apply last_cons.
  - exact Wl.
  - unfold fold_usage in *; cbn [fold_left rbind]; rewrite Uc; exact U.
Qed.

(** A request answered 200, taken apart. *)
Lemma successful_run fuel tools body history tr tools' r :
  default_to (VArr []) (member body "conversationHistory") = VArr history ->
  api_chat MCP_SERVER_URL net fuel tools body = (tr, (tools', Responded r)) ->
  status r = 200%N ->
  exists first rounds total,
    let start := (history ++ [entry "user" (member body "message")])%list in
    let final := last (map reply rounds) first in
    ensure_tools MCP_SERVER_URL net tools
    = (fst (ensure_tools MCP_SERVER_URL net tools), tools')
    /\ tr = (fst (ensure_tools MCP_SERVER_URL net tools)
             ++ (first_request tools' start, Answered first)
                :: follow_ups tools' start first rounds)%list
    /\ Forall (fun r => Forall tool_call (gateway_calls r)) rounds
    /\ Forall (fun d => wants_tools d = Ok true) (removelast (first :: map reply rounds))
    /\ wants_tools final = Ok false
    /\ fold_usage (map reply rounds) (member first "usage") = Ok total
    /\ r = {| status := 200;
              body := VObj [("response", member final "content");
                            ("conversationHistory",
                             VArr (history
                                   ++ [entry "user" (member body "message");
                                       entry "assistant" (member final "content")]));
                            ("usage", total)] |}.
Proof.
  intros Hh; unfold api_chat.
  destruct (destructurable _ _ body); [| discriminate].
  destruct (negb _ || negb _).
  { intros H; inversion H; subst; discriminate. }
  destruct (ensure_tools _ _ tools) as [tr0 tools0]; cbn [fst].
  rewrite Hh, chat_try_unfold; cbv zeta.
  destruct (net tr0 _) as [data | m e] eqn:A.
  2:{ intros H; inversion H; subst; intros S; destruct (chat_catch_status _ S). }
  destruct (get data "usage") as [usage | e] eqn:U.
  2:{ intros H; inversion H; subst; intros S; destruct (chat_catch_status _ S). }
  apply get_member in U; subst usage.
  destruct (tool_loop _ _ _ _ _ _ _ _) as [tr2 [[[final total] |] | e]] eqn:L.
  2:{ discriminate. }
  2:{ intros H; inversion H; subst; intros S; destruct (chat_catch_status _ S). }
  destruct (get final "content") as [content | e] eqn:C.
  2:{ intros H; inversion H; subst; intros S; destruct (chat_catch_status _ S). }
  apply get_member in C; subst content.
  intros H _; inversion H; subst; clear H.
  destruct (tool_loop_shape _ _ _ _ _ _ _ _ _ L) as [rounds [E [F [Wn [Lf [Wl Us]]]]]].
  exists data, rounds, total; cbv zeta; rewrite <- Lf.
  repeat split; try assumption.
  rewrite E, <- app_assoc; reflexivity.
Qed.

(** The blocks of a model response. *)
Definition blocks_of (data : value) : list value :=
  match member data "content" with
  | VArr blocks => blocks
  | _ => []
  end.

(** A model response as the handler needs it: its [content] a list of
    well-formed blocks. *)
Definition well_formed_answer (data : value) : Prop :=
  exists blocks, member data "content" = VArr blocks /\ Forall well_formed_block blocks.

(** The model API answers with well-formed responses. *)
Definition well_formed_model : Prop :=
  forall tr payload data,
    net tr (Post MESSAGES_URL payload) = Answered data -> well_formed_answer data.

(** The calls of the rounds that follow a model response [previous] to the
    messages [messages], made after the calls [tr], the model replying
    [replies] in turn: in each round one call to the gateway for each
    tool-use block of the previous response, answered by the gateway, then
    the call to the model with the two messages added. *)
Fixpoint conversation (tools messages : list value) (previous : value) (tr : trace)
    (replies : list value) : trace :=
  match replies with
  | [] => []
  | reply :: replies' =>
      let exchanges :=
        tool_exchanges MCP_SERVER_URL net tr (filter uses_tool (blocks_of previous)) in
      let messages' :=
        (messages ++ [entry "assistant" (member previous "content");
                      entry "user" (VArr (map snd exchanges))])%list in
      let calls :=
        (map fst exchanges ++ [(follow_up_request tools messages', Answered reply)])%list in
      (calls ++ conversation tools messages' reply (tr ++ calls) replies')%list
  end.

(** Whether a response asks for a tool. *)
Definition asks (data : value) : bool := existsb uses_tool (blocks_of data).

Lemma tool_loop_conversation fuel : forall tools cur final usage tr tr' final' usage',
  well_formed_model ->
  well_formed_answer final ->
  tool_loop MCP_SERVER_URL net fuel tools cur final usage tr
  = (tr', Ok (Some (final', usage'))) ->
  exists replies,
    tr' = (tr ++ conversation tools cur final tr replies)%list
    /\ Forall (fun d => asks d = true) (removelast (final :: replies))
    /\ final' = last replies final
    /\ asks final' = false.
Proof.
  induction fuel as [| fuel IH]; intros tools cur final usage tr tr' final' usage' Hm
    [blocks [Hc Hb]];
    assert (Hn : Forall (fun b => is_nullish b = false) blocks)
      by (revert Hb; apply Forall_impl; intros b [N _]; exact N);
    assert (B : blocks_of final = blocks) by (unfold blocks_of; rewrite Hc; reflexivity);
    rewrite tool_loop_unfold, (wants_tools_objects final blocks Hc Hn);
    destruct (existsb uses_tool blocks) eqn:W; try discriminate;
    try (intros H; inversion H; subst; exists []; cbn [conversation removelast last];
         rewrite app_nil_r; repeat split;
         solve [constructor | exact W]).
  rewrite (tool_round_exchanges MCP_SERVER_URL net tools cur final usage blocks tr Hc Hb).
  cbv zeta.
  set (exchanges := tool_exchanges MCP_SERVER_URL net tr (filter uses_tool blocks)).
  set (messages := (cur ++ [entry "assistant" (VArr blocks);
                            entry "user" (VArr (map snd exchanges))])%list).
  destruct (net (tr ++ map fst exchanges)%list (follow_up_request tools messages))
    as [data | m r] eqn:A; [| discriminate].
  destruct (accumulate_usage data usage) as [u | e]; [| discriminate].
  intros H.
  destruct (IH _ _ _ _ _ _ _ _ Hm (Hm _ _ _ A) H) as [replies [E [Ws [L Wl]]]].
  exists (data :: replies); cbn [conversation]; rewrite B, Hc.
  fold exchanges; fold messages; repeat split.
  - rewrite E, <- !app_assoc; reflexivity.
  - change (removelast (final :: data :: replies))
      with (final :: removelast (data :: replies)).
    constructor; [unfold asks; rewrite B; exact W | exact Ws].
  - rewrite L; symmetry; apply last_cons.
  - exact Wl.
Qed.

(** X16.  In front of a model whose responses are lists of blocks, each an
    object and each tool-use block with a string for a name, a request that
    is answered 200 made, after the catalog fetch if any, one first call to
    the model with the history and the user message, and then zero or more
    rounds; each round consists of one call to the gateway for each
    tool-use block of the previous response, followed by one call to the
    model whose messages are those of the previous call plus two: the
    model's previous response, and the results the gateway gave, in order.
    Every response but the last asked for a tool, the last did not, and its
    content is the [response]. *)
Theorem successful_run_is_one_conversation (fuel : nat) (tools : list value)
    (body : value) (history : list value) (tr : trace) (tools' : list value)
    (r : response) :
  well_formed_model ->
  default_to (VArr []) (member body "conversationHistory") = VArr history ->
  api_chat MCP_SERVER_URL net fuel tools body = (tr, (tools', Responded r)) ->
  status r = 200%N ->
  exists first replies,
    let start :=
      (history ++ [VObj [("role", VStr "user");
                         ("content", member body "message")]])%list in
    let opening :=
      (fst (ensure_tools MCP_SERVER_URL net tools)
       ++ [(first_request tools' start, Answered first)])%list in
    tr = (opening ++ conversation tools' start first opening replies)%list
    /\ Forall (fun d => asks d = true) (removelast (first :: replies))
    /\ asks (last replies first) = false
    /\ member (IO.body r) "response" = member (last replies first) "content".
Proof.
  intros Hm Hh; unfold api_chat.
  destruct (destructurable _ _ body); [| discriminate].
  destruct (negb _ || negb _).
  { intros H; inversion H; subst; discriminate. }
  destruct (ensure_tools _ _ tools) as [tr0 tools0]; cbn [fst].
  rewrite Hh, chat_try_unfold; cbv zeta.
  destruct (net tr0 _) as [data | m e] eqn:A.
  2:{ intros H; inversion H; subst; intros S; destruct (chat_catch_status _ S). }
  destruct (get data "usage") as [usage | e] eqn:U.
  2:{ intros H; inversion H; subst; intros S; destruct (chat_catch_status _ S). }
  destruct (tool_loop _ _ _ _ _ _ _ _) as [tr2 [[[final total] |] | e]] eqn:L.
  2:{ discriminate. }
  2:{ intros H; inversion H; subst; intros S; destruct (chat_catch_status _ S). }
  destruct (get final "content") as [content | e] eqn:C.
  2:{ intros H; inversion H; subst; intros S; destruct (chat_catch_status _ S). }
  apply get_member in C; subst content.
  intros H _; inversion H; subst; clear H.
  destruct (tool_loop_conversation _ _ _ _ _ _ _ _ _ Hm (Hm _ _ _ A) L)
    as [replies [E [Ws [Lf Wl]]]].
  exists data, replies; cbv zeta; rewrite <- Lf.
  repeat split; assumption.
Qed.

(** **** Usage counters *)

Lemma assoc_replaced k v k' fs :
  assoc k' (map (fun kv : string * value => if fst kv =? k then (k, v) else kv) fs)
  = if k' =? k
    then (if existsb (fun kv => fst kv =? k) fs then v else VUndef)
    else assoc k' fs.
Proof.
  induction fs as [| [k0 v0] fs IH]; cbn [map assoc existsb fst].
  - destruct (k' =? k); reflexivity.
  - destruct (k0 =? k) eqn:E0; cbn [assoc orb].
    + apply String.eqb_eq in E0; subst k0.
      destruct (k' =? k); [reflexivity | exact IH].
    + destruct (k' =? k) eqn:E.
      * apply String.eqb_eq in E; subst k'.
        rewrite String.eqb_sym, E0; exact IH.
      * destruct (k' =? k0); [reflexivity | exact IH].
Qed.

Lemma assoc_appended k v k' fs :
  existsb (fun kv => fst kv =? k) fs = false ->
  assoc k' (fs ++ [(k, v)]) = if k' =? k then v else assoc k' fs.
Proof.
  induction fs as [| [k0 v0] fs IH]; cbn [app assoc existsb fst]; [reflexivity |].
  intros H; apply orb_false_iff in H; destruct H as [E0 H].
  destruct (k' =? k0) eqn:E; [| apply IH, H].
  apply String.eqb_eq in E; subst k0; rewrite E0; reflexivity.
Qed.

(** Setting a field changes that field and no other. *)
Lemma assoc_set_field k v k' fs :
  assoc k' (set_field k v fs) = if k' =? k then v else assoc k' fs.
Proof.
  unfold set_field; destruct (existsb _ fs) eqn:E.
  - rewrite assoc_replaced, E; reflexivity.
  - apply assoc_appended, E.
Qed.

(** A token count: a number other than NaN and negative zero. *)
Definition token_count (x : float) : Prop :=
  PrimFloat.is_nan x = false /\ x <> (-0)%float.

Lemma is_zero_cases x : PrimFloat.is_zero x = true -> x = 0%float \/ x = (-0)%float.
Proof.
  unfold PrimFloat.is_zero; rewrite eqb_spec.
  change (Prim2SF 0) with (S754_zero false).
  destruct (Prim2SF x) as [[|] | [|] | | [|] m e] eqn:E; cbn; try discriminate; intros _.
  - right; apply Prim2SF_inj; rewrite E; reflexivity.
  - left; apply Prim2SF_inj; rewrite E; reflexivity.
Qed.

Lemma or_else_token_count x :
  token_count x -> or_else (VNum x) (VNum 0) = VNum x.
Proof.
  intros [Hn Hz]; unfold or_else, truthy; rewrite Hn; cbn [orb].
  destruct (PrimFloat.is_zero x) eqn:Z; [| reflexivity].
  destruct (is_zero_cases x Z) as [-> | ->]; [reflexivity | contradiction].
Qed.

(** The counters of a model response. *)
Definition tokens (k : string) (data : value) : float :=
  match member (member data "usage") k with
  | VNum x => x
  | _ => PrimFloat.nan
  end.

Definition counted (data : value) : Prop :=
  exists fields input output,
    member data "usage" = VObj fields
    /\ assoc "input_tokens" fields = VNum input
    /\ assoc "output_tokens" fields = VNum output
    /\ token_count input /\ token_count output.

(** The sum of a counter over responses, from the first one on. *)
Definition total_tokens (k : string) (answers : list value) : float :=
  fold_left (fun sum data => (sum + tokens k data)%float) (tl answers)
            (tokens k (hd VUndef answers)).

Lemma add_tokens_numbers k usage fields a b :
  assoc k fields = VNum a ->
  or_else (member usage k) (VNum 0) = VNum b ->
  add_tokens k usage (VObj fields) = Ok (VObj (set_field k (VNum (a + b)) fields)).
Proof.
  intros Ha Hb; unfold add_tokens; rewrite get_object; cbn [rbind]; rewrite Ha, Hb.
  reflexivity.
Qed.

Lemma accumulate_counted data fields input output :
  counted data ->
  assoc "input_tokens" fields = VNum input ->
  assoc "output_tokens" fields = VNum output ->
  exists fields',
    accumulate_usage data (VObj fields) = Ok (VObj fields')
    /\ assoc "input_tokens" fields' = VNum (input + tokens "input_tokens" data)
    /\ assoc "output_tokens" fields' = VNum (output + tokens "output_tokens" data)
    /\ forall k, k <> "input_tokens" -> k <> "output_tokens" ->
                 assoc k fields' = assoc k fields.
Proof.
  intros [fs [i [o [Hu [Hi [Ho [Ci Co]]]]]]] Hin Hout.
  unfold accumulate_usage, get.
  rewrite (member_defined data "usage") by (rewrite Hu; discriminate).
  cbn [rbind]; rewrite Hu; cbn [truthy].
  rewrite (add_tokens_numbers "input_tokens" (VObj fs) fields input i Hin)
    by (cbn [member]; rewrite Hi; apply or_else_token_count, Ci).
  cbn [rbind].
  rewrite (add_tokens_numbers "output_tokens" (VObj fs) _ output o)
    by (rewrite ?assoc_set_field; cbn [member String.eqb Ascii.eqb Bool.eqb];
        first [exact Hout | rewrite Ho; apply or_else_token_count, Co]).
  eexists; split; [reflexivity |].
  unfold tokens; rewrite Hu; cbn [member]; rewrite Hi, Ho.
  repeat split.
  - rewrite !assoc_set_field; reflexivity.
  - rewrite assoc_set_field; reflexivity.
  - intros k K1 K2; rewrite !assoc_set_field.
    apply String.eqb_neq in K1, K2; rewrite K1, K2; reflexivity.
Qed.

Lemma fold_usage_counted replies : forall fields input output total,
  Forall counted replies ->
  assoc "input_tokens" fields = VNum input ->
  assoc "output_tokens" fields = VNum output ->
  fold_usage replies (VObj fields) = Ok total ->
  member total "input_tokens"
  = VNum (fold_left (fun sum data => (sum + tokens "input_tokens" data)%float)
            replies input)
  /\ member total "output_tokens"
     = VNum (fold_left (fun sum data => (sum + tokens "output_tokens" data)%float)
               replies output)
  /\ forall k, k <> "input_tokens" -> k <> "output_tokens" ->
               member total k = assoc k fields.
Proof.
  induction replies as [| d replies IH]; intros fields input output total Hc Hi Ho.
  - cbn; intros H; inversion H; subst; cbn [member]; auto.
  - inversion Hc as [| ? ? Hd Hrest]; subst.
    destruct (accumulate_counted d fields input output Hd Hi Ho)
      as [fields' [A [Hi' [Ho' Hk']]]].
    unfold fold_usage; cbn [fold_left rbind]; rewrite A.
    intros H; destruct (IH fields' _ _ total Hrest Hi' Ho' H) as [R1 [R2 R3]].
    repeat split; [exact R1 | exact R2 |].
    intros k K1 K2; rewrite (R3 k K1 K2); apply Hk'; assumption.
Qed.

(** The answers of the model in a trace, in order. *)
Definition model_answers (tr : trace) : list value :=
  flat_map (fun ev => match snd ev with
                      | Answered data => [data]
                      | Failed _ _ => []
                      end) (model_calls tr).

Section Separate.

(** The gateway is not the model API. *)
Hypothesis separate : forall name, MCP_SERVER_URL ++ "/" ++ name <> MESSAGES_URL.

Lemma tool_calls_are_no_model_calls calls :
  Forall tool_call calls -> model_calls calls = [].
Proof.
  induction 1 as [| [q a] calls [name [data Hq]] _ IH]; [reflexivity |].
  cbn [fst] in Hq; subst q; unfold model_calls in *; cbn [filter is_model_call fst].
  destruct (_ =? MESSAGES_URL) eqn:E; [| exact IH].
  apply String.eqb_eq in E; destruct (separate name E).
Qed.

Lemma model_answers_follow_ups tools rounds : forall messages previous,
  Forall (fun r => Forall tool_call (gateway_calls r)) rounds ->
  model_answers (follow_ups tools messages previous rounds) = map reply rounds.
Proof.
  induction rounds as [| r rounds IH]; intros messages previous H; [reflexivity |].
  inversion H as [| ? ? Hr Hrest]; subst.
  cbn [follow_ups map]; unfold model_answers in *.
  rewrite model_calls_app, (tool_calls_are_no_model_calls _ Hr); cbn [app].
  unfold model_calls at 1; unfold follow_up_request at 1; cbn [filter is_model_call fst].
  rewrite String.eqb_refl; cbn [flat_map snd app]; f_equal.
  apply IH, Hrest.
Qed.

(** X17.  The [usage] of a 200 response adds up [input_tokens] and
    [output_tokens] over all the model calls of the request, the first
    response's counters first; every other field of [usage] is the one of
    the first response alone.  (A gateway that is not the model API, and
    responses whose two counters are numbers.) *)
Theorem usage_is_summed (fuel : nat) (tools : list value) (body : value)
    (history : list value) (tr : trace) (tools' : list value) (r : response) :
  default_to (VArr []) (member body "conversationHistory") = VArr history ->
  api_chat MCP_SERVER_URL net fuel tools body = (tr, (tools', Responded r)) ->
  status r = 200%N ->
  Forall counted (model_answers tr) ->
  let usage := member (IO.body r) "usage" in
  member usage "input_tokens" = VNum (total_tokens "input_tokens" (model_answers tr))
  /\ member usage "output_tokens" = VNum (total_tokens "output_tokens" (model_answers tr))
  /\ forall k, k <> "input_tokens" -> k <> "output_tokens" ->
               member usage k = member (member (hd VUndef (model_answers tr)) "usage") k.
Proof.
  intros Hh Hr Hs Hc usage.
  destruct (successful_run fuel tools body history tr tools' r Hh Hr Hs)
    as [first [rounds [total [_ [E [F [_ [_ [U R]]]]]]]]].
  assert (A : model_answers tr = first :: map reply rounds).
  { rewrite E; unfold model_answers; rewrite model_calls_app.
    rewrite (ensure_tools_no_model_call MCP_SERVER_URL net tools); cbn [app].
    unfold model_calls at 1; unfold first_request at 1; cbn [filter is_model_call fst].
    rewrite String.eqb_refl; cbn [flat_map snd app]; f_equal.
    apply (model_answers_follow_ups tools' rounds _ _ F). }
  rewrite A in *; unfold total_tokens; cbn [hd tl].
  inversion Hc as [| ? ? Hfirst Hrest]; subst.
  destruct Hfirst as [fs [i [o [Hu [Hi [Ho _]]]]]].
  rewrite Hu in U.
  destruct (fold_usage_counted _ fs i o total Hrest Hi Ho U) as [R1 [R2 R3]].
  unfold usage, tokens; cbn [IO.body member assoc String.eqb Ascii.eqb Bool.eqb].
  rewrite Hu; cbn [member]; rewrite Hi, Ho; auto.
Qed.

End Separate.

(** **** What fails a request *)

(** X18.  A [conversationHistory] that cannot be spread (not an array, nor
    a string) fails the request inside the [try]: the answer is 500 with
    [Failed to process chat message], after the catalog fetch if the cache
    was empty and without any call to the model. *)
Theorem history_must_be_iterable (fuel : nat) (tools : list value) (body : value)
    (text : string) :
  member body "message" = VStr text ->
  text <> "" ->
  (forall items, member body "conversationHistory" <> VArr items) ->
  member body "conversationHistory" <> VUndef ->
  is_string (member body "conversationHistory") = false ->
  api_chat MCP_SERVER_URL net fuel tools body
  = (fst (ensure_tools MCP_SERVER_URL net tools),
     (snd (ensure_tools MCP_SERVER_URL net tools),
      Responded {| status := 500;
                   body := VObj [("error", VStr "Failed to process chat message")] |})).
Proof.
  intros Hm Ht Ha Hu Hs.
  rewrite (api_chat_accepted MCP_SERVER_URL net fuel tools body text Hm Ht).
  destruct (ensure_tools _ _ tools) as [tr0 tools0]; cbn [fst snd].
  unfold chat_try; rewrite bind_lift.
  destruct (member body "conversationHistory") as [| | b | x | s | items | fs];
    try reflexivity; try discriminate; try contradiction.
  destruct (Ha items eq_refl).
Qed.

(** An exception that is not the failure of an outbound call. *)
Definition no_failed_call (e : exn) : Prop :=
  match e with
  | AxiosError _ _ => False
  | _ => True
  end.

Lemma type_errors_fail_no_call m : no_failed_call (TypeError m).
Proof. exact I. Qed.

(** Computations that never throw the error of a failed call. *)
Definition quiet {A} (m : M A) : Prop :=
  forall tr, Gateway.local no_failed_call (snd (m tr)).

Lemma quiet_ret {A} (a : A) : quiet (ret a).
Proof. intros tr; exact I. Qed.

Lemma quiet_lift {A} (r : result A) : Gateway.local no_failed_call r -> quiet (lift r).
Proof. intros H tr; exact H. Qed.

Lemma quiet_bind {A B} (m : M A) (k : A -> M B) :
  quiet m -> (forall a, quiet (k a)) -> quiet (bind m k).
Proof.
  intros Hm Hk tr; specialize (Hm tr); unfold bind.
  destruct (m tr) as [tr1 [a | e]]; [apply Hk | exact Hm].
Qed.

Lemma quiet_try_catch {A} (m : M A) (h : exn -> M A) :
  (forall e, quiet (h e)) -> quiet (try_catch m h).
Proof.
  intros Hh tr; unfold try_catch.
  destruct (m tr) as [tr1 [a | e]]; [exact I | apply Hh].
Qed.

Lemma get_makes_no_call v k : Gateway.local no_failed_call (get v k).
Proof. apply Gateway.local_get, type_errors_fail_no_call. Qed.

Lemma to_string_makes_no_call v : Gateway.local no_failed_call (to_string v).
Proof. apply Gateway.local_to_string, type_errors_fail_no_call. Qed.

Lemma iterate_makes_no_call expr v : Gateway.local no_failed_call (iterate expr v).
Proof. apply Gateway.local_iterate, type_errors_fail_no_call. Qed.

Lemma is_tool_use_makes_no_call block : Gateway.local no_failed_call (is_tool_use block).
Proof.
  unfold is_tool_use; apply Gateway.local_rbind; [apply get_makes_no_call | intros; exact I].
Qed.

Lemma wants_tools_makes_no_call data : Gateway.local no_failed_call (wants_tools data).
Proof.
  unfold wants_tools; apply Gateway.local_rbind; [apply get_makes_no_call | intros content].
  destruct content as [| | b | x | s | items | fs];
    try (apply Gateway.local_method_missing, type_errors_fail_no_call).
  cbn [method_some]; induction items as [| b items IH]; [exact I |].
  cbn [some_of]; apply Gateway.local_rbind; [apply is_tool_use_makes_no_call | intros [|]];
    [exact I | exact IH].
Qed.

Lemma plus_makes_no_call a b : Gateway.local no_failed_call (plus a b).
Proof.
  assert (P : forall v, Gateway.local no_failed_call (to_primitive v)).
  { intros v; destruct v; try exact I;
      (apply Gateway.local_rbind; [apply to_string_makes_no_call | intros; exact I]). }
  unfold plus; apply Gateway.local_rbind; [apply P | intros pa].
  apply Gateway.local_rbind; [apply P | intros pb].
  destruct (is_string pa || is_string pb); [| exact I].
  apply Gateway.local_rbind; [apply to_string_makes_no_call | intros sa].
  apply Gateway.local_rbind; [apply to_string_makes_no_call | intros sb; exact I].
Qed.

Lemma add_tokens_makes_no_call k usage total : Gateway.local no_failed_call (add_tokens k usage total).
Proof.
  unfold add_tokens; apply Gateway.local_rbind; [apply get_makes_no_call | intros old].
  apply Gateway.local_rbind; [apply plus_makes_no_call | intros sum].
  destruct total; exact I.
Qed.

Lemma accumulate_usage_makes_no_call data total :
  Gateway.local no_failed_call (accumulate_usage data total).
Proof.
  unfold accumulate_usage; apply Gateway.local_rbind; [apply get_makes_no_call | intros usage].
  destruct (truthy usage); [| exact I].
  apply Gateway.local_rbind; [apply add_tokens_makes_no_call | intros; apply add_tokens_makes_no_call].
Qed.

Lemma quiet_call_tools blocks : quiet (call_tools MCP_SERVER_URL net blocks).
Proof.
  induction blocks as [| b blocks IH]; cbn [call_tools]; [apply quiet_ret |].
  apply quiet_bind.
  - unfold call_tool; apply quiet_bind; [apply quiet_lift, is_tool_use_makes_no_call | intros [|]];
      [| apply quiet_ret].
    apply quiet_bind; [apply quiet_lift, to_string_makes_no_call | intros name].
    apply quiet_try_catch; intros; apply quiet_ret.
  - intros results; apply quiet_bind; [exact IH | intros; apply quiet_ret].
Qed.

Lemma quiet_handleToolCalls content : quiet (handleToolCalls MCP_SERVER_URL net content).
Proof.
  unfold handleToolCalls; apply quiet_bind; [apply quiet_lift, iterate_makes_no_call |].
  intros blocks; apply quiet_bind; [apply quiet_call_tools | intros; apply quiet_ret].
Qed.

(** The failure of a call that ends a computation is the one of a call to
    the model, the last call made. *)
Definition fails_at_the_model {A} (m : M A) : Prop :=
  forall tr tr' message response,
    m tr = (tr', Throw (AxiosError message response)) ->
    exists earlier payload,
      tr' = (earlier ++ [(Post MESSAGES_URL payload, Failed message response)])%list.

Lemma quiet_fails_at_the_model {A} (m : M A) : quiet m -> fails_at_the_model m.
Proof.
  intros H tr tr' message response E; specialize (H tr); rewrite E in H; destruct H.
Qed.

Lemma bind_fails_at_the_model {A B} (m : M A) (k : A -> M B) :
  fails_at_the_model m -> (forall a, fails_at_the_model (k a)) ->
  fails_at_the_model (bind m k).
Proof.
  intros Hm Hk tr tr' message response; unfold bind.
  destruct (m tr) as [tr1 [a | e]] eqn:E; [apply Hk |].
  intros H; inversion H; subst; eapply Hm; exact E.
Qed.

Lemma model_call_fails_at_the_model payload :
  fails_at_the_model (axios net (Post MESSAGES_URL payload)).
Proof.
  intros tr tr' message response; unfold axios.
  destruct (net tr _) as [d | m r]; cbn [settle]; intros H; inversion H; subst.
  exists tr, payload; reflexivity.
Qed.

Lemma tool_round_fails_at_the_model tools cur final usage :
  fails_at_the_model (tool_round MCP_SERVER_URL net tools cur final usage).
Proof.
  unfold tool_round.
  apply bind_fails_at_the_model;
    [apply quiet_fails_at_the_model, quiet_lift, get_makes_no_call | intros content].
  apply bind_fails_at_the_model;
    [apply quiet_fails_at_the_model, quiet_handleToolCalls | intros results].
  apply bind_fails_at_the_model; [apply model_call_fails_at_the_model | intros data].
  apply bind_fails_at_the_model;
    [apply quiet_fails_at_the_model, quiet_lift, accumulate_usage_makes_no_call | intros total].
  apply quiet_fails_at_the_model, quiet_ret.
Qed.

Lemma tool_loop_fails_at_the_model fuel : forall tools cur final usage,
  fails_at_the_model (tool_loop MCP_SERVER_URL net fuel tools cur final usage).
Proof.
  induction fuel as [| fuel IH]; intros tools cur final usage; cbn [tool_loop];
    (apply bind_fails_at_the_model;
     [apply quiet_fails_at_the_model, quiet_lift, wants_tools_makes_no_call | intros [|]]);
    try apply quiet_fails_at_the_model, quiet_ret.
  apply bind_fails_at_the_model;
    [apply tool_round_fails_at_the_model | intros [[c f] u]; apply IH].
Qed.

Lemma chat_try_fails_at_the_model fuel tools message history :
  fails_at_the_model (chat_try MCP_SERVER_URL net fuel tools message history).
Proof.
  unfold chat_try.
  apply bind_fails_at_the_model;
    [apply quiet_fails_at_the_model, quiet_lift, iterate_makes_no_call | intros h].
  apply bind_fails_at_the_model; [apply model_call_fails_at_the_model | intros data].
  apply bind_fails_at_the_model;
    [apply quiet_fails_at_the_model, quiet_lift, get_makes_no_call | intros usage].
  apply bind_fails_at_the_model;
    [apply tool_loop_fails_at_the_model | intros [[final total] |]];
    [| apply quiet_fails_at_the_model, quiet_ret].
  apply bind_fails_at_the_model;
    [apply quiet_fails_at_the_model, quiet_lift, get_makes_no_call | intros content].
  apply quiet_fails_at_the_model, quiet_ret.
Qed.

(** X19.  When the handler of the chat endpoint itself answers 401 or 429,
    it passes on the status of the model API: the last call of the request
    was a call to the model that failed with that status.  A gateway or a
    catalog fetch that fails, whatever its status, never makes the handler
    answer so.  (The rate limiter in front of the handler answers 429 on
    its own account, without running the handler.) *)
Theorem auth_errors_come_from_the_model (fuel : nat) (tools : list value) (body : value)
    (tr : trace) (tools' : list value) (r : response) :
  api_chat MCP_SERVER_URL net fuel tools body = (tr, (tools', Responded r)) ->
  status r = 401%N \/ status r = 429%N ->
  exists earlier payload message data,
    tr = (earlier ++ [(Post MESSAGES_URL payload,
                       Failed message (Some (status r, data)))])%list.
Proof.
  unfold api_chat.
  destruct (destructurable _ _ body); [| discriminate].
  destruct (negb _ || negb _).
  { intros H; inversion H; subst; intros [S | S]; discriminate S. }
  destruct (ensure_tools _ _ tools) as [tr0 tools0].
  destruct (chat_try _ _ _ _ _ _ tr0) as [tr1 [[res |] | e]] eqn:T; try discriminate.
  { intros H; inversion H; subst; clear H; intros S.
    exfalso; revert T S; unfold chat_try.
    rewrite bind_lift; destruct (iterate _ _) as [h | e]; [| discriminate].
    unfold bind at 1; destruct (axios _ _ _) as [tr2 [data | e]]; [| discriminate].
    rewrite bind_lift; destruct (get data "usage") as [usage | e]; [| discriminate].
    unfold bind at 1.
    destruct (tool_loop _ _ _ _ _ _ _ _) as [tr3 [[[final total] |] | e]]; try discriminate.
    rewrite bind_lift; destruct (get final "content") as [content | e]; [| discriminate].
    unfold ret; intros H; inversion H; subst; intros [S | S]; discriminate S. }
  intros H; inversion H; subst; clear H; intros S.
  assert (X : exists message st data,
                e = AxiosError message (Some (st, data)) /\ status (chat_catch e) = st).
  { unfold chat_catch in *.
    destruct e as [m | m | m [[st data] |]]; cbv beta zeta in *;
      try (destruct S as [S | S]; discriminate S).
    exists m, st, data; split; [reflexivity |].
    destruct (N.eqb st 401) eqn:E1; [apply N.eqb_eq in E1; subst; reflexivity |].
    destruct (N.eqb st 429) eqn:E2; [apply N.eqb_eq in E2; subst; reflexivity |].
    destruct S as [S | S]; discriminate S. }
  destruct X as [message [st [data [-> Est]]]].
  destruct (chat_try_fails_at_the_model _ _ _ _ _ _ _ _ T) as [earlier [payload ->]].
  exists earlier, payload, message, data; rewrite Est; reflexivity.
Qed.

(** **** The loop has no bound *)

(** Usage counters that are numbers. *)
Definition numeric_counters (fields : list (string * value)) : Prop :=
  exists input output,
    assoc "input_tokens" fields = VNum input /\ assoc "output_tokens" fields = VNum output.

(** A model that asks for a tool in every response: each response a list of
    well-formed blocks, one of them a tool-use block, with [usage] an
    object holding the two counters as numbers. *)
Definition insists : Prop :=
  forall tr payload, exists data blocks fields,
    net tr (Post MESSAGES_URL payload) = Answered data
    /\ member data "content" = VArr blocks
    /\ Forall well_formed_block blocks
    /\ existsb uses_tool blocks = true
    /\ member data "usage" = VObj fields
    /\ numeric_counters fields.

Lemma or_else_number x : exists y, or_else (VNum x) (VNum 0) = VNum y.
Proof. unfold or_else; destruct (truthy (VNum x)); eexists; reflexivity. Qed.

Lemma accumulate_numbers data fields total :
  member data "usage" = VObj fields ->
  numeric_counters fields ->
  numeric_counters total ->
  exists total',
    accumulate_usage data (VObj total) = Ok (VObj total') /\ numeric_counters total'.
Proof.
  intros Hu [i [o [Hi Ho]]] [ti [to [Hti Hto]]].
  unfold accumulate_usage, get.
  rewrite (member_defined data "usage") by (rewrite Hu; discriminate).
  cbn [rbind]; rewrite Hu; cbn [truthy].
  destruct (or_else_number i) as [i' Ei], (or_else_number o) as [o' Eo].
  rewrite (add_tokens_numbers "input_tokens" (VObj fields) total ti i' Hti)
    by (cbn [member]; rewrite Hi; exact Ei).
  cbn [rbind].
  rewrite (add_tokens_numbers "output_tokens" (VObj fields) _ to o')
    by (rewrite ?assoc_set_field; cbn [member String.eqb Ascii.eqb Bool.eqb];
        first [exact Hto | rewrite Ho; exact Eo]).
  eexists; split; [reflexivity |].
  eexists _, _; rewrite !assoc_set_field; cbn [String.eqb Ascii.eqb Bool.eqb].
  split; reflexivity.
Qed.

Lemma tool_loop_goes_on fuel : forall tools cur final usage blocks tr,
  insists ->
  member final "content" = VArr blocks ->
  Forall well_formed_block blocks ->
  existsb uses_tool blocks = true ->
  numeric_counters usage ->
  exists tr',
    tool_loop MCP_SERVER_URL net fuel tools cur final (VObj usage) tr = (tr', Ok None)
    /\ List.length tr + fuel <= List.length tr'.
Proof.
  induction fuel as [| fuel IH]; intros tools cur final usage blocks tr Hi Hc Hb Hu Hn;
    assert (Ho : Forall (fun b => is_nullish b = false) blocks)
      by (revert Hb; apply Forall_impl; intros b [N _]; exact N);
    rewrite tool_loop_unfold, (wants_tools_objects final blocks Hc Ho), Hu.
  - exists tr; split; [reflexivity | lia].
  - rewrite (tool_round_exchanges MCP_SERVER_URL net tools cur final (VObj usage) blocks tr
               Hc Hb).
    cbv zeta.
    set (exchanges := tool_exchanges MCP_SERVER_URL net tr (filter uses_tool blocks)).
    set (messages := (cur ++ [entry "assistant" (VArr blocks);
                              entry "user" (VArr (map snd exchanges))])%list).
    set (payload := VObj [("model", VStr "claude-sonnet-4-20250514");
                          ("max_tokens", VNum 2000);
                          ("messages", VArr messages);
                          ("tools", VArr tools);
                          ("system", VStr (system_prompt 17))]).
    change (follow_up_request tools messages) with (Post MESSAGES_URL payload).
    destruct (Hi (tr ++ map fst exchanges)%list payload)
      as [data [blocks' [fields [A [Hc' [Hb' [Hu' [Hf Hn']]]]]]]].
    rewrite A.
    destruct (accumulate_numbers data fields usage Hf Hn' Hn) as [usage' [U Hn'']].
    rewrite U.
    destruct (IH tools messages data usage' blocks'
                (tr ++ map fst exchanges
                    ++ [(Post MESSAGES_URL payload, Answered data)])%list
                Hi Hc' Hb' Hu' Hn'')
      as [tr' [E L]].
    exists tr'; split; [exact E |].
    rewrite !length_app in L; cbn [List.length] in L; lia.
Qed.

(** X20.  The loop has no bound of its own: in front of a model that asks
    for a tool in every response (each response a list of blocks that are
    objects, the tool-use blocks with a string for a name, and [usage] an
    object with the two counters as numbers), the request is still
    unanswered after any number of rounds, each of which called the model
    again. *)
Theorem tool_loop_has_no_bound (tools : list value) (body : value) (text : string)
    (history : list value) :
  insists ->
  member body "message" = VStr text ->
  text <> "" ->
  default_to (VArr []) (member body "conversationHistory") = VArr history ->
  forall fuel,
    snd (snd (api_chat MCP_SERVER_URL net fuel tools body)) = Unfinished
    /\ fuel < List.length (fst (api_chat MCP_SERVER_URL net fuel tools body)).
Proof.
  intros Hi Hm Ht Hh fuel.
  rewrite (api_chat_accepted MCP_SERVER_URL net fuel tools body text Hm Ht).
  destruct (ensure_tools _ _ tools) as [tr0 tools0].
  rewrite Hh, chat_try_unfold; cbv zeta.
  set (start := (history ++ [entry "user" (VStr text)])%list).
  assert (P : exists payload, first_request tools0 start = Post MESSAGES_URL payload)
    by (eexists; reflexivity).
  destruct P as [payload P]; rewrite P.
  destruct (Hi tr0 payload) as [data [blocks [fields [A [Hc [Hb [Hu [Hf Hn]]]]]]]].
  rewrite A; unfold get.
  rewrite (member_defined data "content") by (rewrite Hc; discriminate).
  rewrite Hf.
  destruct (tool_loop_goes_on fuel tools0 start data fields blocks
              (tr0 ++ [(Post MESSAGES_URL payload, Answered data)])%list Hi Hc Hb Hu Hn)
    as [tr' [E L]].
  rewrite E; cbn [fst snd]; split; [reflexivity |].
  rewrite length_app in L; cbn [List.length] in L; lia.
Qed.

(** **** The tool catalog *)

(** What the bridge keeps of a catalog entry. *)
Definition descriptor (tool : value) : value :=
  VObj [("name", member tool "name");
        ("description", member tool "description");
        ("input_schema", member tool "inputSchema")].

Lemma chat_try_begins fuel tools message history tr :
  let first := first_request tools (history ++ [entry "user" message])%list in
  exists rest,
    fst (chat_try MCP_SERVER_URL net fuel tools message (VArr history) tr)
    = (tr ++ (first, net tr first) :: rest)%list.
Proof.
  intros first; rewrite chat_try_unfold; cbv zeta; fold first.
  destruct (net tr first) as [data | m r] eqn:A; [| exists []; reflexivity].
  destruct (get data "usage") as [usage | e]; [| exists []; reflexivity].
  destruct (extends_tool_loop MCP_SERVER_URL net fuel tools
              (history ++ [entry "user" message])%list data usage
              (tr ++ [(first, Answered data)])%list) as [more X].
  destruct (tool_loop _ _ _ _ _ _ _ _) as [tr2 [[[final total] |] | e]];
    try destruct (get final "content");
    cbn [fst] in X |- *; subst tr2; exists more; rewrite <- app_assoc; reflexivity.
Qed.

Lemma api_chat_begins fuel tools body text history :
  member body "message" = VStr text ->
  text <> "" ->
  default_to (VArr []) (member body "conversationHistory") = VArr history ->
  let fetched := ensure_tools MCP_SERVER_URL net tools in
  let first := first_request (snd fetched) (history ++ [entry "user" (VStr text)])%list in
  fst (snd (api_chat MCP_SERVER_URL net fuel tools body)) = snd fetched
  /\ exists rest,
       fst (api_chat MCP_SERVER_URL net fuel tools body)
       = (fst fetched ++ (first, net (fst fetched) first) :: rest)%list.
Proof.
  intros Hm Ht Hh fetched first; subst first fetched.
  rewrite (api_chat_accepted MCP_SERVER_URL net fuel tools body text Hm Ht).
  destruct (ensure_tools _ _ tools) as [tr0 tools0]; cbn [fst snd]; rewrite Hh.
  destruct (chat_try_begins fuel tools0 (VStr text) history tr0) as [rest E].
  destruct (chat_try _ _ _ _ _ _ _) as [tr1 [[r |] | e]]; cbn [fst snd] in E |- *;
    (split; [reflexivity | exists rest; exact E]).
Qed.

(** X14.  With an empty cache, a chat request first fetches the catalog;
    when the gateway answers with [tools] a list of objects, the cache
    becomes one descriptor per tool, in order, holding its [name], its
    [description] and its [inputSchema] under the name [input_schema], and
    the first call to the model is made with these as [tools], and with
    [tool_choice: {type: 'auto'}], unless the list is empty. *)
Theorem catalog_becomes_descriptors (fuel : nat) (body : value) (text : string)
    (history : list value) (data : value) (catalog : list value) :
  member body "message" = VStr text ->
  text <> "" ->
  default_to (VArr []) (member body "conversationHistory") = VArr history ->
  net [] (Get (MCP_SERVER_URL ++ "/tools")) = Answered data ->
  member data "tools" = VArr catalog ->
  Forall (fun tool => is_nullish tool = false) catalog ->
  let fetch := (Get (MCP_SERVER_URL ++ "/tools"), Answered data) in
  let first :=
    Post "https://api.anthropic.com/v1/messages"
      (VObj ([("model", VStr "claude-sonnet-4-20250514");
              ("max_tokens", VNum 2000);
              ("messages",
               VArr (history ++ [VObj [("role", VStr "user"); ("content", VStr text)]]));
              ("system", VStr (system_prompt 15))]
             ++ match catalog with
                | [] => []
                | _ => [("tools", VArr (map descriptor catalog));
                        ("tool_choice", VObj [("type", VStr "auto")])]
                end)%list) in
  fst (snd (api_chat MCP_SERVER_URL net fuel [] body)) = map descriptor catalog
  /\ exists rest,
       fst (api_chat MCP_SERVER_URL net fuel [] body)
       = fetch :: (first, net [fetch] first) :: rest.
Proof.
  intros Hm Ht Hh A Hc Hn fetch first.
  assert (E : ensure_tools MCP_SERVER_URL net [] = ([fetch], map descriptor catalog)).
  { unfold ensure_tools, initializeMCPTools, try_catch, bind, axios, lift;
      cbn [List.length Nat.eqb app].
    rewrite A; cbn [settle]; unfold get.
    rewrite (member_defined data "tools") by (rewrite Hc; discriminate).
    rewrite Hc; unfold method_map.
    rewrite (rmap_ok _ descriptor); [reflexivity |].
    intros tool Hin; rewrite Forall_forall in Hn.
    unfold tool_descriptor, get; rewrite (Hn tool Hin); reflexivity. }
  destruct (api_chat_begins fuel [] body text history Hm Ht Hh) as [T [rest R]].
  rewrite E in T, R; cbn [fst snd] in T, R.
  split; [exact T | exists rest].
  rewrite R; unfold first, first_request, entry; destruct catalog; reflexivity.
Qed.

(** X15.  When the catalog cannot be fetched, or the answer holds no list
    of tools, the request goes on without tools: the cache stays empty and
    the first call to the model carries [model], [max_tokens], [messages]
    and [system] only. *)
Theorem chat_survives_missing_catalog (fuel : nat) (body : value) (text : string)
    (history : list value) :
  member body "message" = VStr text ->
  text <> "" ->
  default_to (VArr []) (member body "conversationHistory") = VArr history ->
  let fetch := Get (MCP_SERVER_URL ++ "/tools") in
  match net [] fetch with
  | Failed _ _ => True
  | Answered data => forall tools, member data "tools" <> VArr tools
  end ->
  let first :=
    Post MESSAGES_URL
      (VObj [("model", VStr "claude-sonnet-4-20250514");
             ("max_tokens", VNum 2000);
             ("messages",
              VArr (history ++ [VObj [("role", VStr "user"); ("content", VStr text)]]));
             ("system", VStr (system_prompt 15))]) in
  fst (snd (api_chat MCP_SERVER_URL net fuel [] body)) = []
  /\ exists rest,
       fst (api_chat MCP_SERVER_URL net fuel [] body)
       = (fetch, net [] fetch) :: (first, net [(fetch, net [] fetch)] first) :: rest.
Proof.
  intros Hm Ht Hh fetch Hf first.
  assert (E : ensure_tools MCP_SERVER_URL net [] = ([(fetch, net [] fetch)], [])).
  { unfold ensure_tools, initializeMCPTools, try_catch, bind, axios, lift, ret;
      cbn [List.length Nat.eqb app]; fold fetch.
    destruct (net [] fetch) as [data | m r]; cbn [settle]; [| reflexivity].
    destruct (get data "tools") as [tools | e] eqn:G; [| reflexivity].
    apply get_member in G; subst tools.
    destruct (member data "tools") as [| | b | x | s | items | fs] eqn:M;
      try reflexivity.
    destruct (Hf items eq_refl). }
  destruct (api_chat_begins fuel [] body text history Hm Ht Hh) as [T [rest R]].
  rewrite E in T, R; cbn [fst snd] in T, R.
  split; [exact T | exists rest; exact R].
Qed.

(** **** The bridge in front of the gateway *)

(** A value as JSON carries it from axios to a handler: what [JSON.parse]
    gives back from the text of [JSON.stringify].  Fields that are
    [undefined] are left out, [undefined] in an array, NaN and the
    infinities become [null], and negative zero becomes zero. *)
Fixpoint transported (v : value) : value :=
  match v with
  | VUndef => VNull
  | VNum x =>
      if PrimFloat.is_finite x
      then (if PrimFloat.is_zero x then VNum 0 else VNum x)
      else VNull
  | VArr l => VArr (map transported l)
  | VObj fs =>
      VObj ((fix fields (fs : list (string * value)) : list (string * value) :=
               match fs with
               | [] => []
               | (_, VUndef) :: fs' => fields fs'
               | (k, x) :: fs' => (k, transported x) :: fields fs'
               end) fs)
  | _ => v
  end.

(** X21.  For a tool-use block whose [name] is a string and whose [input]
    is an object, as every tool-use block of the model has, the bridge
    makes one POST to the route named by the block, handing axios
    [{arguments: input}]; and a gateway handler given that body as JSON
    carries it runs on the input as JSON carries it, also when the input
    has an [arguments] field of its own. *)
Theorem tool_input_reaches_the_handler (block : value)
    (fields : list (string * value)) (tr : trace) :
  is_nullish block = false ->
  uses_tool block = true ->
  primitive (member block "name") ->
  member block "input" = VObj fields ->
  let posted := VObj [("arguments", VObj fields)] in
  (exists a,
     fst (call_tool MCP_SERVER_URL net block tr)
     = (tr ++ [(Post (MCP_SERVER_URL ++ "/" ++ text (member block "name")) posted,
                a)])%list)
  /\ forall token s2n max_arguments mapbox sf ep,
       Gateway.handler token s2n max_arguments mapbox sf ep (transported posted)
       = Gateway.handle
           (Gateway.try_with token s2n max_arguments mapbox sf ep
              (transported (VObj fields)))
           (Gateway.catch_block ep).
Proof.
  intros Hn Hu Hp Hi posted; split.
  - rewrite (call_tool_exchange MCP_SERVER_URL net block tr (conj Hn (fun _ => Hp))), Hu.
    unfold tool_request; rewrite Hi; eexists; reflexivity.
  - intros token s2n max_arguments mapbox sf ep.
    apply Gateway.handler_on, Gateway.request_arguments_truthy; reflexivity.
Qed.

End Calls.

(** *** Further worked examples *)

(** A gateway that serves its catalog, behind a model that answers at once. *)
Definition served : world :=
  fun _ r =>
    match r with
    | Get _ => Answered (IO.body Gateway.get_tools)
    | Post _ _ => Answered (model_response [text_block "Hello!"] 12 3)
    end.

Definition hello : value := VObj [("message", VStr "Hello")].

Lemma catalog_becomes_descriptors_witness :
  fst (snd (api_chat example_url served 3 [] hello)) = map descriptor Gateway.tools
  /\ map (fun tool => member tool "name") (fst (snd (api_chat example_url served 3 [] hello)))
     = [VStr "geocode_forward"; VStr "geocode_reverse"; VStr "get_directions";
        VStr "get_static_image"; VStr "get_route_map"; VStr "get_matrix"]
  /\ map fst (firstn 2 (fst (api_chat example_url served 3 [] hello)))
     = [Get "http://localhost:3000/tools";
        Post "https://api.anthropic.com/v1/messages"
          (VObj [("model", VStr "claude-sonnet-4-20250514");
                 ("max_tokens", VNum 2000);
                 ("messages",
                  VArr [VObj [("role", VStr "user"); ("content", VStr "Hello")]]);
                 ("system", VStr (system_prompt 15));
                 ("tools", VArr (map descriptor Gateway.tools));
                 ("tool_choice", VObj [("type", VStr "auto")])])].
Proof.
  destruct (catalog_becomes_descriptors example_url served 3 hello "Hello" []
              (IO.body Gateway.get_tools) Gateway.tools
              eq_refl ltac:(discriminate) eq_refl eq_refl eq_refl
              ltac:(repeat constructor)) as [T [rest R]].
  split; [exact T |].
  split; [rewrite T; reflexivity | rewrite R; reflexivity].
Defined.

Lemma chat_survives_missing_catalog_witness :
  fst (snd (api_chat example_url assistant 5 [] where_is_paris)) = []
  /\ map fst (firstn 2 (fst (api_chat example_url assistant 5 [] where_is_paris)))
     = [Get "http://localhost:3000/tools";
        Post "https://api.anthropic.com/v1/messages"
          (VObj [("model", VStr "claude-sonnet-4-20250514");
                 ("max_tokens", VNum 2000);
                 ("messages",
                  VArr [VObj [("role", VStr "user");
                              ("content", VStr "Where is Paris?")]]);
                 ("system", VStr (system_prompt 15))])].
Proof.
  destruct (chat_survives_missing_catalog example_url assistant 5 where_is_paris
              "Where is Paris?" [] eq_refl ltac:(discriminate) eq_refl I)
    as [T [rest R]].
  split; [exact T | rewrite R; reflexivity].
Defined.

Lemma assistant_is_well_formed : well_formed_model assistant.
Proof.
  intros tr payload data; unfold assistant.
  change (MESSAGES_URL =? MESSAGES_URL) with true; cbv iota.
  destruct (List.length (model_calls tr)) as [| [| n]]; intros H; injection H as <-;
    (eexists; split; [reflexivity |]);
    repeat (constructor; [split; [reflexivity | intros; exact I] |]); constructor.
Qed.

Lemma successful_run_is_one_conversation_witness :
  exists first replies,
    let start := [VObj [("role", VStr "user"); ("content", VStr "Where is Paris?")]] in
    let opening :=
      (fst (ensure_tools example_url assistant [])
       ++ [(first_request [] start, Answered first)])%list in
    fst (api_chat example_url assistant 5 [] where_is_paris)
    = (opening ++ conversation example_url assistant [] start first opening replies)%list
    /\ Forall (fun d => asks d = true) (removelast (first :: replies))
    /\ asks (last replies first) = false
    /\ VArr [text_block "Paris is at 2.35, 48.85."]
       = member (last replies first) "content".
Proof.
  apply (successful_run_is_one_conversation example_url assistant 5 [] where_is_paris []
           (fst (api_chat example_url assistant 5 [] where_is_paris)) [] paris_answer).
  - exact assistant_is_well_formed.
  - reflexivity.
  - vm_compute; reflexivity.
  - reflexivity.
Defined.

Lemma local_gateway_is_not_the_model name : example_url ++ "/" ++ name <> MESSAGES_URL.
Proof. cbn; discriminate. Qed.

Lemma usage_is_summed_witness :
  member (member (IO.body paris_answer) "usage") "input_tokens" = VNum 450
  /\ member (member (IO.body paris_answer) "usage") "output_tokens" = VNum 90.
Proof.
  assert (N : forall x, PrimFloat.is_zero x = false -> x <> (-0)%float).
  { intros x Z E; subst x; discriminate Z. }
  destruct (usage_is_summed example_url assistant local_gateway_is_not_the_model
              5 [] where_is_paris []
              (fst (api_chat example_url assistant 5 [] where_is_paris)) [] paris_answer)
    as [I [O _]].
  - reflexivity.
  - vm_compute; reflexivity.
  - reflexivity.
  - vm_compute.
    repeat (constructor;
            [eexists _, _, _; repeat split; try reflexivity; apply N; reflexivity |]).
    constructor.
  - split; [rewrite I | rewrite O]; vm_compute; reflexivity.
Defined.

Lemma history_must_be_iterable_witness :
  snd (snd (api_chat example_url talker 3 []
              (VObj [("message", VStr "Hello"); ("conversationHistory", VNull)])))
  = Responded {| status := 500;
                 body := VObj [("error", VStr "Failed to process chat message")] |}.
Proof.
  rewrite (history_must_be_iterable example_url talker 3 []
             (VObj [("message", VStr "Hello"); ("conversationHistory", VNull)]) "Hello"
             eq_refl ltac:(discriminate) ltac:(discriminate) ltac:(discriminate) eq_refl).
  reflexivity.
Defined.

Lemma auth_errors_come_from_the_model_witness :
  exists earlier payload message data,
    fst (api_chat example_url locked 3 [] hello)
    = (earlier ++ [(Post MESSAGES_URL payload, Failed message (Some (401%N, data)))])%list.
Proof.
  apply (auth_errors_come_from_the_model example_url locked 3 [] hello
           (fst (api_chat example_url locked 3 [] hello)) []
           {| status := 401; body := VObj [("error", VStr "Invalid API key")] |}).
  - vm_compute; reflexivity.
  - left; reflexivity.
Defined.

(** A model that asks for the same tool again and again. *)
Definition insistent : world :=
  fun _ r =>
    match r with
    | Get _ => Answered (VObj [("tools", VArr [])])
    | Post url _ =>
        if url =? MESSAGES_URL
        then Answered (model_response [geocode_paris] 10 5)
        else Answered (VObj [("success", VBool true); ("results", VArr []);
                             ("total", VNum 0)])
    end.

Lemma tool_loop_has_no_bound_witness :
  snd (snd (api_chat example_url insistent 7 [] where_is_paris)) = Unfinished
  /\ 7 < List.length (fst (api_chat example_url insistent 7 [] where_is_paris)).
Proof.
  apply (tool_loop_has_no_bound example_url insistent [] where_is_paris
           "Where is Paris?" []).
  - intros tr payload.
    exists (model_response [geocode_paris] 10 5), [geocode_paris],
           [("input_tokens", VNum 10); ("output_tokens", VNum 5)].
    repeat split; try reflexivity.
    + constructor; [split; [reflexivity | intros; exact I] | constructor].
    + eexists _, _; split; reflexivity.
  - reflexivity.
  - discriminate.
  - reflexivity.
Defined.

Lemma tool_input_reaches_the_handler_witness :
  (exists a,
     fst (call_tool example_url assistant geocode_paris [])
     = [(Post "http://localhost:3000/geocode_forward"
           (VObj [("arguments", VObj [("query", VStr "Paris")])]), a)])
  /\ forall token s2n max_arguments mapbox sf ep,
       Gateway.handler token s2n max_arguments mapbox sf ep
         (VObj [("arguments", VObj [("query", VStr "Paris")])])
       = Gateway.handle
           (Gateway.try_with token s2n max_arguments mapbox sf ep
              (VObj [("query", VStr "Paris")]))
           (Gateway.catch_block ep).
Proof.
  exact (tool_input_reaches_the_handler example_url assistant geocode_paris
           [("query", VStr "Paris")] [] eq_refl eq_refl I eq_refl).
Defined.

(** *** A response of the model without content *)

Section Malformed.

Variable MCP_SERVER_URL : string.
Variable net : world.

(** X23.  The handler relies on the model's answer holding a list under
    [content]: when the first answer has none, the search for tool-use
    blocks throws, and the request is answered 500 with
    [Failed to process chat message] after that one call. *)
Theorem answer_without_content_fails (fuel : nat) (tools : list value) (body : value)
    (text : string) (history : list value) (data : value) :
  member body "message" = VStr text ->
  text <> "" ->
  default_to (VArr []) (member body "conversationHistory") = VArr history ->
  let fetched := ensure_tools MCP_SERVER_URL net tools in
  let first := Post MESSAGES_URL
                 (first_payload (snd fetched)
                    (history ++ [chat_message "user" (VStr text)])%list) in
  net (fst fetched) first = Answered data ->
  (forall blocks, member data "content" <> VArr blocks) ->
  api_chat MCP_SERVER_URL net fuel tools body
  = ((fst fetched ++ [(first, Answered data)])%list,
     (snd fetched,
      Responded {| status := 500;
                   body := VObj [("error", VStr "Failed to process chat message")] |})).
Proof.
  intros Hm Ht Hh fetched first A Hc; subst first fetched.
  rewrite (api_chat_accepted MCP_SERVER_URL net fuel tools body text Hm Ht).
  destruct (ensure_tools _ _ tools) as [tr0 tools0]; cbn [fst snd] in *.
  rewrite first_payload_request in *.
  change (chat_message "user" (VStr text)) with (entry "user" (VStr text)) in *.
  rewrite Hh, chat_try_unfold; cbv zeta; rewrite A.
  unfold get; destruct (is_nullish data) eqn:N; [destruct data; try discriminate; reflexivity |].
  rewrite tool_loop_unfold; unfold wants_tools, get; rewrite N; cbn [rbind].
  destruct (member data "content") as [| | b | x | s | blocks | fs]; try reflexivity.
  destruct (Hc blocks eq_refl).
Qed.

End Malformed.

(** A model API that answers with an error object and status 200. *)
Definition overloaded : world :=
  fun _ r =>
    match r with
    | Get _ => Answered (VObj [("tools", VArr [])])
    | Post _ _ => Answered (VObj [("type", VStr "error")])
    end.

Lemma answer_without_content_fails_witness :
  snd (snd (api_chat example_url overloaded 3 [] hello))
  = Responded {| status := 500;
                 body := VObj [("error", VStr "Failed to process chat message")] |}.
Proof.
  rewrite (answer_without_content_fails example_url overloaded 3 [] hello "Hello" []
             (VObj [("type", VStr "error")])
             eq_refl ltac:(discriminate) eq_refl eq_refl ltac:(discriminate)).
  reflexivity.
Defined.

End Bridge.
